(** * SSD1306 framebuffer driver (myssd1306.c): shallow embedding and proofs

    The driver keeps a page-packed monochrome framebuffer
    [ssd1306_buffer] of [SSD1306_W * SSD1306_H / 8] bytes, draws into it
    through [ssd1306_drawPixel], [ssd1306_xorPixel] and
    [ssd1306_drawImage], and ships it to the display with
    [ssd1306_refresh].

    Machine integers are modelled as [Z] with the wrap-around of the C
    type written out ([u8], [u16], [u32], [s32]); the framebuffer is a
    list of bytes updated by index; every store into the framebuffer is
    also recorded in a ghost log so that memory-safety and frame
    properties can be stated about the stores themselves. *)

From Stdlib Require Import ZArith Lia List Bool.
From stdpp Require Import base list.
Import ListNotations.
Local Open Scope Z_scope.

(** ** Machine integers *)

Definition u8 (z : Z) : Z := z mod 2^8.
Definition u16 (z : Z) : Z := z mod 2^16.
Definition u32 (z : Z) : Z := z mod 2^32.
(** [int] / [int32_t]: two's complement wrap-around. *)
Definition s32 (z : Z) : Z := (z + 2^31) mod 2^32 - 2^31.

(** [SSD1306_PSZ] of myssd1306.h. *)
Definition SSD1306_PSZ : Z := 32.
Definition SSD1306_COLUMNADDR : Z := 0x21.
Definition SSD1306_PAGEADDR : Z := 0x22.

(** ** Framebuffer state *)

(** [ssd1306_buffer] is the byte array of the driver; [stored] is the
    ghost log of the indices the code has stored to, most recent first. *)
Record fb_state : Type := mk_fb {
  ssd1306_buffer : list Z;
  stored : list Z
}.

(** [ssd1306_buffer[addr]] as an rvalue. *)
Definition buf_get (st : fb_state) (addr : Z) : Z :=
  default 0 (ssd1306_buffer st !! Z.to_nat addr).

(** [ssd1306_buffer[addr] = v]; the stored value is cut to [uint8_t]. *)
Definition buf_set (addr v : Z) (st : fb_state) : fb_state :=
  {| ssd1306_buffer := <[Z.to_nat addr := u8 v]> (ssd1306_buffer st);
     stored := addr :: stored st |}.

Section Driver.

(** Compile-time geometry of myssd1306.h. *)
Variables SSD1306_W SSD1306_H SSD1306_OFFSET : Z.

(** [sizeof(ssd1306_buffer)] *)
Definition buffer_size : Z := SSD1306_W * SSD1306_H / 8.

(** ** Pixel accessors *)

Definition ssd1306_drawPixel (x y color : Z) (st : fb_state) : fb_state :=
  if x >=? SSD1306_W then st
  else if y >=? SSD1306_H then st
  else
    let addr := u32 (x + SSD1306_W * (y / 8)) in
    if negb (color =? 0)
    then buf_set addr (Z.lor (buf_get st addr) (Z.shiftl 1 (Z.land y 7))) st
    else buf_set addr (Z.land (buf_get st addr) (Z.lnot (Z.shiftl 1 (Z.land y 7)))) st.

Definition ssd1306_xorPixel (x y : Z) (st : fb_state) : fb_state :=
  if x >=? SSD1306_W then st
  else if y >=? SSD1306_H then st
  else
    let addr := u32 (x + SSD1306_W * (y / 8)) in
    buf_set addr (Z.lxor (buf_get st addr) (Z.shiftl 1 (Z.land y 7))) st.

(** ** Image compositor *)

(** The [switch (color_mode)] of [ssd1306_drawImage]: the byte stored at
    [buffer_addr], or no store at all for a mode outside 0..5. *)
Definition image_store (color_mode v_mask input_pixel buffer_addr : Z)
    (st : fb_state) : fb_state :=
  let b := buf_get st buffer_addr in
  let nv := u32 (Z.lnot v_mask) in
  match color_mode with
  | 0 => buf_set buffer_addr
           (Z.lor (Z.land b nv) (if negb (input_pixel =? 0) then v_mask else 0)) st
  | 1 => buf_set buffer_addr
           (Z.lor (Z.land b nv) (if input_pixel =? 0 then v_mask else 0)) st
  | 2 => buf_set buffer_addr
           (Z.land b (if negb (input_pixel =? 0) then 0xFF else nv)) st
  | 3 => buf_set buffer_addr
           (Z.lor b (if negb (input_pixel =? 0) then v_mask else 0)) st
  | 4 => buf_set buffer_addr
           (Z.lor b (if input_pixel =? 0 then v_mask else 0)) st
  | 5 => buf_set buffer_addr
           (Z.land b (if negb (input_pixel =? 0) then nv else 0xFF)) st
  | _ => st
  end.

(** [for (pixel = ...; pixel < 8; pixel++)], [n] iterations left. *)
Fixpoint image_pixels (n : nat) (pixel : Z)
    (x y_absolute bytes_to_draw byte input_byte v_mask color_mode : Z)
    (st : fb_state) : fb_state :=
  match n with
  | O => st
  | S n' =>
    let x_absolute := u32 (x + 8 * (bytes_to_draw - byte) + pixel) in
    if x_absolute >=? SSD1306_W then st (* break *)
    else
      let buffer_addr := u32 (x_absolute + SSD1306_W * (y_absolute / 8)) in
      let input_pixel := u8 (Z.land input_byte (Z.shiftl 1 pixel)) in
      image_pixels n' (pixel + 1) x y_absolute bytes_to_draw byte input_byte
        v_mask color_mode
        (image_store color_mode v_mask input_pixel buffer_addr st)
  end.

(** [for (byte = ...; byte < bytes_to_draw; byte++)], [n] iterations left.
    [input] is the caller's bitmap, read as [input[index]]. *)
Fixpoint image_bytes (n : nat) (byte : Z) (input : Z -> Z)
    (x y_absolute bytes_to_draw line v_mask color_mode : Z)
    (st : fb_state) : fb_state :=
  match n with
  | O => st
  | S n' =>
    let input_byte := u8 (input (u32 (byte + line * bytes_to_draw))) in
    image_bytes n' (byte + 1) input x y_absolute bytes_to_draw line v_mask
      color_mode
      (image_pixels 8 0 x y_absolute bytes_to_draw byte input_byte v_mask
         color_mode st)
  end.

(** [for (line = ...; line < height; line++)], [n] iterations left. *)
Fixpoint image_lines (n : nat) (line : Z) (input : Z -> Z)
    (x y bytes_to_draw color_mode : Z) (st : fb_state) : fb_state :=
  match n with
  | O => st
  | S n' =>
    let y_absolute := u32 (y + line) in
    if y_absolute >=? SSD1306_H then st (* break *)
    else
      let v_mask := Z.shiftl 1 (Z.land y_absolute 7) in
      image_lines n' (line + 1) input x y bytes_to_draw color_mode
        (image_bytes (Z.to_nat bytes_to_draw) 0 input x y_absolute
           bytes_to_draw line v_mask color_mode st)
  end.

Definition ssd1306_drawImage (x y : Z) (input : Z -> Z)
    (width height color_mode : Z) (st : fb_state) : fb_state :=
  let bytes_to_draw := width / 8 in
  image_lines (Z.to_nat height) 0 input x y bytes_to_draw color_mode st.

(** ** Fast lines *)

(** [while (h--) ssd1306_drawPixel(x, y++, color);] with [int32_t] x, y. *)
Fixpoint vline_loop (n : nat) (x y color : Z) (st : fb_state) : fb_state :=
  match n with
  | O => st
  | S n' => vline_loop n' x (s32 (y + 1)) color
              (ssd1306_drawPixel (u32 x) (u32 y) color st)
  end.

Definition ssd1306_drawFastVLine (x y h color : Z) (st : fb_state) : fb_state :=
  if (x >=? SSD1306_W) || (y >=? SSD1306_H) then st
  else
    let h := if s32 (y + h - 1) >=? SSD1306_H then s32 (SSD1306_H - y) else h in
    vline_loop (Z.to_nat (u32 h)) x y color st.

(** [while (w--) ssd1306_drawPixel(x++, y, color);] with [uint32_t] x. *)
Fixpoint hline_loop (n : nat) (x y color : Z) (st : fb_state) : fb_state :=
  match n with
  | O => st
  | S n' => hline_loop n' (u32 (x + 1)) y color
              (ssd1306_drawPixel x y color st)
  end.

Definition ssd1306_drawFastHLine (x y w color : Z) (st : fb_state) : fb_state :=
  if (x >=? SSD1306_W) || (y >=? SSD1306_H) then st
  else
    let w := if u32 (x + w - 1) >=? SSD1306_W then u32 (SSD1306_W - x) else w in
    hline_loop (Z.to_nat w) x y color st.

(** ** Bresenham line *)

Definition gfx_abs (x : Z) : Z := if x <? 0 then s32 (- x) else x.

(** [gfx_swap(&z0, &z1)]: the new values of [( *z0, *z1 )]. The temporary
    is a [uint16_t]. *)
Definition gfx_swap (z0 z1 : Z) : Z * Z :=
  let temp := u16 z0 in
  (z1, temp).

(** [for (x = ...; x <= x1; x++)], [n] iterations left. *)
Fixpoint line_loop (n : nat) (steep : bool)
    (x y error deltax deltay ystep color : Z) (st : fb_state) : fb_state :=
  match n with
  | O => st
  | S n' =>
    let st1 := if steep then ssd1306_drawPixel (u32 y) (u32 x) color st
               else ssd1306_drawPixel (u32 x) (u32 y) color st in
    let error := s32 (error - deltay) in
    if error <? 0
    then line_loop n' steep (s32 (x + 1)) (s32 (y + ystep))
           (s32 (error + deltax)) deltax deltay ystep color st1
    else line_loop n' steep (s32 (x + 1)) y error deltax deltay ystep color st1
  end.

Definition ssd1306_drawLine (x0 y0 x1 y1 color : Z) (st : fb_state) : fb_state :=
  let steep := gfx_abs (s32 (y1 - y0)) >? gfx_abs (s32 (x1 - x0)) in
  let '(x0, y0, x1, y1) :=
    if steep then
      let '(x0, y0) := gfx_swap x0 y0 in
      let '(x1, y1) := gfx_swap x1 y1 in
      (x0, y0, x1, y1)
    else (x0, y0, x1, y1) in
  let '(x0, y0, x1, y1) :=
    if x0 >? x1 then
      let '(x0, x1) := gfx_swap x0 x1 in
      let '(y0, y1) := gfx_swap y0 y1 in
      (x0, y0, x1, y1)
    else (x0, y0, x1, y1) in
  let deltax := s32 (x1 - x0) in
  let deltay := gfx_abs (s32 (y1 - y0)) in
  let error := Z.quot deltax 2 in
  let y := y0 in
  let ystep := if y0 <? y1 then 1 else -1 in
  line_loop (Z.to_nat (x1 - x0 + 1)) steep x0 y error deltax deltay ystep
    color st.

(** ** Bresenham circles *)

(** One pass through the body of the [do ... while] after the plotting
    calls: the new [(x_pos, y_pos, err)]. *)
Definition circle_step (x_pos y_pos err : Z) : Z * Z * Z :=
  let e2 := err in
  let '(y_pos, err, e2) :=
    if e2 <=? y_pos then
      let y_pos' := s32 (y_pos + 1) in
      let err' := s32 (err + s32 (s32 (y_pos' * 2) + 1)) in
      if (s32 (- x_pos) =? y_pos') && (e2 <=? x_pos)
      then (y_pos', err', 0)
      else (y_pos', err', e2)
    else (y_pos, err, e2) in
  if e2 >? x_pos then
    let x_pos' := s32 (x_pos + 1) in
    (x_pos', y_pos, s32 (err + s32 (s32 (x_pos' * 2) + 1)))
  else (x_pos, y_pos, err).

(** The four symmetric [ssd1306_drawPixel] calls of both circle loops. *)
Definition circle_plot4 (x y color x_pos y_pos : Z) (st : fb_state) : fb_state :=
  let st := ssd1306_drawPixel (u32 (x - x_pos)) (u32 (y + y_pos)) color st in
  let st := ssd1306_drawPixel (u32 (x + x_pos)) (u32 (y + y_pos)) color st in
  let st := ssd1306_drawPixel (u32 (x + x_pos)) (u32 (y - y_pos)) color st in
  ssd1306_drawPixel (u32 (x - x_pos)) (u32 (y - y_pos)) color st.

(** [do { ... } while (x_pos <= 0);] with [fuel] passes allowed; [None]
    when the fuel runs out before the loop condition fails. *)
Fixpoint drawCircle_loop (fuel : nat) (x y color x_pos y_pos err : Z)
    (st : fb_state) : option fb_state :=
  match fuel with
  | O => None
  | S fuel' =>
    let st := circle_plot4 x y color x_pos y_pos st in
    let '(x_pos, y_pos, err) := circle_step x_pos y_pos err in
    if x_pos <=? 0
    then drawCircle_loop fuel' x y color x_pos y_pos err st
    else Some st
  end.

Definition ssd1306_drawCircle (fuel : nat) (x y radius color : Z)
    (st : fb_state) : option fb_state :=
  let x_pos := s32 (- radius) in
  let y_pos := 0 in
  let err := s32 (2 - s32 (2 * radius)) in
  drawCircle_loop fuel x y color x_pos y_pos err st.

Fixpoint fillCircle_loop (fuel : nat) (x y color x_pos y_pos err : Z)
    (st : fb_state) : option fb_state :=
  match fuel with
  | O => None
  | S fuel' =>
    let st := circle_plot4 x y color x_pos y_pos st in
    let st := ssd1306_drawFastHLine (u32 (x + x_pos)) (u32 (y + y_pos))
                (u32 (2 * (- x_pos) + 1)) color st in
    let st := ssd1306_drawFastHLine (u32 (x + x_pos)) (u32 (y - y_pos))
                (u32 (2 * (- x_pos) + 1)) color st in
    let '(x_pos, y_pos, err) := circle_step x_pos y_pos err in
    if x_pos <=? 0
    then fillCircle_loop fuel' x y color x_pos y_pos err st
    else Some st
  end.

Definition ssd1306_fillCircle (fuel : nat) (x y radius color : Z)
    (st : fb_state) : option fb_state :=
  let x_pos := s32 (- radius) in
  let y_pos := 0 in
  let err := s32 (2 - s32 (2 * radius)) in
  fillCircle_loop fuel x y color x_pos y_pos err st.






(** ** Rectangles *)

Definition ssd1306_drawRect (x y w h color : Z) (st : fb_state) : fb_state :=
  let st := ssd1306_drawFastVLine x y (s32 h) color st in
  let st := ssd1306_drawFastVLine (s32 (x + w - 1)) y (s32 h) color st in
  let st := ssd1306_drawFastHLine (u32 x) (u32 y) w color st in
  ssd1306_drawFastHLine (u32 x) (u32 (y + h - 1)) w color st.

(** Inner [while (w--)] of [ssd1306_fillRect], [m] a [uint32_t]. *)
Fixpoint fillRect_row (n : nat) (m y color : Z) (st : fb_state) : fb_state :=
  match n with
  | O => st
  | S n' => fillRect_row n' (u32 (m + 1)) y color (ssd1306_drawPixel m y color st)
  end.

(** Outer [while (h--)] of [ssd1306_fillRect]. *)
Fixpoint fillRect_rows (n : nat) (x n_ iw color : Z) (st : fb_state) : fb_state :=
  match n with
  | O => st
  | S n' => fillRect_rows n' x (u32 (n_ + 1)) iw color
              (fillRect_row (Z.to_nat iw) x n_ color st)
  end.

Definition ssd1306_fillRect (x y w h color : Z) (st : fb_state) : fb_state :=
  fillRect_rows (Z.to_nat h) x y w color st.

(** Inner [while (w--)] of [ssd1306_xorrect], [m] a [uint8_t]. *)
Fixpoint xorrect_row (n : nat) (m y : Z) (st : fb_state) : fb_state :=
  match n with
  | O => st
  | S n' => xorrect_row n' (u8 (m + 1)) y (ssd1306_xorPixel m y st)
  end.

Fixpoint xorrect_rows (n : nat) (x n_ iw : Z) (st : fb_state) : fb_state :=
  match n with
  | O => st
  | S n' => xorrect_rows n' x (u8 (n_ + 1)) iw
              (xorrect_row (Z.to_nat iw) x n_ st)
  end.

Definition ssd1306_xorrect (x y w h : Z) (st : fb_state) : fb_state :=
  xorrect_rows (Z.to_nat h) x y w st.

(** ** Glyph renderer *)

(** font_8x8.h is not part of the sources at hand: the table is taken as
    a parameter, [fontdata i] being [fontdata[i]]. *)
Variable fontdata : Z -> Z.

Inductive font_size_t : Type :=
| fontsize_8x8 | fontsize_16x16 | fontsize_32x32 | fontsize_64x64.

Definition font_size_val (f : font_size_t) : Z :=
  match f with
  | fontsize_8x8 => 1
  | fontsize_16x16 => 2
  | fontsize_32x32 => 4
  | fontsize_64x64 => 8
  end.

(** The colour chosen for one font bit. *)
Definition glyph_col (d color : Z) : Z :=
  if negb (Z.land d 0x80 =? 0) then color else Z.land (Z.lnot color) 1.

(** [for (j = ...; j < 8; j++)] of [ssd1306_drawchar]. *)
Fixpoint drawchar_cols (n : nat) (j x y i d color : Z) (st : fb_state) : fb_state :=
  match n with
  | O => st
  | S n' =>
    let col := glyph_col d color in
    drawchar_cols n' (j + 1) x y i (u8 (Z.shiftl d 1)) color
      (ssd1306_drawPixel (u32 (x + j)) (u32 (y + i)) col st)
  end.

(** [for (i = ...; i < 8; i++)] of [ssd1306_drawchar]. *)
Fixpoint drawchar_rows (n : nat) (i x y chr color : Z) (st : fb_state) : fb_state :=
  match n with
  | O => st
  | S n' =>
    let d := u8 (fontdata (Z.shiftl chr 3 + i)) in
    drawchar_rows n' (i + 1) x y chr color (drawchar_cols 8 0 x y i d color st)
  end.

Definition ssd1306_drawchar (x y chr color : Z) (st : fb_state) : fb_state :=
  drawchar_rows 8 0 x y chr color st.

(** [str] holds the bytes of the C string; the loop ends at the first NUL
    or at the end of the list. [x] is a [uint8_t]. *)
Fixpoint ssd1306_drawstr (x y : Z) (str : list Z) (color : Z) (st : fb_state)
    : fb_state :=
  match str with
  | [] => st
  | c :: str' =>
    let c := u8 c in
    if c =? 0 then st
    else
      let st := ssd1306_drawchar x y c color st in
      let x := u8 (x + 8) in
      if x >? 120 then st (* break *)
      else ssd1306_drawstr x y str' color st
  end.

(** [for (l = ...; l < font_scale; l++)] *)
Fixpoint scaled_l (n : nat) (l x y i j k font_scale col : Z) (st : fb_state)
    : fb_state :=
  match n with
  | O => st
  | S n' =>
    scaled_l n' (u8 (l + 1)) x y i j k font_scale col
      (ssd1306_drawPixel (u32 (x + j * font_scale + k))
         (u32 (y + i * font_scale + l)) col st)
  end.

(** [for (k = ...; k < font_scale; k++)] *)
Fixpoint scaled_k (n : nat) (k x y i j font_scale col : Z) (st : fb_state)
    : fb_state :=
  match n with
  | O => st
  | S n' =>
    scaled_k n' (u8 (k + 1)) x y i j font_scale col
      (scaled_l (Z.to_nat font_scale) 0 x y i j k font_scale col st)
  end.

Fixpoint drawchar_sz_cols (n : nat) (j x y i d color font_scale : Z)
    (st : fb_state) : fb_state :=
  match n with
  | O => st
  | S n' =>
    let col := glyph_col d color in
    drawchar_sz_cols n' (j + 1) x y i (u8 (Z.shiftl d 1)) color font_scale
      (scaled_k (Z.to_nat font_scale) 0 x y i j font_scale col st)
  end.

Fixpoint drawchar_sz_rows (n : nat) (i x y chr color font_scale : Z)
    (st : fb_state) : fb_state :=
  match n with
  | O => st
  | S n' =>
    let d := u8 (fontdata (Z.shiftl chr 3 + i)) in
    drawchar_sz_rows n' (i + 1) x y chr color font_scale
      (drawchar_sz_cols 8 0 x y i d color font_scale st)
  end.

Definition ssd1306_drawchar_sz (x y chr color : Z) (font_size : font_size_t)
    (st : fb_state) : fb_state :=
  let font_scale := u8 (font_size_val font_size) in
  drawchar_sz_rows 8 0 x y chr color font_scale st.

Fixpoint ssd1306_drawstr_sz (x y : Z) (str : list Z) (color : Z)
    (font_size : font_size_t) (st : fb_state) : fb_state :=
  match str with
  | [] => st
  | c :: str' =>
    let c := u8 c in
    if c =? 0 then st
    else
      let st := ssd1306_drawchar_sz x y c color font_size st in
      let x := u8 (x + 8 * font_size_val font_size) in
      if x >? 128 - 8 * font_size_val font_size then st (* break *)
      else ssd1306_drawstr_sz x y str' color font_size st
  end.

(** ** Transfer engine *)

(** One [i2c_write_raw] transaction as a mock transport records it: the
    bytes handed over.  A byte is [None] when the code fetched it from
    outside the array it was given. *)
Definition packet : Type := list (option Z).

Definition ssd1306_cmd (cmd : Z) : packet :=
  [Some 0x00; Some (u8 cmd)].

(** [ssd1306_data(dev, &buf[i], sz)]: [memcpy] takes [sz] bytes starting
    at index [i] of [buf]. *)
Definition ssd1306_data (buf : list Z) (i sz : Z) : packet :=
  let sz := if sz >? SSD1306_PSZ then SSD1306_PSZ else sz in
  Some 0x40 :: map (fun k => buf !! (Z.to_nat i + k)%nat) (seq 0 (Z.to_nat sz)).

(** [for (i = ...; i < sizeof(ssd1306_buffer); i += SSD1306_PSZ)];
    [None] when the fuel runs out before the loop condition fails. *)
Fixpoint refresh_loop (fuel : nat) (i : Z) (buf : list Z) : option (list packet) :=
  match fuel with
  | O => None
  | S fuel' =>
    if i <? buffer_size then
      match refresh_loop fuel' (u32 (i + SSD1306_PSZ)) buf with
      | Some rest => Some (ssd1306_data buf i SSD1306_PSZ :: rest)
      | None => None
      end
    else Some []
  end.

Definition ssd1306_refresh (fuel : nat) (buf : list Z) : option (list packet) :=
  match refresh_loop fuel 0 buf with
  | Some datas =>
    Some ([ ssd1306_cmd SSD1306_COLUMNADDR;
            ssd1306_cmd SSD1306_OFFSET;
            ssd1306_cmd (SSD1306_OFFSET + SSD1306_W - 1);
            ssd1306_cmd SSD1306_PAGEADDR;
            ssd1306_cmd 0;
            ssd1306_cmd 7 ] ++ datas)
  | None => None
  end.

End Driver.

(** ** Buffer fill and initialization *)

(** [memset(&ssd1306_buffer[i], v, n)], one byte after the other. *)
Fixpoint memset_buf (n : nat) (i v : Z) (st : fb_state) : fb_state :=
  match n with
  | O => st
  | S n' => memset_buf n' (i + 1) v (buf_set i v st)
  end.

Definition ssd1306_setbuf (W H color : Z) (st : fb_state) : fb_state :=
  memset_buf (Z.to_nat (buffer_size W H)) 0
    (if negb (color =? 0) then 0xFF else 0x00) st.

(** Command codes of myssd1306.h used by the initialization arrays. *)
Definition SSD1306_DISPLAYOFF : Z := 0xAE.
Definition SSD1306_DISPLAYON : Z := 0xAF.
Definition SSD1306_NORMALDISPLAY : Z := 0xA6.
Definition SSD1306_DISPLAYALLON_RESUME : Z := 0xA4.
Definition SSD1306_SETCONTRAST : Z := 0x81.
Definition SSD1306_MEMORYMODE : Z := 0x20.
Definition SSD1306_SETSTARTLINE : Z := 0x40.
Definition SSD1306_SEGREMAP : Z := 0xA0.
Definition SSD1306_SETMULTIPLEX : Z := 0xA8.
Definition SSD1306_SETDISPLAYOFFSET : Z := 0xD3.
Definition SSD1306_SETCOMPINS : Z := 0xDA.
Definition SSD1306_COMSCANDEC : Z := 0xC8.
Definition SSD1306_SETDISPLAYCLOCKDIV : Z := 0xD5.
Definition SSD1306_SETPRECHARGE : Z := 0xD9.
Definition SSD1306_SETVCOMDETECT : Z := 0xDB.
Definition SSD1306_CHARGEPUMP : Z := 0x8D.
Definition SSD1306_TERMINATE_CMDS : Z := 0xFF.

(** The build switches that select a branch of [ssd1306_init_array]. *)
Record build_flags : Type := {
  SH1107 : bool;
  SSD1306_64X32 : bool;
  SSD1306_72X40 : bool;
  SSD1306_128X32 : bool;
  SSD1327 : bool
}.

(** [ssd1306_init_array], a [uint8_t] array, for the given switches and
    display height. *)
Definition ssd1306_init_array (fl : build_flags) (H : Z) : list Z :=
  map u8
    (if SH1107 fl then
       [ SSD1306_DISPLAYOFF; 0x00; 0x10; 0xb0; 0xdc; 0x00;
         SSD1306_SETCONTRAST; 0x6f; SSD1306_COLUMNADDR;
         SSD1306_DISPLAYALLON_RESUME; SSD1306_SETMULTIPLEX; H - 1;
         SSD1306_SETDISPLAYOFFSET; 0x00; SSD1306_SETDISPLAYCLOCKDIV; 0xf0;
         SSD1306_SETPRECHARGE; 0x1d; SSD1306_SETVCOMDETECT; 0x35;
         Z.lor SSD1306_SETSTARTLINE 0x0; 0xad; 0x80; SSD1306_SEGREMAP; 0x01;
         SSD1306_SETPRECHARGE; 0x06; SSD1306_SETCONTRAST; 0xfe;
         SSD1306_SETVCOMDETECT; 0xfe; SSD1306_SETMULTIPLEX; H - 1;
         SSD1306_DISPLAYON; SSD1306_TERMINATE_CMDS ]
     else
       [ SSD1306_DISPLAYOFF; SSD1306_SETDISPLAYCLOCKDIV; 0x80;
         SSD1306_SETMULTIPLEX;
         (if SSD1306_64X32 fl then 0x1F
          else if SSD1306_72X40 fl then 0x27 else 0x3F);
         SSD1306_SETDISPLAYOFFSET; 0x00; Z.lor SSD1306_SETSTARTLINE 0x0;
         SSD1306_CHARGEPUMP; 0x14; SSD1306_MEMORYMODE; 0x00;
         Z.lor SSD1306_SEGREMAP 0x1; SSD1306_COMSCANDEC; SSD1306_SETCOMPINS;
         (if SSD1306_128X32 fl then 0x22 else 0x12);
         SSD1306_SETCONTRAST;
         (if SSD1306_72X40 fl then 0xAF else 0x8F);
         SSD1306_SETPRECHARGE; 0xF1; SSD1306_SETVCOMDETECT; 0x40;
         SSD1306_DISPLAYALLON_RESUME ]
       ++ (if SSD1327 fl then [] else [SSD1306_NORMALDISPLAY])
       ++ [ SSD1306_DISPLAYON; SSD1306_TERMINATE_CMDS ]).

(** [cmd_array], the addressing prologue copied into [display_cmdbuffer]. *)
Definition cmd_array (W OFFSET : Z) : list Z :=
  map u8 [ 0x80; SSD1306_COLUMNADDR; 0x80; OFFSET; 0x80; OFFSET + W - 1;
           0x80; SSD1306_PAGEADDR; 0x80; 0; 0x80; 7; 0x40 ].

(** What [ssd1306_init] leaves behind: its return value, the bus
    transactions made so far, the framebuffer and [display_cmdbuffer]. *)
Record init_result : Type := {
  init_status : Z;
  init_trace : list packet;
  init_fb : fb_state;
  init_cmdbuffer : list Z
}.

Section Init.

Variables SSD1306_W SSD1306_H SSD1306_OFFSET : Z.

(** lib_i2c.h is not part of the sources at hand: [i2c_write_raw tr pkt]
    is the status the bus returns for [pkt] after the transactions [tr]. *)
Variable i2c_write_raw : list packet -> packet -> Z.

(** [ssd1306_cmd(dev, cmd)] with its return value: the status cut to
    [uint8_t], and the longer trace. *)
Definition ssd1306_cmd_send (tr : list packet) (cmd : Z) : Z * list packet :=
  (u8 (i2c_write_raw tr (ssd1306_cmd cmd)), tr ++ [ssd1306_cmd cmd]).

(** [while ( *cmd_list != SSD1306_TERMINATE_CMDS)
       if (ssd1306_cmd(dev, *cmd_list++)) return 1;]
    The result is [Some (true, tr)] for the early [return 1], [Some
    (false, tr)] when the terminator is met, and [None] when the walk
    leaves the array without meeting it. *)
Fixpoint init_cmds (cmd_list : list Z) (tr : list packet)
    : option (bool * list packet) :=
  match cmd_list with
  | [] => None
  | c :: cmd_list' =>
    if c =? SSD1306_TERMINATE_CMDS then Some (false, tr)
    else
      let '(status, tr) := ssd1306_cmd_send tr c in
      if negb (status =? 0) then Some (true, tr)
      else init_cmds cmd_list' tr
  end.

(** [ssd1306_init], on the init array [arr]; [fuel] bounds the loop of
    [ssd1306_refresh]. *)
Definition ssd1306_init (arr : list Z) (fuel : nat) (tr : list packet)
    (st : fb_state) (display_cmdbuffer : list Z) : option init_result :=
  let st := ssd1306_setbuf SSD1306_W SSD1306_H 0 st in
  match init_cmds arr tr with
  | None => None
  | Some (true, tr) =>
    Some {| init_status := 1; init_trace := tr; init_fb := st;
            init_cmdbuffer := display_cmdbuffer |}
  | Some (false, tr) =>
    let cb := cmd_array SSD1306_W SSD1306_OFFSET in
    let display_cmdbuffer := cb ++ skipn (length cb) display_cmdbuffer in
    match ssd1306_refresh SSD1306_W SSD1306_H SSD1306_OFFSET fuel
            (ssd1306_buffer st) with
    | None => None
    | Some pkts =>
      Some {| init_status := 0; init_trace := tr ++ pkts; init_fb := st;
              init_cmdbuffer := display_cmdbuffer |}
    end
  end.

End Init.

(** ** Vocabulary of the statements *)

(** What the header asks of a display geometry: a page-aligned height,
    and a framebuffer that fits a 32-bit address space. *)
Definition geometry_ok (W H : Z) : Prop :=
  0 < W /\ 0 < H /\ H mod 8 = 0 /\ buffer_size W H <= 2^32.

(** The framebuffer has its declared size. *)
Definition fb_wf (W H : Z) (st : fb_state) : Prop :=
  length (ssd1306_buffer st) = Z.to_nat (buffer_size W H).

(** Strip byte of pixel [(x, y)] and the pixel itself. *)
Definition pixel_addr (W x y : Z) : Z := x + W * (y / 8).

Definition pixel_at (W : Z) (st : fb_state) (x y : Z) : bool :=
  Z.testbit (buf_get st (pixel_addr W x y)) (Z.land y 7).

(** [st'] is [st] after some more stores, each at an index satisfying [P]. *)
Definition stores_ext (P : Z -> Prop) (st st' : fb_state) : Prop :=
  exists new, stored st' = new ++ stored st /\ Forall P new.

Definition in_buffer (W H : Z) (a : Z) : Prop := 0 <= a < buffer_size W H.

(** The compositing table of the specification: the destination bit after
    a blit of source bit [src] over destination bit [dst]. *)
Definition mode_bit (mode : Z) (src dst : bool) : bool :=
  match mode with
  | 0 => src
  | 1 => negb src
  | 2 => src && dst
  | 3 => src || dst
  | 4 => negb src || dst
  | 5 => negb src && dst
  | _ => dst
  end.

(** [st'] is [st] after a blit under [mode]: every pixel [(px, py)] that
    [hit] names, with its source bit [s], holds the table's result, and
    every pixel that [hit] does not name is as before. *)
Definition blitted (W H mode : Z) (hit : Z -> Z -> bool -> Prop)
    (st st' : fb_state) : Prop :=
  forall px py, 0 <= px < W -> 0 <= py < H ->
    (forall s, hit px py s ->
       pixel_at W st' px py = mode_bit mode s (pixel_at W st px py)) /\
    ((forall s, ~ hit px py s) -> pixel_at W st' px py = pixel_at W st px py).

(** Destination column of pixel [p] of source byte-group [byte]. *)
Definition x_abs (x btd byte p : Z) : Z := u32 (x + 8 * (btd - byte) + p).

(** Pixels written by the pixel loop of one byte-group, started at
    [pixel0]: pixel [p] is written when no earlier pixel of the group
    left the display to the right. *)
Definition pixels_hit (W x y_absolute btd byte input_byte pixel0 : Z)
    (px py : Z) (s : bool) : Prop :=
  exists p, pixel0 <= p < 8 /\
    (forall p', pixel0 <= p' <= p -> x_abs x btd byte p' < W) /\
    px = x_abs x btd byte p /\ py = y_absolute /\
    s = Z.testbit input_byte p.

(** Pixels written by the byte loop of one source row, started at [byte0]. *)
Definition bytes_hit (W x y_absolute btd : Z) (input : Z -> Z) (line byte0 : Z)
    (px py : Z) (s : bool) : Prop :=
  exists byte, byte0 <= byte < btd /\
    pixels_hit W x y_absolute btd byte (u8 (input (u32 (byte + line * btd)))) 0
      px py s.

(** Pixels written by the row loop started at [line0]: row [line] is drawn
    when no earlier row reached [H]. *)
Definition lines_hit (W H x y btd height : Z) (input : Z -> Z) (line0 : Z)
    (px py : Z) (s : bool) : Prop :=
  exists line, line0 <= line < height /\
    (forall l, line0 <= l <= line -> u32 (y + l) < H) /\
    bytes_hit W x (u32 (y + line)) btd input line 0 px py s.

(** Between [st] and [st'] there was a store at index [a]. *)
Definition logged (a : Z) (st st' : fb_state) : Prop :=
  exists n1 n2, stored st' = n1 ++ a :: n2 ++ stored st.

(** Display column of the strip byte at index [a]. *)
Definition addr_column (W a : Z) : Z := a mod W.

(** Loop invariant of the circle loops at the head of a pass: the error
    term is that of the midpoint algorithm and stays within [O(radius)]. *)
Definition circle_inv (r x_pos y_pos err : Z) : Prop :=
  - r <= x_pos <= 0 /\ 0 <= y_pos <= r /\
  err = (x_pos + 1) * (x_pos + 1) + (y_pos + 1) * (y_pos + 1) - r * r /\
  - 3 * r <= err <= 3 * y_pos + 9 + x_pos.

(** The same without the bounds: what holds at the head of every pass
    as long as no operation has overflowed. *)
Definition circle_exact (r x_pos y_pos err : Z) : Prop :=
  - r <= x_pos <= 0 /\ 0 <= y_pos <= r /\
  err = (x_pos + 1) * (x_pos + 1) + (y_pos + 1) * (y_pos + 1) - r * r.

(** String drawing as the specification words it: the cursor advances by
    8 columns per character, and no further character is emitted once the
    next glyph would exceed the display width. *)
Fixpoint drawString_spec (W H : Z) (fontdata : Z -> Z) (x y : Z)
    (str : list Z) (color : Z) (st : fb_state) : fb_state :=
  match str with
  | [] => st
  | c :: str' =>
    if u8 c =? 0 then st
    else
      let st := ssd1306_drawchar W H fontdata x y (u8 c) color st in
      if x + 8 + 8 >? W then st
      else drawString_spec W H fontdata (x + 8) y str' color st
  end.

(** A font whose glyphs are solid blocks. *)
Definition solid_font : Z -> Z := fun _ => 0xFF.

(** The classic midpoint (Bresenham) line algorithm on unbounded
    integers, as the specification refers to it: the points it plots, in
    plotting order. *)
Fixpoint bresenham_loop (n : nat) (steep : bool)
    (x y error deltax deltay ystep : Z) : list (Z * Z) :=
  match n with
  | O => []
  | S n' =>
    let pt := if steep then (y, x) else (x, y) in
    let error := error - deltay in
    if error <? 0
    then pt :: bresenham_loop n' steep (x + 1) (y + ystep) (error + deltax)
                 deltax deltay ystep
    else pt :: bresenham_loop n' steep (x + 1) y error deltax deltay ystep
  end.

Definition bresenham_points (x0 y0 x1 y1 : Z) : list (Z * Z) :=
  let steep := Z.abs (y1 - y0) >? Z.abs (x1 - x0) in
  let '(x0, y0, x1, y1) := if steep then (y0, x0, y1, x1) else (x0, y0, x1, y1) in
  let '(x0, y0, x1, y1) := if x0 >? x1 then (x1, y1, x0, y0) else (x0, y0, x1, y1) in
  let deltax := x1 - x0 in
  let deltay := Z.abs (y1 - y0) in
  let ystep := if y0 <? y1 then 1 else -1 in
  bresenham_loop (Z.to_nat (x1 - x0 + 1)) steep x0 y0 (Z.quot deltax 2)
    deltax deltay ystep.

(** Plotting a list of points, those off the display being clipped. *)
Definition plot_points (W H color : Z) (pts : list (Z * Z)) (st : fb_state)
    : fb_state :=
  fold_left (fun st '(px, py) =>
               if (0 <=? px) && (0 <=? py)
               then ssd1306_drawPixel W H px py color st else st) pts st.

(** How a mock transport tells the two kinds of transaction apart. *)
Definition is_cmd (p : packet) : Prop := exists c, p = [Some 0x00; Some c].
Definition is_data (p : packet) : Prop := exists bytes, p = Some 0x40 :: bytes.
Definition payload (p : packet) : list (option Z) := tail p.

(** The transfer as the specification words it: exactly 4 addressing
    commands, then [ceil (size / maxPacket)] data packets carrying the
    whole buffer in order, the last one holding only the remainder. *)
Definition refresh_as_specified (W H OFFSET : Z) (fuel : nat) (buf : list Z)
    : Prop :=
  exists cmds datas,
    ssd1306_refresh W H OFFSET fuel buf = Some (cmds ++ datas) /\
    length cmds = 4%nat /\ Forall is_cmd cmds /\ Forall is_data datas /\
    Z.of_nat (length datas)
    = (buffer_size W H + SSD1306_PSZ - 1) / SSD1306_PSZ /\
    concat (map payload datas) = map Some buf /\
    (buffer_size W H mod SSD1306_PSZ <> 0 ->
     Z.of_nat (length (payload (List.last datas [])))
     = buffer_size W H mod SSD1306_PSZ).

(** A picture transformer: the new value of pixel [(px, py)] from its
    old value. *)
Definition pixmap : Type := Z -> Z -> bool -> bool.

(** [st'] is [st] with every pixel of the display sent through [t]; the
    framebuffer keeps its size. *)
Definition remaps (W H : Z) (t : pixmap) (st st' : fb_state) : Prop :=
  fb_wf W H st ->
  fb_wf W H st' /\
  forall px py, 0 <= px < W -> 0 <= py < H ->
    pixel_at W st' px py = t px py (pixel_at W st px py).

(** Pixel [(qx, qy)] painted with colour [c]. *)
Definition paint_pixel (qx qy c : Z) : pixmap :=
  fun px py b => if (px =? qx) && (py =? qy) then negb (c =? 0) else b.

(** The rectangle [[x0, x1) x [y0, y1)]. *)
Definition in_rect (x0 x1 y0 y1 px py : Z) : bool :=
  (x0 <=? px) && (px <? x1) && (y0 <=? py) && (py <? y1).

(** Every byte of the framebuffer is a [uint8_t]. *)
Definition fb_bytes (st : fb_state) : Prop :=
  Forall (fun b => 0 <= b < 256) (ssd1306_buffer st).

(** The bitmap with every bit flipped. *)
Definition invert_bitmap (input : Z -> Z) : Z -> Z := fun i => Z.lnot (input i).

(** What a glyph cell shows for a font bit: the colour for a set bit,
    the inverse of the colour's low bit for a clear one. *)
Definition glyph_pixel (bit : bool) (color : Z) : bool :=
  negb ((if bit then color else Z.land (Z.lnot color) 1) =? 0).

(** The transactions of the first [k] commands of [cmds], and whether
    the bus acknowledges (status 0 once cut to [uint8_t]) command [j] of
    [cmds] when the commands before it went out after [tr]. *)
Definition sent_after (cmds : list Z) (k : nat) : list packet :=
  map ssd1306_cmd (firstn k cmds).

Definition acknowledged (i2c_write_raw : list packet -> packet -> Z)
    (tr : list packet) (cmds : list Z) (j : nat) : Prop :=
  u8 (i2c_write_raw (tr ++ sent_after cmds j) (ssd1306_cmd (nth j cmds 0))) = 0.

(** The bounding square of a circle, as a set of pixels. *)
Definition in_box (x y r px py : Z) : bool :=
  in_rect (x - r) (x + r + 1) (y - r) (y + r + 1) px py.

(** The part of that square whose rows lie at least [d] away from the
    centre row. *)
Definition ring (x y r d px py : Z) : bool :=
  in_box x y r px py && (d <=? Z.abs (py - y)).

(** From [st] to [st'] a pixel of the display either keeps its value or
    lies in [R] and shows colour [c]; the framebuffer keeps its size. *)
Definition paints_in (W H : Z) (R : Z -> Z -> bool) (c : Z)
    (st st' : fb_state) : Prop :=
  fb_wf W H st ->
  fb_wf W H st' /\
  forall px py, 0 <= px < W -> 0 <= py < H ->
    pixel_at W st' px py = pixel_at W st px py \/
    (R px py = true /\ pixel_at W st' px py = negb (c =? 0)).

(** The plotting calls of one pass of [ssd1306_fillCircle]. *)
Definition fillCircle_pass (W H x y c xp yp : Z) (st : fb_state) : fb_state :=
  ssd1306_drawFastHLine W H (u32 (x + xp)) (u32 (y - yp))
    (u32 (2 * (- xp) + 1)) c
    (ssd1306_drawFastHLine W H (u32 (x + xp)) (u32 (y + yp))
       (u32 (2 * (- xp) + 1)) c
       (circle_plot4 W H x y c xp yp st)).

(** A bus that acknowledges every transaction but the one made after
    [k] others. *)
Definition refusing_bus (k : nat) : list packet -> packet -> Z :=
  fun tr _ => if (length tr =? k)%nat then 1 else 0.

(** An empty framebuffer for a [W] by [H] display. *)
Definition blank_fb (W H : Z) : fb_state :=
  {| ssd1306_buffer := repeat 0 (Z.to_nat (buffer_size W H)); stored := [] |}.

(** * Proofs *)

(** ** Machine-integer facts *)

Lemma u32_range z : 0 <= u32 z < 2^32.
Proof. unfold u32. apply Z.mod_pos_bound. lia. Qed.

Lemma u8_range z : 0 <= u8 z < 2^8.
Proof. unfold u8. apply Z.mod_pos_bound. lia. Qed.

Lemma u32_id z : 0 <= z < 2^32 -> u32 z = z.
Proof. intros. unfold u32. apply Z.mod_small. lia. Qed.

Lemma u8_id z : 0 <= z < 2^8 -> u8 z = z.
Proof. intros. unfold u8. apply Z.mod_small. lia. Qed.

Lemma u16_id z : 0 <= z < 2^16 -> u16 z = z.
Proof. intros. unfold u16. apply Z.mod_small. lia. Qed.

Lemma s32_id z : - 2^31 <= z < 2^31 -> s32 z = z.
Proof. intros. unfold s32. rewrite Z.mod_small; lia. Qed.

(** Two offsets below [2^32] that land on the same wrapped sum are equal. *)
Lemma u32_add_inj x a b :
  0 <= a < 2^32 -> 0 <= b < 2^32 -> u32 (x + a) = u32 (x + b) -> a = b.
Proof.
  unfold u32. intros Ha Hb E.
  pose proof (Z.div_mod (x + a) (2^32) ltac:(lia)) as E1.
  pose proof (Z.div_mod (x + b) (2^32) ltac:(lia)) as E2.
  rewrite E in E1. lia.
Qed.

Lemma land7_mod8 y : Z.land y 7 = y mod 8.
Proof. change 7 with (Z.ones 3). rewrite Z.land_ones by lia. reflexivity. Qed.

Lemma land7_range y : 0 <= Z.land y 7 < 8.
Proof. rewrite land7_mod8. apply Z.mod_pos_bound. lia. Qed.

Lemma testbit_u8 v k : 0 <= k < 8 -> Z.testbit (u8 v) k = Z.testbit v k.
Proof. intros. unfold u8. apply Z.mod_pow2_bits_low. lia. Qed.

Lemma testbit_u8_high v k : 8 <= k -> Z.testbit (u8 v) k = false.
Proof. intros. unfold u8. apply Z.mod_pow2_bits_high. lia. Qed.

Lemma testbit_mask j k : 0 <= j -> Z.testbit (Z.shiftl 1 j) k = (j =? k).
Proof. intros. rewrite Z.shiftl_1_l. apply Z.pow2_bits_eqb. lia. Qed.

Lemma testbit_nmask j k :
  0 <= j < 8 -> 0 <= k < 8 ->
  Z.testbit (u32 (Z.lnot (Z.shiftl 1 j))) k = negb (j =? k).
Proof.
  intros. unfold u32. rewrite Z.mod_pow2_bits_low by lia.
  rewrite Z.lnot_spec by lia. rewrite testbit_mask by lia. reflexivity.
Qed.

Lemma testbit_255 k : 0 <= k < 8 -> Z.testbit 255 k = true.
Proof.
  intros. change 255 with (Z.ones 8). apply Z.ones_spec_low. lia.
Qed.

(** The truth value of [input_byte & (1 << pixel)] is bit [pixel]. *)
Lemma input_pixel_bit input_byte pixel :
  0 <= pixel < 8 ->
  negb (u8 (Z.land input_byte (Z.shiftl 1 pixel)) =? 0) = Z.testbit input_byte pixel.
Proof.
  intros Hp.
  destruct (Z.testbit input_byte pixel) eqn:Hb.
  - apply negb_true_iff, Z.eqb_neq. intros E.
    assert (Hc : Z.testbit (u8 (Z.land input_byte (Z.shiftl 1 pixel))) pixel = true).
    { rewrite testbit_u8 by lia. rewrite Z.land_spec, Hb, testbit_mask by lia.
      rewrite Z.eqb_refl. reflexivity. }
    rewrite E in Hc. rewrite Z.bits_0 in Hc. discriminate.
  - apply negb_false_iff, Z.eqb_eq. apply Z.bits_inj'. intros k Hk.
    rewrite Z.bits_0.
    destruct (Z.lt_ge_cases k 8).
    + rewrite testbit_u8 by lia. rewrite Z.land_spec, testbit_mask by lia.
      destruct (Z.eqb_spec pixel k); subst; rewrite ?Hb; auto using andb_false_r.
    + apply testbit_u8_high. lia.
Qed.

(** ** Framebuffer addressing *)

Section Addressing.

Variables W H : Z.
Hypothesis Hgeo : geometry_ok W H.

Lemma buffer_size_pages : buffer_size W H = W * (H / 8).
Proof.
  destruct Hgeo as (HW & HH & Hm & _). unfold buffer_size.
  pose proof (Z.div_mod H 8 ltac:(lia)) as E. rewrite Hm in E.
  replace (W * H) with ((W * (H / 8)) * 8) by lia.
  apply Z.div_mul. lia.
Qed.

Lemma pixel_addr_bound x y :
  0 <= x < W -> 0 <= y < H -> 0 <= pixel_addr W x y < buffer_size W H.
Proof.
  intros Hx Hy. rewrite buffer_size_pages. unfold pixel_addr.
  destruct Hgeo as (HW & HH & Hm & _).
  pose proof (Z.div_mod H 8 ltac:(lia)) as E. rewrite Hm in E.
  assert (0 <= y / 8) by (apply Z.div_pos; lia).
  assert (y / 8 < H / 8) by (apply Z.div_lt_upper_bound; lia).
  nia.
Qed.

Lemma pixel_addr_u32 x y :
  0 <= x < W -> 0 <= y < H -> u32 (x + W * (y / 8)) = pixel_addr W x y.
Proof.
  intros Hx Hy. pose proof (pixel_addr_bound x y Hx Hy) as Hb.
  destruct Hgeo as (_ & _ & _ & Hs). apply u32_id. unfold pixel_addr in *. lia.
Qed.

(** Distinct pixels never share a bit of the framebuffer. *)
Lemma pixel_addr_inj x y x' y' :
  0 <= x < W -> 0 <= y < H -> 0 <= x' < W -> 0 <= y' < H ->
  pixel_addr W x y = pixel_addr W x' y' -> Z.land y 7 = Z.land y' 7 ->
  x = x' /\ y = y'.
Proof.
  intros Hx Hy Hx' Hy' Ea Eb. rewrite !land7_mod8 in Eb. unfold pixel_addr in Ea.
  assert (0 <= y / 8) by (apply Z.div_pos; lia).
  assert (0 <= y' / 8) by (apply Z.div_pos; lia).
  assert (Hq : y / 8 = y' / 8) by nia.
  split; [nia|].
  pose proof (Z.div_mod y 8 ltac:(lia)). pose proof (Z.div_mod y' 8 ltac:(lia)). lia.
Qed.

Lemma buf_set_wf a v st : fb_wf W H st -> fb_wf W H (buf_set a v st).
Proof. unfold fb_wf, buf_set. simpl. rewrite length_insert. auto. Qed.

Lemma buf_get_set_eq a v st :
  fb_wf W H st -> 0 <= a < buffer_size W H -> buf_get (buf_set a v st) a = u8 v.
Proof.
  unfold fb_wf, buf_get, buf_set. simpl. intros Hwf Ha.
  rewrite list_lookup_insert_eq by lia. reflexivity.
Qed.

Lemma buf_get_set_ne a a' v st :
  0 <= a -> 0 <= a' -> a <> a' -> buf_get (buf_set a v st) a' = buf_get st a'.
Proof.
  unfold buf_get, buf_set. simpl. intros Ha Ha' Hne.
  rewrite list_lookup_insert_ne by lia. reflexivity.
Qed.

(** A store into the strip byte of [(qx, qy)] that changes at most bit
    [qy & 7] changes pixel [(qx, qy)] and no other. *)
Lemma pixel_at_store qx qy v nb st px py :
  fb_wf W H st ->
  0 <= qx < W -> 0 <= qy < H -> 0 <= px < W -> 0 <= py < H ->
  Z.testbit v (Z.land qy 7) = nb ->
  (forall k, 0 <= k < 8 -> k <> Z.land qy 7 ->
     Z.testbit v k = Z.testbit (buf_get st (pixel_addr W qx qy)) k) ->
  pixel_at W (buf_set (pixel_addr W qx qy) v st) px py =
  if decide (px = qx /\ py = qy) then nb else pixel_at W st px py.
Proof.
  intros Hwf Hqx Hqy Hpx Hpy Hnb Hoth. unfold pixel_at.
  pose proof (pixel_addr_bound qx qy Hqx Hqy) as Bq.
  pose proof (pixel_addr_bound px py Hpx Hpy) as Bp.
  pose proof (land7_range qy). pose proof (land7_range py).
  destruct (decide (px = qx /\ py = qy)) as [[-> ->]|Hne].
  - rewrite buf_get_set_eq by auto. rewrite testbit_u8 by lia. exact Hnb.
  - destruct (Z.eq_dec (pixel_addr W px py) (pixel_addr W qx qy)) as [Ea|Ea].
    + rewrite Ea. rewrite buf_get_set_eq by auto. rewrite testbit_u8 by lia.
      apply Hoth; [lia|]. intros Eb. apply Hne.
      apply pixel_addr_inj; auto.
    + rewrite buf_get_set_ne by lia. reflexivity.
Qed.

End Addressing.

(** ** Pixel accessors *)

Section Pixels.

Variables W H : Z.
Hypothesis Hgeo : geometry_ok W H.

Local Abbreviation drawPixel := (ssd1306_drawPixel W H).
Local Abbreviation xorPixel := (ssd1306_xorPixel W H).

Lemma drawPixel_clip x y c st : W <= x \/ H <= y -> drawPixel x y c st = st.
Proof.
  intros Hc. unfold ssd1306_drawPixel.
  destruct (Z.geb_spec x W); [reflexivity|].
  destruct (Z.geb_spec y H); [reflexivity|]. lia.
Qed.

Lemma xorPixel_clip x y st : W <= x \/ H <= y -> xorPixel x y st = st.
Proof.
  intros Hc. unfold ssd1306_xorPixel.
  destruct (Z.geb_spec x W); [reflexivity|].
  destruct (Z.geb_spec y H); [reflexivity|]. lia.
Qed.

Lemma drawPixel_in x y c st :
  0 <= x < W -> 0 <= y < H ->
  drawPixel x y c st =
  buf_set (pixel_addr W x y)
    (if negb (c =? 0)
     then Z.lor (buf_get st (pixel_addr W x y)) (Z.shiftl 1 (Z.land y 7))
     else Z.land (buf_get st (pixel_addr W x y)) (Z.lnot (Z.shiftl 1 (Z.land y 7))))
    st.
Proof.
  intros Hx Hy. unfold ssd1306_drawPixel.
  destruct (Z.geb_spec x W); [lia|]. destruct (Z.geb_spec y H); [lia|].
  cbv zeta. rewrite (pixel_addr_u32 W H Hgeo) by lia.
  destruct (negb (c =? 0)); reflexivity.
Qed.

Lemma xorPixel_in x y st :
  0 <= x < W -> 0 <= y < H ->
  xorPixel x y st =
  buf_set (pixel_addr W x y)
    (Z.lxor (buf_get st (pixel_addr W x y)) (Z.shiftl 1 (Z.land y 7))) st.
Proof.
  intros Hx Hy. unfold ssd1306_xorPixel.
  destruct (Z.geb_spec x W); [lia|]. destruct (Z.geb_spec y H); [lia|].
  cbv zeta. rewrite (pixel_addr_u32 W H Hgeo) by lia. reflexivity.
Qed.

(** Bits of the byte [ssd1306_drawPixel] stores. *)
Lemma drawPixel_byte_bits b c j k :
  0 <= j < 8 -> 0 <= k ->
  Z.testbit (if negb (c =? 0) then Z.lor b (Z.shiftl 1 j)
             else Z.land b (Z.lnot (Z.shiftl 1 j))) k =
  if j =? k then negb (c =? 0) else Z.testbit b k.
Proof.
  intros Hj Hk. destruct (negb (c =? 0)).
  - rewrite Z.lor_spec, testbit_mask by lia.
    destruct (j =? k); [apply orb_true_r | apply orb_false_r].
  - rewrite Z.land_spec, Z.lnot_spec, testbit_mask by lia.
    destruct (j =? k); [apply andb_false_r | apply andb_true_r].
Qed.

Lemma xorPixel_byte_bits b j k :
  0 <= j < 8 -> 0 <= k ->
  Z.testbit (Z.lxor b (Z.shiftl 1 j)) k =
  if j =? k then negb (Z.testbit b k) else Z.testbit b k.
Proof.
  intros Hj Hk. rewrite Z.lxor_spec, testbit_mask by lia.
  destruct (j =? k); [apply xorb_true_r | apply xorb_false_r].
Qed.

Lemma drawPixel_wf x y c st :
  0 <= x -> 0 <= y -> fb_wf W H st -> fb_wf W H (drawPixel x y c st).
Proof.
  intros Hx Hy Hwf.
  destruct (Z.lt_ge_cases x W); [|rewrite drawPixel_clip by lia; auto].
  destruct (Z.lt_ge_cases y H); [|rewrite drawPixel_clip by lia; auto].
  rewrite drawPixel_in by lia. apply buf_set_wf. auto.
Qed.

Lemma xorPixel_wf x y st :
  0 <= x -> 0 <= y -> fb_wf W H st -> fb_wf W H (xorPixel x y st).
Proof.
  intros Hx Hy Hwf.
  destruct (Z.lt_ge_cases x W); [|rewrite xorPixel_clip by lia; auto].
  destruct (Z.lt_ge_cases y H); [|rewrite xorPixel_clip by lia; auto].
  rewrite xorPixel_in by lia. apply buf_set_wf. auto.
Qed.

(** Pixel view of [ssd1306_drawPixel]. *)
Lemma drawPixel_pixel_at qx qy c st px py :
  fb_wf W H st ->
  0 <= qx < W -> 0 <= qy < H -> 0 <= px < W -> 0 <= py < H ->
  pixel_at W (drawPixel qx qy c st) px py =
  if decide (px = qx /\ py = qy) then negb (c =? 0) else pixel_at W st px py.
Proof.
  intros Hwf Hqx Hqy Hpx Hpy. rewrite drawPixel_in by lia.
  pose proof (land7_range qy).
  apply (pixel_at_store W H Hgeo); auto.
  - rewrite drawPixel_byte_bits by lia. rewrite Z.eqb_refl. reflexivity.
  - intros k Hk Hne. rewrite drawPixel_byte_bits by lia.
    destruct (Z.eqb_spec (Z.land qy 7) k); [congruence | reflexivity].
Qed.

End Pixels.

(** C4. For [x < W] and [y < H], [ssd1306_drawPixel x y c] makes bit
    [y & 7] of framebuffer byte [x + W * (y / 8)] equal to the colour (set
    for a nonzero [c], cleared for [c = 0]) and changes no other bit of any
    byte; [ssd1306_xorPixel x y] flips exactly that bit and no other.  For
    [x >= W] or [y >= H] both leave the whole state as it was. *)
Theorem pixel_accessors_spec (W H : Z) (st : fb_state) (x y c : Z) :
  geometry_ok W H -> fb_wf W H st -> 0 <= x -> 0 <= y ->
  (x < W -> y < H ->
   (forall a k, 0 <= a -> 0 <= k < 8 ->
      Z.testbit (buf_get (ssd1306_drawPixel W H x y c st) a) k =
      if decide (a = x + W * (y / 8) /\ k = Z.land y 7)
      then negb (c =? 0) else Z.testbit (buf_get st a) k) /\
   (forall a k, 0 <= a -> 0 <= k < 8 ->
      Z.testbit (buf_get (ssd1306_xorPixel W H x y st) a) k =
      if decide (a = x + W * (y / 8) /\ k = Z.land y 7)
      then negb (Z.testbit (buf_get st a) k) else Z.testbit (buf_get st a) k)) /\
  (W <= x \/ H <= y ->
   ssd1306_drawPixel W H x y c st = st /\ ssd1306_xorPixel W H x y st = st).
Proof.
  intros Hgeo Hwf Hx Hy. split.
  - intros HxW HyH.
    pose proof (pixel_addr_bound W H Hgeo x y ltac:(lia) ltac:(lia)) as Hb.
    pose proof (land7_range y) as Hj.
    fold (pixel_addr W x y).
    split; intros a k Ha Hk.
    + rewrite (drawPixel_in W H Hgeo) by lia.
      destruct (Z.eq_dec a (pixel_addr W x y)) as [->|Hne].
      * rewrite (buf_get_set_eq W H) by auto. rewrite testbit_u8 by lia.
        rewrite drawPixel_byte_bits by lia.
        destruct (Z.eqb_spec (Z.land y 7) k); case_decide; auto; lia.
      * rewrite buf_get_set_ne by lia. case_decide; auto; lia.
    + rewrite (xorPixel_in W H Hgeo) by lia.
      destruct (Z.eq_dec a (pixel_addr W x y)) as [->|Hne].
      * rewrite (buf_get_set_eq W H) by auto. rewrite testbit_u8 by lia.
        rewrite xorPixel_byte_bits by lia.
        destruct (Z.eqb_spec (Z.land y 7) k); case_decide; auto; lia.
      * rewrite buf_get_set_ne by lia. case_decide; auto; lia.
  - intros Hc. split; [apply drawPixel_clip | apply xorPixel_clip]; auto.
Qed.

(** ** Store log *)

Lemma stores_ext_refl P st : stores_ext P st st.
Proof. exists []. split; [reflexivity | constructor]. Qed.

Lemma stores_ext_trans P st1 st2 st3 :
  stores_ext P st1 st2 -> stores_ext P st2 st3 -> stores_ext P st1 st3.
Proof.
  intros (n1 & E1 & F1) (n2 & E2 & F2). exists (n2 ++ n1). split.
  - rewrite E2, E1. apply app_assoc.
  - apply Forall_app. auto.
Qed.

Lemma stores_ext_buf_set (P : Z -> Prop) a v st :
  P a -> stores_ext P st (buf_set a v st).
Proof.
  intros Ha. exists [a]. split; [reflexivity|]. constructor; [exact Ha | constructor].
Qed.

Lemma stores_ext_weaken (P Q : Z -> Prop) st st' :
  (forall a, P a -> Q a) -> stores_ext P st st' -> stores_ext Q st st'.
Proof.
  intros HPQ (n & E & F). exists n. split; [exact E|].
  eapply Forall_impl; eauto.
Qed.

Lemma logged_buf_set a v st : logged a st (buf_set a v st).
Proof. exists [], []. reflexivity. Qed.

Lemma logged_then P a st st1 st2 :
  logged a st st1 -> stores_ext P st1 st2 -> logged a st st2.
Proof.
  intros (n1 & n2 & E) (m & E' & _). exists (m ++ n1), n2.
  rewrite E', E. apply app_assoc.
Qed.

Lemma logged_after P a st st1 st2 :
  stores_ext P st st1 -> logged a st1 st2 -> logged a st st2.
Proof.
  intros (m & E' & _) (n1 & n2 & E). exists n1, (n2 ++ m).
  rewrite E, E'. rewrite <- app_assoc. reflexivity.
Qed.

(** A logged store is among the new stores. *)
Lemma logged_in_new a st st' new :
  stored st' = new ++ stored st -> logged a st st' -> In a new.
Proof.
  intros E (n1 & n2 & E'). rewrite E' in E.
  replace (n1 ++ a :: n2 ++ stored st) with ((n1 ++ a :: n2) ++ stored st) in E
    by (rewrite <- app_assoc; reflexivity).
  apply app_inv_tail in E. subst new. apply in_or_app. right. left. reflexivity.
Qed.

(** ** Image compositor *)

Section Image.

Variables W H : Z.
Hypothesis Hgeo : geometry_ok W H.

Lemma image_store_other mode v_mask ipx a st :
  ~ (0 <= mode <= 5) -> image_store mode v_mask ipx a st = st.
Proof.
  intros Hm. unfold image_store.
  destruct mode as [|[[p|[p|p|]|]|[p|[p|p|]|]|]|p]; try reflexivity; exfalso; lia.
Qed.

Lemma image_store_wf mode v_mask ipx a st :
  fb_wf W H st -> fb_wf W H (image_store mode v_mask ipx a st).
Proof.
  intros Hwf. unfold image_store.
  destruct mode as [|[[p|[p|p|]|]|[p|[p|p|]|]|]|p]; auto using buf_set_wf.
Qed.

Lemma image_store_stores (P : Z -> Prop) mode v_mask ipx a st :
  P a -> stores_ext P st (image_store mode v_mask ipx a st).
Proof.
  intros Ha. unfold image_store.
  destruct mode as [|[[p|[p|p|]|]|[p|[p|p|]|]|]|p];
    auto using stores_ext_buf_set, stores_ext_refl.
Qed.

(** For a mode of the table the store does happen. *)
Lemma image_store_logged mode v_mask ipx a st :
  0 <= mode <= 5 ->
  stored (image_store mode v_mask ipx a st) = a :: stored st.
Proof.
  intros Hm. unfold image_store.
  destruct mode as [|[[p|[p|p|]|]|[p|[p|p|]|]|]|p]; try reflexivity; exfalso; lia.
Qed.

Ltac image_bits :=
  rewrite ?Z.lor_spec, ?Z.land_spec;
  repeat match goal with
  | |- context [if ?c then _ else _] => destruct c
  end;
  rewrite ?testbit_nmask, ?testbit_mask, ?testbit_255, ?Z.bits_0 by lia;
  repeat match goal with
  | |- context [?a =? ?b] => destruct (Z.eqb_spec a b); try lia
  end;
  simpl; rewrite ?andb_true_r, ?andb_false_r, ?orb_true_r, ?orb_false_r;
  try reflexivity.

(** Pixel view of one [switch] of [ssd1306_drawImage]. *)
Lemma image_store_pixel_at mode ipx qx qy st px py :
  fb_wf W H st ->
  0 <= qx < W -> 0 <= qy < H -> 0 <= px < W -> 0 <= py < H ->
  pixel_at W
    (image_store mode (Z.shiftl 1 (Z.land qy 7)) ipx (pixel_addr W qx qy) st)
    px py =
  if decide (px = qx /\ py = qy)
  then mode_bit mode (negb (ipx =? 0)) (pixel_at W st qx qy)
  else pixel_at W st px py.
Proof.
  intros Hwf Hqx Hqy Hpx Hpy.
  pose proof (land7_range qy) as Hj.
  destruct (decide (0 <= mode <= 5)) as [Hm|Hm].
  - assert (Hc : mode = 0 \/ mode = 1 \/ mode = 2 \/ mode = 3 \/ mode = 4 \/ mode = 5)
      by lia.
    unfold pixel_at at 2.
    destruct Hc as [->|[->|[->|[->|[->| ->]]]]]; unfold image_store, mode_bit;
      apply (pixel_at_store W H Hgeo); auto;
      try (intros k Hk Hne); image_bits.
  - rewrite image_store_other by auto.
    case_decide as Hd; [|reflexivity].
    destruct Hd as [-> ->].
    unfold mode_bit. destruct mode as [|[[p|[p|p|]|]|[p|[p|p|]|]|]|p]; try reflexivity; lia.
Qed.

End Image.

(** ** Composition of blits *)

Section Blits.

Variables W H mode : Z.

Lemma blitted_none st : blitted W H mode (fun _ _ _ => False) st st.
Proof.
  intros px py Hx Hy. split; [intros s []|reflexivity].
Qed.

Lemma blitted_ext (hit hit' : Z -> Z -> bool -> Prop) st st' :
  (forall px py s, hit px py s <-> hit' px py s) ->
  blitted W H mode hit st st' -> blitted W H mode hit' st st'.
Proof.
  intros Heq Hb px py Hx Hy. destruct (Hb px py Hx Hy) as [B1 B2]. split.
  - intros s Hs. apply B1, Heq, Hs.
  - intros Hn. apply B2. intros s Hs. apply (Hn s), Heq, Hs.
Qed.

(** Two blits that write disjoint pixels compose into one. *)
Lemma blitted_seq (hit1 hit2 : Z -> Z -> bool -> Prop) st st1 st2 :
  (forall px py s1 s2, hit1 px py s1 -> hit2 px py s2 -> False) ->
  blitted W H mode hit1 st st1 -> blitted W H mode hit2 st1 st2 ->
  blitted W H mode (fun px py s => hit1 px py s \/ hit2 px py s) st st2.
Proof.
  intros Hdis B1 B2 px py Hx Hy.
  destruct (B1 px py Hx Hy) as [B1h B1n]. destruct (B2 px py Hx Hy) as [B2h B2n].
  split.
  - intros s [Hs|Hs].
    + rewrite B2n; [apply B1h, Hs|]. intros s2 H2. exact (Hdis _ _ _ _ Hs H2).
    + rewrite (B2h s Hs). f_equal. apply B1n. intros s1 H1. exact (Hdis _ _ _ _ H1 Hs).
  - intros Hn. rewrite B2n, B1n; auto; intros s Hs; apply (Hn s); auto.
Qed.

End Blits.

(** ** The loops of [ssd1306_drawImage] *)

Section ImageLoops.

Variables W H : Z.
Hypothesis Hgeo : geometry_ok W H.
Variables (x mode btd : Z) (input : Z -> Z).
Hypothesis Hbtd : 0 <= btd /\ 8 * btd + 8 <= 2^32.

Lemma x_abs_inj byte p byte' p' :
  0 <= byte < btd -> 0 <= p < 8 -> 0 <= byte' < btd -> 0 <= p' < 8 ->
  x_abs x btd byte p = x_abs x btd byte' p' -> byte = byte' /\ p = p'.
Proof.
  intros Hb Hp Hb' Hp' E. unfold x_abs in E.
  rewrite <- !Z.add_assoc in E. apply u32_add_inj in E; lia.
Qed.

Lemma image_pixels_S n pixel ya byte ib vm st :
  image_pixels W (S n) pixel x ya btd byte ib vm mode st =
  if x_abs x btd byte pixel >=? W then st
  else image_pixels W n (pixel + 1) x ya btd byte ib vm mode
         (image_store mode vm (u8 (Z.land ib (Z.shiftl 1 pixel)))
            (u32 (x_abs x btd byte pixel + W * (ya / 8))) st).
Proof. reflexivity. Qed.

Lemma image_store_blit ipx qx qy st :
  fb_wf W H st -> 0 <= qx < W -> 0 <= qy < H ->
  blitted W H mode (fun px py s => px = qx /\ py = qy /\ s = negb (ipx =? 0)) st
    (image_store mode (Z.shiftl 1 (Z.land qy 7)) ipx (pixel_addr W qx qy) st).
Proof.
  intros Hwf Hqx Hqy px py Hpx Hpy.
  rewrite (image_store_pixel_at W H Hgeo) by auto. split.
  - intros s (-> & -> & ->). rewrite decide_True by auto. reflexivity.
  - intros Hn. case_decide as Hd; [|reflexivity].
    destruct Hd as [-> ->]. exfalso. eapply Hn; eauto.
Qed.

Lemma image_pixels_wf n : forall pixel ya byte ib vm st,
  fb_wf W H st -> fb_wf W H (image_pixels W n pixel x ya btd byte ib vm mode st).
Proof.
  induction n as [|n IH]; simpl; intros; auto.
  destruct (_ >=? _); auto. apply IH. apply image_store_wf. auto.
Qed.

Lemma image_pixels_blit n : forall pixel ya byte ib st,
  fb_wf W H st -> 0 <= pixel -> pixel + Z.of_nat n = 8 ->
  0 <= ya < H -> 0 <= byte < btd ->
  blitted W H mode (pixels_hit W x ya btd byte ib pixel) st
    (image_pixels W n pixel x ya btd byte ib (Z.shiftl 1 (Z.land ya 7)) mode st).
Proof.
  induction n as [|n IH]; intros pixel ya byte ib st Hwf Hp Hn Hya Hb.
  - simpl. eapply blitted_ext; [|apply blitted_none].
    intros px py s. split; [intros []|]. intros (p & Hp' & _). lia.
  - cbn [image_pixels]. cbv zeta.
    change (u32 (x + 8 * (btd - byte) + pixel)) with (x_abs x btd byte pixel).
    pose proof (u32_range (x + 8 * (btd - byte) + pixel)) as Hr.
    change (u32 (x + 8 * (btd - byte) + pixel)) with (x_abs x btd byte pixel) in Hr.
    destruct (Z.geb_spec (x_abs x btd byte pixel) W) as [Hge|Hlt].
    + eapply blitted_ext; [|apply blitted_none].
      intros px py s. split; [intros []|].
      intros (p & Hp' & Hreach & _). specialize (Hreach pixel ltac:(lia)). lia.
    + rewrite (pixel_addr_u32 W H Hgeo) by lia.
      eapply blitted_ext;
        [|eapply blitted_seq;
          [|apply (image_store_blit
                     (u8 (Z.land ib (Z.shiftl 1 pixel)))
                     (x_abs x btd byte pixel) ya st); auto; lia
           |apply (IH (pixel + 1)); auto using image_store_wf; lia]].
      * intros px py s. rewrite input_pixel_bit by lia. split.
        -- intros [(-> & -> & ->)|(p & Hp' & Hreach & -> & -> & ->)].
           ++ exists pixel. repeat split; auto; try lia.
              intros p' Hp''. replace p' with pixel by lia. lia.
           ++ exists p. repeat split; auto; try lia.
              intros p' Hp''. destruct (Z.eq_dec p' pixel) as [->|]; [lia|].
              apply Hreach. lia.
        -- intros (p & Hp' & Hreach & -> & -> & ->).
           destruct (Z.eq_dec p pixel) as [->|Hne]; [left; auto|].
           right. exists p. repeat split; auto; try lia.
           intros p' Hp''. apply Hreach. lia.
      * intros px py s1 s2 (-> & -> & _) (p & Hp' & _ & E & _).
        apply x_abs_inj in E; lia.
Qed.

Lemma image_bytes_wf n : forall byte ya line vm st,
  fb_wf W H st ->
  fb_wf W H (image_bytes W n byte input x ya btd line vm mode st).
Proof.
  induction n as [|n IH]; cbn [image_bytes]; intros; auto.
  apply IH. apply image_pixels_wf. auto.
Qed.

Lemma image_bytes_blit n : forall byte ya line st,
  fb_wf W H st -> 0 <= byte -> byte + Z.of_nat n = btd -> 0 <= ya < H ->
  blitted W H mode (bytes_hit W x ya btd input line byte) st
    (image_bytes W n byte input x ya btd line (Z.shiftl 1 (Z.land ya 7)) mode st).
Proof.
  induction n as [|n IH]; intros byte ya line st Hwf Hb Hn Hya.
  - simpl. eapply blitted_ext; [|apply blitted_none].
    intros px py s. split; [intros []|]. intros (b & Hb' & _). lia.
  - cbn [image_bytes]. cbv zeta.
    eapply blitted_ext;
      [|eapply blitted_seq;
        [|apply (image_pixels_blit 8 0 ya byte
                   (u8 (input (u32 (byte + line * btd)))) st); auto; lia
         |apply (IH (byte + 1)); auto using image_pixels_wf; lia]].
    + intros px py s. split.
      * intros [Hh|(b & Hb' & Hh)].
        -- exists byte. split; [lia | exact Hh].
        -- exists b. split; [lia | exact Hh].
      * intros (b & Hb' & Hh).
        destruct (Z.eq_dec b byte) as [->|Hne]; [left; exact Hh|].
        right. exists b. split; [lia | exact Hh].
    + intros px py s1 s2 (p & Hp & _ & E & _) (b & Hb' & p' & Hp' & _ & E' & _).
      rewrite E in E'. apply x_abs_inj in E'; lia.
Qed.

Lemma bytes_hit_row ya line byte0 px py s :
  bytes_hit W x ya btd input line byte0 px py s -> py = ya.
Proof. intros (b & _ & p & _ & _ & _ & E & _). exact E. Qed.

Lemma image_lines_wf n : forall line y st,
  fb_wf W H st -> fb_wf W H (image_lines W H n line input x y btd mode st).
Proof.
  induction n as [|n IH]; cbn [image_lines]; intros; auto.
  destruct (_ >=? _); auto. apply IH. apply image_bytes_wf. auto.
Qed.

Lemma image_lines_blit y height n : forall line st,
  height <= 2^32 ->
  fb_wf W H st -> 0 <= line -> line + Z.of_nat n = height ->
  blitted W H mode (lines_hit W H x y btd height input line) st
    (image_lines W H n line input x y btd mode st).
Proof.
  induction n as [|n IH]; intros line st Hh Hwf Hl Hn.
  - simpl. eapply blitted_ext; [|apply blitted_none].
    intros px py s. split; [intros []|]. intros (l & Hl' & _). lia.
  - cbn [image_lines]. cbv zeta.
    pose proof (u32_range (y + line)) as Hr.
    destruct (Z.geb_spec (u32 (y + line)) H) as [Hge|Hlt].
    + eapply blitted_ext; [|apply blitted_none].
      intros px py s. split; [intros []|].
      intros (l & Hl' & Hreach & _). specialize (Hreach line ltac:(lia)). lia.
    + eapply blitted_ext;
        [|eapply blitted_seq;
          [|apply (image_bytes_blit (Z.to_nat btd) 0 (u32 (y + line)) line st);
            auto; lia
           |apply (IH (line + 1)); auto using image_bytes_wf; lia]].
      * intros px py s. split.
        -- intros [Hb|(l & Hl' & Hreach & Hb)].
           ++ exists line. split; [lia|]. split; [|exact Hb].
              intros l Hl'. replace l with line by lia. lia.
           ++ exists l. split; [lia|]. split; [|exact Hb].
              intros l' Hl''. destruct (Z.eq_dec l' line) as [->|]; [lia|].
              apply Hreach. lia.
        -- intros (l & Hl' & Hreach & Hb).
           destruct (Z.eq_dec l line) as [->|Hne]; [left; exact Hb|].
           right. exists l. split; [lia|]. split; [|exact Hb].
           intros l' Hl''. apply Hreach. lia.
      * intros px py s1 s2 Hb (l & Hl' & _ & Hb').
        apply bytes_hit_row in Hb. apply bytes_hit_row in Hb'.
        rewrite Hb in Hb'. apply u32_add_inj in Hb'; lia.
Qed.

(** *** Where the loops store *)

Lemma image_pixels_stores (P : Z -> Prop) n : forall pixel ya byte ib vm st,
  0 <= pixel -> pixel + Z.of_nat n <= 8 ->
  (forall p, pixel <= p < 8 -> x_abs x btd byte p < W ->
     P (u32 (x_abs x btd byte p + W * (ya / 8)))) ->
  stores_ext P st (image_pixels W n pixel x ya btd byte ib vm mode st).
Proof.
  induction n as [|n IH]; intros pixel ya byte ib vm st Hp Hn HP.
  - apply stores_ext_refl.
  - cbn [image_pixels]. cbv zeta.
    change (u32 (x + 8 * (btd - byte) + pixel)) with (x_abs x btd byte pixel).
    destruct (Z.geb_spec (x_abs x btd byte pixel) W) as [Hge|Hlt].
    + apply stores_ext_refl.
    + eapply stores_ext_trans.
      2: { apply IH; try lia. intros p Hp'. apply (HP p). lia. }
      apply image_store_stores. apply (HP pixel); lia.
Qed.

Lemma image_bytes_stores (P : Z -> Prop) n : forall byte ya line vm st,
  0 <= byte -> byte + Z.of_nat n <= btd ->
  (forall b p, byte <= b < btd -> 0 <= p < 8 -> x_abs x btd b p < W ->
     P (u32 (x_abs x btd b p + W * (ya / 8)))) ->
  stores_ext P st (image_bytes W n byte input x ya btd line vm mode st).
Proof.
  induction n as [|n IH]; intros byte ya line vm st Hb Hn HP.
  - apply stores_ext_refl.
  - cbn [image_bytes]. cbv zeta. eapply stores_ext_trans.
    2: { apply IH; try lia. intros b p Hb'. apply (HP b p). lia. }
    apply image_pixels_stores; [lia | simpl; lia |].
    intros p Hp. apply (HP byte p); lia.
Qed.

Lemma image_lines_stores (P : Z -> Prop) y height n : forall line st,
  0 <= line -> line + Z.of_nat n <= height ->
  (forall l b p, line <= l < height -> u32 (y + l) < H ->
     0 <= b < btd -> 0 <= p < 8 -> x_abs x btd b p < W ->
     P (u32 (x_abs x btd b p + W * (u32 (y + l) / 8)))) ->
  stores_ext P st (image_lines W H n line input x y btd mode st).
Proof.
  induction n as [|n IH]; intros line st Hl Hn HP.
  - apply stores_ext_refl.
  - cbn [image_lines]. cbv zeta.
    destruct (Z.geb_spec (u32 (y + line)) H) as [Hge|Hlt].
    + apply stores_ext_refl.
    + eapply stores_ext_trans.
      2: { apply IH; try lia. intros l b p Hl'. apply (HP l b p). lia. }
      apply image_bytes_stores; [lia | lia |].
      intros b p Hb Hp. apply (HP line b p); lia.
Qed.

(** With a mode of the table, the first pixel of every byte-group that
    starts on the display is stored. *)
Lemma image_bytes_logged n : forall byte ya line vm st b,
  0 <= mode <= 5 ->
  0 <= byte -> byte + Z.of_nat n <= btd -> byte <= b < byte + Z.of_nat n ->
  x_abs x btd b 0 < W ->
  logged (u32 (x_abs x btd b 0 + W * (ya / 8))) st
    (image_bytes W n byte input x ya btd line vm mode st).
Proof.
  induction n as [|n IH]; intros byte ya line vm st b Hm Hb Hn Hb' Hx; [lia|].
  cbn [image_bytes]. cbv zeta.
  destruct (Z.eq_dec b byte) as [->|Hne].
  - eapply (logged_then (fun _ => True)).
    2: { apply image_bytes_stores; auto; lia. }
    rewrite image_pixels_S.
    destruct (Z.geb_spec (x_abs x btd byte 0) W) as [Hge|Hlt]; [lia|].
    eapply (logged_then (fun _ => True)).
    2: { apply image_pixels_stores; auto; simpl; lia. }
    exists [], []. rewrite image_store_logged by lia. reflexivity.
  - eapply (logged_after (fun _ => True)).
    2: { apply IH; auto; lia. }
    apply image_pixels_stores; auto; simpl; lia.
Qed.

End ImageLoops.

(** ** [ssd1306_drawImage] as a whole *)

Lemma bytes_to_draw_range width :
  0 <= width < 2^32 -> 0 <= width / 8 /\ 8 * (width / 8) + 8 <= 2^32.
Proof.
  intros Hw. pose proof (Z.div_mod width 8 ltac:(lia)) as E.
  pose proof (Z.mod_pos_bound width 8 ltac:(lia)). lia.
Qed.

Lemma drawImage_blit W H st x y input width height mode :
  geometry_ok W H -> fb_wf W H st ->
  0 <= width < 2^32 -> 0 <= height < 2^32 ->
  blitted W H mode (lines_hit W H x y (width / 8) height input 0) st
    (ssd1306_drawImage W H x y input width height mode st).
Proof.
  intros Hgeo Hwf Hw Hh. unfold ssd1306_drawImage.
  apply image_lines_blit; auto using bytes_to_draw_range; lia.
Qed.

Lemma lines_hit_intro W H x y btd height input line byte p :
  0 <= line < height -> (forall l, 0 <= l <= line -> u32 (y + l) < H) ->
  0 <= byte < btd -> 0 <= p < 8 ->
  (forall p', 0 <= p' <= p -> x_abs x btd byte p' < W) ->
  lines_hit W H x y btd height input 0 (x_abs x btd byte p) (u32 (y + line))
    (Z.testbit (u8 (input (u32 (byte + line * btd)))) p).
Proof.
  intros Hl Hrow Hb Hp Hgrp.
  exists line. split; [lia|]. split; [exact Hrow|].
  exists byte. split; [lia|].
  exists p. repeat split; auto; lia.
Qed.

(** C2. Every in-range destination pixel that [ssd1306_drawImage] touches
    ends up as the six-mode table says: mode 0 the source bit, mode 1 its
    inverse, mode 2 cleared where the source bit is 0 and unchanged where
    it is 1, mode 3 set where the source bit is 1, mode 4 set where it is
    0, mode 5 cleared where it is 1, and unchanged otherwise.  Pixels of a
    row the loop does not reach (a row at or after the first one whose
    absolute y reaches [H]) are not changed. *)
Theorem drawImage_mode_table (W H : Z) (st : fb_state) (x y : Z)
    (input : Z -> Z) (width height mode : Z) :
  geometry_ok W H -> fb_wf W H st ->
  0 <= width < 2^32 -> 0 <= height < 2^32 ->
  let st' := ssd1306_drawImage W H x y input width height mode st in
  forall px py, 0 <= px < W -> 0 <= py < H ->
    (forall line byte p,
       0 <= line < height -> (forall l, 0 <= l <= line -> u32 (y + l) < H) ->
       0 <= byte < width / 8 -> 0 <= p < 8 ->
       (forall p', 0 <= p' <= p -> x_abs x (width / 8) byte p' < W) ->
       px = x_abs x (width / 8) byte p -> py = u32 (y + line) ->
       let src := Z.testbit (u8 (input (u32 (byte + line * (width / 8))))) p in
       let old := pixel_at W st px py in
       let new := pixel_at W st' px py in
       (mode = 0 -> new = src) /\
       (mode = 1 -> new = negb src) /\
       (mode = 2 -> new = if src then old else false) /\
       (mode = 3 -> new = if src then true else old) /\
       (mode = 4 -> new = if src then old else true) /\
       (mode = 5 -> new = if src then false else old)) /\
    ((forall line, 0 <= line < height ->
        (forall l, 0 <= l <= line -> u32 (y + l) < H) -> py <> u32 (y + line)) ->
     pixel_at W st' px py = pixel_at W st px py).
Proof.
  intros Hgeo Hwf Hw Hh st' px py Hpx Hpy.
  destruct (drawImage_blit W H st x y input width height mode Hgeo Hwf Hw Hh
              px py Hpx Hpy) as [Bh Bn].
  fold st' in Bh, Bn. split.
  - intros line byte p Hl Hrow Hb Hp Hgrp -> -> src old new.
    assert (E : new = mode_bit mode src old).
    { apply Bh. apply lines_hit_intro; auto. }
    rewrite E. repeat split; intros ->; simpl; destruct src, old; reflexivity.
  - intros Hrows. apply Bn. intros s (line & Hl & Hrow & Hb).
    apply bytes_hit_row in Hb. apply (Hrows line); auto; lia.
Qed.

(** C3. In [ssd1306_drawImage], pixel [p] of source byte-group [byte] of a
    drawn row lands in column [x + 8 * (bytes_to_draw - byte) + p]: the
    column grows as the byte index falls, the rightmost byte-group of the
    row being drawn leftmost, at [x + 8 .. x + 15].  As soon as a pixel of
    a byte-group has a column at or beyond [W], the pixel loop of that
    byte-group stops: the rest of the group is dropped, and no pixel
    outside the reached ones is changed. *)
Theorem drawImage_column_order (W H : Z) (st : fb_state) (x y : Z)
    (input : Z -> Z) (width height mode : Z) :
  geometry_ok W H -> fb_wf W H st ->
  0 <= width < 2^32 -> 0 <= height < 2^32 ->
  let btd := width / 8 in
  let st' := ssd1306_drawImage W H x y input width height mode st in
  (forall line byte p,
     0 <= line < height -> (forall l, 0 <= l <= line -> u32 (y + l) < H) ->
     0 <= byte < btd -> 0 <= p < 8 ->
     (forall p', 0 <= p' <= p -> u32 (x + 8 * (btd - byte) + p') < W) ->
     pixel_at W st' (u32 (x + 8 * (btd - byte) + p)) (u32 (y + line)) =
     mode_bit mode (Z.testbit (u8 (input (u32 (byte + line * btd)))) p)
       (pixel_at W st (u32 (x + 8 * (btd - byte) + p)) (u32 (y + line)))) /\
  (forall byte byte' p p',
     0 <= x -> x + 8 * btd + 7 < 2^32 ->
     0 <= byte < byte' -> byte' < btd -> 0 <= p < 8 -> 0 <= p' < 8 ->
     x_abs x btd byte' p' < x_abs x btd byte p) /\
  (forall p, 0 <= x -> x + 15 < 2^32 -> 0 <= p < 8 ->
     x_abs x btd (btd - 1) p = x + 8 + p) /\
  (forall n pixel ya byte ib vm st0,
     W <= x_abs x btd byte pixel ->
     image_pixels W (S n) pixel x ya btd byte ib vm mode st0 = st0) /\
  (forall px py, 0 <= px < W -> 0 <= py < H ->
     (forall line byte p,
        0 <= line < height -> (forall l, 0 <= l <= line -> u32 (y + l) < H) ->
        0 <= byte < btd -> 0 <= p < 8 ->
        (forall p', 0 <= p' <= p -> x_abs x btd byte p' < W) ->
        ~ (px = x_abs x btd byte p /\ py = u32 (y + line))) ->
     pixel_at W st' px py = pixel_at W st px py).
Proof.
  intros Hgeo Hwf Hw Hh btd st'.
  pose proof (drawImage_blit W H st x y input width height mode Hgeo Hwf Hw Hh)
    as B.
  fold st' btd in B.
  pose proof (bytes_to_draw_range width Hw) as Hbtd. fold btd in Hbtd.
  split; [|split; [|split; [|split]]].
  - intros line byte p Hl Hrow Hb Hp Hgrp.
    change (u32 (x + 8 * (btd - byte) + p)) with (x_abs x btd byte p).
    pose proof (u32_range (x + 8 * (btd - byte) + p)) as Hr.
    change (u32 (x + 8 * (btd - byte) + p)) with (x_abs x btd byte p) in Hr.
    pose proof (u32_range (y + line)) as Hr'.
    assert (Hxa : x_abs x btd byte p < W) by (apply Hgrp; lia).
    assert (Hya : u32 (y + line) < H) by (apply Hrow; lia).
    destruct (B (x_abs x btd byte p) (u32 (y + line)) ltac:(lia) ltac:(lia))
      as [Bh _].
    apply Bh. apply lines_hit_intro; auto.
  - intros byte byte' p p' Hx Hnw Hb Hb' Hp Hp'. unfold x_abs.
    rewrite !u32_id by lia. lia.
  - intros p Hx Hnw Hp. unfold x_abs. rewrite u32_id by lia. lia.
  - intros n pixel ya byte ib vm st0 Hge.
    cbn [image_pixels]. cbv zeta.
    change (u32 (x + 8 * (btd - byte) + pixel)) with (x_abs x btd byte pixel).
    destruct (Z.geb_spec (x_abs x btd byte pixel) W); [reflexivity | lia].
  - intros px py Hpx Hpy Hno.
    destruct (B px py Hpx Hpy) as [_ Bn]. apply Bn.
    intros s (line & Hl & Hrow & byte & Hb & p & Hp & Hgrp & Ex & Ey & _).
    apply (Hno line byte p); auto; lia.
Qed.

Lemma addr_column_pixel_addr W xa ya :
  0 <= xa < W -> addr_column W (pixel_addr W xa ya) = xa.
Proof.
  intros Hx. unfold addr_column, pixel_addr.
  rewrite Z.mul_comm, Z_mod_plus_full. apply Z.mod_small. lia.
Qed.

(** C8, as amended. [ssd1306_drawImage] never stores into a framebuffer
    column of the range [x .. x + 7]: every store goes to a column
    [x + 8 * (bytes_to_draw - byte) + pixel] with [byte < bytes_to_draw],
    hence, when [x + width + 7] does not wrap, to column [x + 8] at least;
    and with [width >= 8], a first row on the display, [x + 8 < W] and a
    mode of the table, column [x + 8] is stored to. *)
Theorem drawImage_skips_first_columns (W H : Z) (st : fb_state) (x y : Z)
    (input : Z -> Z) (width height mode : Z) :
  geometry_ok W H ->
  0 <= width < 2^32 -> 0 <= height < 2^32 ->
  exists new,
    stored (ssd1306_drawImage W H x y input width height mode st)
    = new ++ stored st /\
    (forall a, In a new ->
       forall k, 0 <= k <= 7 -> addr_column W a <> u32 (x + k)) /\
    (0 <= x -> x + width + 7 < 2^32 ->
     forall a, In a new -> x + 8 <= addr_column W a) /\
    (8 <= width -> 1 <= height -> 0 <= y < H -> y < 2^32 ->
     0 <= x -> x + 8 < W -> 0 <= mode <= 5 ->
     exists a, In a new /\ addr_column W a = x + 8).
Proof.
  intros Hgeo Hw Hh.
  pose proof (bytes_to_draw_range width Hw) as Hbtd.
  set (btd := width / 8) in *.
  set (P := fun a => exists l b p, 0 <= b < btd /\ 0 <= p < 8 /\
              x_abs x btd b p < W /\ u32 (y + l) < H /\
              a = pixel_addr W (x_abs x btd b p) (u32 (y + l))).
  assert (HS : stores_ext P st
                 (ssd1306_drawImage W H x y input width height mode st)).
  { unfold ssd1306_drawImage. fold btd.
    apply image_lines_stores with (height := height); [exact Hbtd | lia | lia |].
    intros l b p Hl Hy Hb Hp Hx. exists l, b, p.
    repeat split; auto; try lia.
    apply (pixel_addr_u32 W H Hgeo).
    - pose proof (u32_range (x + 8 * (btd - b) + p)). unfold x_abs in *. lia.
    - pose proof (u32_range (y + l)). lia. }
  destruct HS as (new & E & F). exists new. split; [exact E|].
  rewrite List.Forall_forall in F.
  assert (Hcol : forall a, In a new -> exists b p, 0 <= b < btd /\ 0 <= p < 8 /\
                   addr_column W a = x_abs x btd b p).
  { intros a Ha. destruct (F a Ha) as (l & b & p & Hb & Hp & Hx & Hy & ->).
    exists b, p. repeat split; try lia. apply addr_column_pixel_addr.
    pose proof (u32_range (x + 8 * (btd - b) + p)). unfold x_abs in *. lia. }
  split; [|split].
  - intros a Ha k Hk Ec. destruct (Hcol a Ha) as (b & p & Hb & Hp & Ea).
    rewrite Ea in Ec. unfold x_abs in Ec. rewrite <- Z.add_assoc in Ec.
    apply u32_add_inj in Ec; lia.
  - intros Hx Hnw a Ha. destruct (Hcol a Ha) as (b & p & Hb & Hp & Ea).
    rewrite Ea. unfold x_abs.
    pose proof (Z.div_mod width 8 ltac:(lia)) as Ed. fold btd in Ed.
    pose proof (Z.mod_pos_bound width 8 ltac:(lia)).
    rewrite u32_id by lia. lia.
  - intros Hw8 Hh1 Hy Hy32 Hx Hx8 Hm.
    destruct Hgeo as (HW & HH & Hm8 & Hsz).
    assert (HW32 : W <= 2^32).
    { pose proof (buffer_size_pages W H (conj HW (conj HH (conj Hm8 Hsz)))) as Ep.
      pose proof (Z.div_mod H 8 ltac:(lia)) as Ed. rewrite Hm8 in Ed.
      rewrite Ep in Hsz. nia. }
    assert (Hb1 : 1 <= btd).
    { unfold btd. apply Z.div_le_lower_bound; lia. }
    assert (Exa : x_abs x btd (btd - 1) 0 = x + 8).
    { unfold x_abs. rewrite u32_id by lia. lia. }
    exists (pixel_addr W (x + 8) y). split.
    + apply (logged_in_new _ st _ new E).
      unfold ssd1306_drawImage. fold btd.
      destruct (Z.to_nat height) as [|n] eqn:En; [lia|].
      cbn [image_lines]. cbv zeta.
      replace (y + 0) with y by lia. rewrite (u32_id y) by lia.
      destruct (Z.geb_spec y H) as [|_]; [lia|].
      eapply (logged_then (fun _ => True)).
      2: { apply image_lines_stores with (height := height); auto; lia. }
      rewrite <- (pixel_addr_u32 W H (conj HW (conj HH (conj Hm8 Hsz)))) by lia.
      rewrite <- Exa.
      apply image_bytes_logged; auto; lia.
    + apply addr_column_pixel_addr. lia.
Qed.

(** C8, as stated, fails: with [width >= 8] and the first row on the
    display, a blit whose only byte-group starts at the right edge
    ([x + 8 = W]) stores nothing, and so does a blit with a mode outside
    the table; column [x + 8] is then not written. *)
Lemma drawImage_may_store_nothing :
  stored (ssd1306_drawImage 128 64 120 0 solid_font 8 8 0 (blank_fb 128 64)) = [] /\
  ~ (exists a,
       In a (stored (ssd1306_drawImage 128 64 120 0 solid_font 8 8 0
                       (blank_fb 128 64))) /\
       addr_column 128 a = 120 + 8) /\
  stored (ssd1306_drawImage 128 64 0 0 solid_font 8 8 6 (blank_fb 128 64)) = [].
Proof.
  assert (E : stored (ssd1306_drawImage 128 64 120 0 solid_font 8 8 0
                        (blank_fb 128 64)) = [])
    by (vm_compute; reflexivity).
  split; [exact E|]. split.
  - intros (a & Ha & _). rewrite E in Ha. destruct Ha.
  - vm_compute. reflexivity.
Qed.

(** ** Stores stay inside the framebuffer *)

Lemma stores_ext_then P st1 st2 st3 :
  stores_ext P st2 st3 -> stores_ext P st1 st2 -> stores_ext P st1 st3.
Proof. intros. eapply stores_ext_trans; eauto. Qed.

Section Safety.

Variables W H : Z.
Hypothesis Hgeo : geometry_ok W H.

Local Abbreviation safe := (stores_ext (in_buffer W H)).

Lemma guarded_addr_in_buffer x y :
  0 <= x < W -> 0 <= y < H -> in_buffer W H (u32 (x + W * (y / 8))).
Proof.
  intros Hx Hy. rewrite (pixel_addr_u32 W H Hgeo) by lia.
  apply (pixel_addr_bound W H Hgeo); lia.
Qed.

Lemma drawPixel_safe x y c st :
  0 <= x -> 0 <= y -> safe st (ssd1306_drawPixel W H x y c st).
Proof.
  intros Hx Hy. unfold ssd1306_drawPixel.
  destruct (Z.geb_spec x W); [apply stores_ext_refl|].
  destruct (Z.geb_spec y H); [apply stores_ext_refl|].
  cbv zeta. destruct (negb (c =? 0));
    apply stores_ext_buf_set, guarded_addr_in_buffer; lia.
Qed.

Lemma xorPixel_safe x y st :
  0 <= x -> 0 <= y -> safe st (ssd1306_xorPixel W H x y st).
Proof.
  intros Hx Hy. unfold ssd1306_xorPixel.
  destruct (Z.geb_spec x W); [apply stores_ext_refl|].
  destruct (Z.geb_spec y H); [apply stores_ext_refl|].
  cbv zeta. apply stores_ext_buf_set, guarded_addr_in_buffer; lia.
Qed.

Lemma drawPixel_u32_safe x y c st :
  safe st (ssd1306_drawPixel W H (u32 x) (u32 y) c st).
Proof.
  apply drawPixel_safe; [apply (u32_range x) | apply (u32_range y)].
Qed.

Lemma drawImage_safe x y input width height mode st :
  0 <= width < 2^32 -> 0 <= height ->
  safe st (ssd1306_drawImage W H x y input width height mode st).
Proof.
  intros Hw Hh. unfold ssd1306_drawImage.
  pose proof (bytes_to_draw_range width Hw) as Hbtd.
  apply image_lines_stores with (height := height); [exact Hbtd | lia | lia |].
  intros l b p Hl Hy Hb Hp Hx.
  pose proof (u32_range (x + 8 * (width / 8 - b) + p)).
  pose proof (u32_range (y + l)).
  apply guarded_addr_in_buffer; unfold x_abs in *; lia.
Qed.

Lemma vline_loop_safe n : forall x y c st, safe st (vline_loop W H n x y c st).
Proof.
  induction n as [|n IH]; intros; cbn [vline_loop]; [apply stores_ext_refl|].
  eapply stores_ext_then; [apply IH | apply drawPixel_u32_safe].
Qed.

Lemma drawFastVLine_safe x y h c st :
  safe st (ssd1306_drawFastVLine W H x y h c st).
Proof.
  unfold ssd1306_drawFastVLine.
  destruct (_ || _); [apply stores_ext_refl | apply vline_loop_safe].
Qed.

Lemma hline_loop_safe n : forall x y c st,
  0 <= x -> 0 <= y -> safe st (hline_loop W H n x y c st).
Proof.
  induction n as [|n IH]; intros; cbn [hline_loop]; [apply stores_ext_refl|].
  eapply stores_ext_then; [apply IH | apply drawPixel_safe]; auto.
  apply (u32_range (x + 1)).
Qed.

Lemma drawFastHLine_safe x y w c st :
  0 <= x -> 0 <= y -> safe st (ssd1306_drawFastHLine W H x y w c st).
Proof.
  intros. unfold ssd1306_drawFastHLine.
  destruct (_ || _); [apply stores_ext_refl | apply hline_loop_safe]; auto.
Qed.

Lemma line_loop_safe n : forall steep x y e dx dy ys c st,
  safe st (line_loop W H n steep x y e dx dy ys c st).
Proof.
  induction n as [|n IH]; intros; cbn [line_loop]; [apply stores_ext_refl|].
  cbv zeta. destruct (_ <? 0);
    (eapply stores_ext_then; [apply IH|]);
    destruct steep; apply drawPixel_u32_safe.
Qed.

Lemma drawLine_safe x0 y0 x1 y1 c st :
  safe st (ssd1306_drawLine W H x0 y0 x1 y1 c st).
Proof.
  unfold ssd1306_drawLine.
  repeat match goal with
  | |- context [let '(_, _) := ?e in _] => destruct e
  end.
  apply line_loop_safe.
Qed.

Lemma circle_plot4_safe x y c xp yp st :
  safe st (circle_plot4 W H x y c xp yp st).
Proof.
  unfold circle_plot4.
  repeat (eapply stores_ext_then; [apply drawPixel_u32_safe|]).
  apply stores_ext_refl.
Qed.

Lemma drawCircle_loop_safe fuel : forall x y c xp yp err st st',
  drawCircle_loop W H fuel x y c xp yp err st = Some st' -> safe st st'.
Proof.
  induction fuel as [|fuel IH]; intros x y c xp yp err st st' E; [discriminate|].
  cbn [drawCircle_loop] in E. cbv zeta in E.
  destruct (circle_step xp yp err) as [[xp' yp'] err'].
  destruct (xp' <=? 0).
  - eapply stores_ext_then; [eapply IH; exact E | apply circle_plot4_safe].
  - injection E as <-. apply circle_plot4_safe.
Qed.

Lemma fillCircle_loop_safe fuel : forall x y c xp yp err st st',
  fillCircle_loop W H fuel x y c xp yp err st = Some st' -> safe st st'.
Proof.
  induction fuel as [|fuel IH]; intros x y c xp yp err st st' E; [discriminate|].
  cbn [fillCircle_loop] in E. cbv zeta in E.
  assert (Hbody : safe st
    (ssd1306_drawFastHLine W H (u32 (x + xp)) (u32 (y - yp))
       (u32 (2 * - xp + 1)) c
       (ssd1306_drawFastHLine W H (u32 (x + xp)) (u32 (y + yp))
          (u32 (2 * - xp + 1)) c (circle_plot4 W H x y c xp yp st)))).
  { eapply stores_ext_then;
      [apply drawFastHLine_safe; apply u32_range|].
    eapply stores_ext_then;
      [apply drawFastHLine_safe; apply u32_range|].
    apply circle_plot4_safe. }
  destruct (circle_step xp yp err) as [[xp' yp'] err'].
  destruct (xp' <=? 0).
  - eapply stores_ext_then; [eapply IH; exact E | exact Hbody].
  - injection E as <-. exact Hbody.
Qed.

End Safety.

Section SafetyShapes.

Variables W H : Z.
Hypothesis Hgeo : geometry_ok W H.
Variable fontdata : Z -> Z.

Local Abbreviation safe := (stores_ext (in_buffer W H)).

Lemma drawRect_safe x y w h c st : safe st (ssd1306_drawRect W H x y w h c st).
Proof.
  unfold ssd1306_drawRect.
  eapply stores_ext_then; [apply drawFastHLine_safe; auto; apply u32_range|].
  eapply stores_ext_then; [apply drawFastHLine_safe; auto; apply u32_range|].
  eapply stores_ext_then; [apply drawFastVLine_safe; auto|].
  apply drawFastVLine_safe; auto.
Qed.

Lemma fillRect_row_safe n : forall m y c st,
  0 <= m -> 0 <= y -> safe st (fillRect_row W H n m y c st).
Proof.
  induction n as [|n IH]; intros; cbn [fillRect_row]; [apply stores_ext_refl|].
  eapply stores_ext_then; [apply IH | apply drawPixel_safe]; auto.
  apply (u32_range (m + 1)).
Qed.

Lemma fillRect_rows_safe n : forall x y iw c st,
  0 <= x -> 0 <= y -> safe st (fillRect_rows W H n x y iw c st).
Proof.
  induction n as [|n IH]; intros; cbn [fillRect_rows]; [apply stores_ext_refl|].
  eapply stores_ext_then; [apply IH | apply fillRect_row_safe]; auto.
  apply (u32_range (y + 1)).
Qed.

Lemma xorrect_row_safe n : forall m y st,
  0 <= m -> 0 <= y -> safe st (xorrect_row W H n m y st).
Proof.
  induction n as [|n IH]; intros; cbn [xorrect_row]; [apply stores_ext_refl|].
  eapply stores_ext_then; [apply IH | apply xorPixel_safe]; auto.
  apply (u8_range (m + 1)).
Qed.

Lemma xorrect_rows_safe n : forall x y iw st,
  0 <= x -> 0 <= y -> safe st (xorrect_rows W H n x y iw st).
Proof.
  induction n as [|n IH]; intros; cbn [xorrect_rows]; [apply stores_ext_refl|].
  eapply stores_ext_then; [apply IH | apply xorrect_row_safe]; auto.
  apply (u8_range (y + 1)).
Qed.

Lemma drawchar_cols_safe n : forall j x y i d c st,
  safe st (drawchar_cols W H n j x y i d c st).
Proof.
  induction n as [|n IH]; intros; cbn [drawchar_cols]; [apply stores_ext_refl|].
  eapply stores_ext_then; [apply IH | apply drawPixel_u32_safe]; auto.
Qed.

Lemma drawchar_rows_safe n : forall i x y chr c st,
  safe st (drawchar_rows W H fontdata n i x y chr c st).
Proof.
  induction n as [|n IH]; intros; cbn [drawchar_rows]; [apply stores_ext_refl|].
  eapply stores_ext_then; [apply IH | apply drawchar_cols_safe]; auto.
Qed.

Lemma drawchar_safe x y chr c st :
  safe st (ssd1306_drawchar W H fontdata x y chr c st).
Proof. apply drawchar_rows_safe. Qed.

Lemma drawstr_safe str : forall x y c st,
  safe st (ssd1306_drawstr W H fontdata x y str c st).
Proof.
  induction str as [|ch str IH]; intros; cbn [ssd1306_drawstr];
    [apply stores_ext_refl|].
  cbv zeta. destruct (u8 ch =? 0); [apply stores_ext_refl|].
  destruct (_ >? 120); [apply drawchar_safe|].
  eapply stores_ext_then; [apply IH | apply drawchar_safe].
Qed.

Lemma scaled_l_safe n : forall l x y i j k fs col st,
  safe st (scaled_l W H n l x y i j k fs col st).
Proof.
  induction n as [|n IH]; intros; cbn [scaled_l]; [apply stores_ext_refl|].
  eapply stores_ext_then; [apply IH | apply drawPixel_u32_safe]; auto.
Qed.

Lemma scaled_k_safe n : forall k x y i j fs col st,
  safe st (scaled_k W H n k x y i j fs col st).
Proof.
  induction n as [|n IH]; intros; cbn [scaled_k]; [apply stores_ext_refl|].
  eapply stores_ext_then; [apply IH | apply scaled_l_safe]; auto.
Qed.

Lemma drawchar_sz_cols_safe n : forall j x y i d c fs st,
  safe st (drawchar_sz_cols W H n j x y i d c fs st).
Proof.
  induction n as [|n IH]; intros; cbn [drawchar_sz_cols]; [apply stores_ext_refl|].
  eapply stores_ext_then; [apply IH | apply scaled_k_safe]; auto.
Qed.

Lemma drawchar_sz_rows_safe n : forall i x y chr c fs st,
  safe st (drawchar_sz_rows W H fontdata n i x y chr c fs st).
Proof.
  induction n as [|n IH]; intros; cbn [drawchar_sz_rows]; [apply stores_ext_refl|].
  eapply stores_ext_then; [apply IH | apply drawchar_sz_cols_safe]; auto.
Qed.

Lemma drawchar_sz_safe x y chr c fsz st :
  safe st (ssd1306_drawchar_sz W H fontdata x y chr c fsz st).
Proof. apply drawchar_sz_rows_safe. Qed.

Lemma drawstr_sz_safe str : forall x y c fsz st,
  safe st (ssd1306_drawstr_sz W H fontdata x y str c fsz st).
Proof.
  induction str as [|ch str IH]; intros; cbn [ssd1306_drawstr_sz];
    [apply stores_ext_refl|].
  cbv zeta. destruct (u8 ch =? 0); [apply stores_ext_refl|].
  destruct (_ >? _); [apply drawchar_sz_safe|].
  eapply stores_ext_then; [apply IH | apply drawchar_sz_safe].
Qed.

End SafetyShapes.

(** C10. Every store into [ssd1306_buffer] made by a drawing operation is
    at an index below [W * H / 8]: with [H] a multiple of 8, the guards
    [x < W] and [y < H] put [x + W * (y / 8)] inside the buffer, and
    [ssd1306_drawPixel], [ssd1306_xorPixel], [ssd1306_drawImage] and every
    primitive built on them store only behind those guards. *)
Theorem stores_in_bounds (W H : Z) (fontdata : Z -> Z) (st : fb_state) :
  geometry_ok W H ->
  let safe := stores_ext (fun a => 0 <= a < W * H / 8) in
  (forall x y, 0 <= x < W -> 0 <= y < H ->
     0 <= u32 (x + W * (y / 8)) < W * H / 8) /\
  (forall x y c, 0 <= x -> 0 <= y -> safe st (ssd1306_drawPixel W H x y c st)) /\
  (forall x y, 0 <= x -> 0 <= y -> safe st (ssd1306_xorPixel W H x y st)) /\
  (forall x y input width height mode,
     0 <= width < 2^32 -> 0 <= height ->
     safe st (ssd1306_drawImage W H x y input width height mode st)) /\
  (forall x y h c, safe st (ssd1306_drawFastVLine W H x y h c st)) /\
  (forall x y w c, 0 <= x -> 0 <= y ->
     safe st (ssd1306_drawFastHLine W H x y w c st)) /\
  (forall x0 y0 x1 y1 c, safe st (ssd1306_drawLine W H x0 y0 x1 y1 c st)) /\
  (forall fuel x y r c st',
     ssd1306_drawCircle W H fuel x y r c st = Some st' -> safe st st') /\
  (forall fuel x y r c st',
     ssd1306_fillCircle W H fuel x y r c st = Some st' -> safe st st') /\
  (forall x y w h c, safe st (ssd1306_drawRect W H x y w h c st)) /\
  (forall x y w h c, 0 <= x -> 0 <= y ->
     safe st (ssd1306_fillRect W H x y w h c st)) /\
  (forall x y w h, 0 <= x -> 0 <= y -> safe st (ssd1306_xorrect W H x y w h st)) /\
  (forall x y chr c, safe st (ssd1306_drawchar W H fontdata x y chr c st)) /\
  (forall x y str c, safe st (ssd1306_drawstr W H fontdata x y str c st)) /\
  (forall x y chr c fsz,
     safe st (ssd1306_drawchar_sz W H fontdata x y chr c fsz st)) /\
  (forall x y str c fsz,
     safe st (ssd1306_drawstr_sz W H fontdata x y str c fsz st)).
Proof.
  intros Hgeo safe. subst safe.
  change (fun a => 0 <= a < W * H / 8) with (in_buffer W H).
  repeat split; intros.
  - apply (guarded_addr_in_buffer W H Hgeo); auto.
  - apply (guarded_addr_in_buffer W H Hgeo); auto.
  - apply drawPixel_safe; auto.
  - apply xorPixel_safe; auto.
  - apply drawImage_safe; auto.
  - apply drawFastVLine_safe; auto.
  - apply drawFastHLine_safe; auto.
  - apply drawLine_safe; auto.
  - eapply drawCircle_loop_safe; eauto.
  - eapply fillCircle_loop_safe; eauto.
  - apply drawRect_safe; auto.
  - apply fillRect_rows_safe; auto.
  - apply xorrect_rows_safe; auto.
  - apply drawchar_safe; auto.
  - apply drawstr_safe; auto.
  - apply drawchar_sz_safe; auto.
  - apply drawstr_sz_safe; auto.
Qed.

(** ** Fast horizontal line *)

Section HLine.

Variables W H : Z.
Hypothesis Hgeo : geometry_ok W H.
Hypothesis HW32 : W < 2^32.

Lemma hline_loop_wf n : forall x y c st,
  0 <= x -> 0 <= y -> fb_wf W H st -> fb_wf W H (hline_loop W H n x y c st).
Proof.
  induction n as [|n IH]; intros; cbn [hline_loop]; auto.
  apply IH; auto; [apply (u32_range (x + 1))|].
  apply (drawPixel_wf W H Hgeo); auto.
Qed.

(** A run of [n] pixels that stays on the display paints exactly the
    pixels [(x, y) .. (x + n - 1, y)]. *)
Lemma hline_loop_pixel_at n : forall x y c st px py,
  fb_wf W H st -> 0 <= x -> x + Z.of_nat n <= W -> 0 <= y < H ->
  0 <= px < W -> 0 <= py < H ->
  pixel_at W (hline_loop W H n x y c st) px py =
  if decide (py = y /\ x <= px < x + Z.of_nat n)
  then negb (c =? 0) else pixel_at W st px py.
Proof.
  induction n as [|n IH]; intros x y c st px py Hwf Hx Hn Hy Hpx Hpy.
  - simpl. case_decide; [lia | reflexivity].
  - cbn [hline_loop]. rewrite (u32_id (x + 1)) by lia.
    rewrite IH; auto; try lia.
    2: { apply (drawPixel_wf W H Hgeo); auto; lia. }
    rewrite (drawPixel_pixel_at W H Hgeo) by (auto; lia).
    repeat case_decide; auto; lia.
Qed.

Lemma hline_loop_stored n : forall x y c st,
  0 <= x -> x + Z.of_nat n <= W -> 0 <= y < H ->
  exists new, stored (hline_loop W H n x y c st) = new ++ stored st /\
    length new = n /\
    Forall (fun a => exists px, x <= px < x + Z.of_nat n /\
                       a = pixel_addr W px y) new.
Proof.
  induction n as [|n IH]; intros x y c st Hx Hn Hy.
  - exists []. simpl. repeat split; constructor.
  - cbn [hline_loop]. rewrite (u32_id (x + 1)) by lia.
    destruct (IH (x + 1) y c (ssd1306_drawPixel W H x y c st))
      as (new & E & L & F); try lia.
    exists (new ++ [pixel_addr W x y]). split; [|split].
    + rewrite E. rewrite (drawPixel_in W H Hgeo) by lia.
      rewrite <- app_assoc. reflexivity.
    + rewrite length_app, L. simpl. lia.
    + apply Forall_app. split.
      * eapply List.Forall_impl; [|exact F]. intros a (q & Hq & ->).
        exists q. split; [lia | reflexivity].
      * constructor; [|constructor]. exists x. split; [lia | reflexivity].
Qed.

End HLine.

(** C9. [ssd1306_drawFastHLine] with [w = 0] is not uniformly a no-op.  At
    [x = 0] and [y < H] the unsigned [x + w - 1] wraps to [2^32 - 1], the
    clamp sets [w] to [W], and all [W] pixels of row [y] are written with
    the colour (and nothing else changes); at [1 <= x < W] and [y < H] the
    call leaves the framebuffer as it was. *)
Theorem drawFastHLine_zero_width (W H : Z) (st : fb_state) (y color : Z) :
  geometry_ok W H -> W < 2^32 -> fb_wf W H st -> 0 <= y < H ->
  u32 (0 + 0 - 1) = 2^32 - 1 /\
  ssd1306_drawFastHLine W H 0 y 0 color st
  = hline_loop W H (Z.to_nat W) 0 y color st /\
  (forall px py, 0 <= px < W -> 0 <= py < H ->
     pixel_at W (ssd1306_drawFastHLine W H 0 y 0 color st) px py =
     if decide (py = y) then negb (color =? 0) else pixel_at W st px py) /\
  (exists new,
     stored (ssd1306_drawFastHLine W H 0 y 0 color st) = new ++ stored st /\
     length new = Z.to_nat W /\
     Forall (fun a => exists px, 0 <= px < W /\ a = pixel_addr W px y) new) /\
  (forall x, 1 <= x < W -> ssd1306_drawFastHLine W H x y 0 color st = st).
Proof.
  intros Hgeo HW32 Hwf Hy.
  assert (HW : 0 < W) by (destruct Hgeo; lia).
  assert (E0 : ssd1306_drawFastHLine W H 0 y 0 color st
               = hline_loop W H (Z.to_nat W) 0 y color st).
  { unfold ssd1306_drawFastHLine.
    destruct (Z.geb_spec 0 W); [lia|]. destruct (Z.geb_spec y H); [lia|].
    cbn [orb]. change (u32 (0 + 0 - 1)) with (2^32 - 1).
    destruct (Z.geb_spec (2^32 - 1) W); [|lia].
    rewrite Z.sub_0_r, (u32_id W) by lia. reflexivity. }
  split; [reflexivity|]. split; [exact E0|]. split; [|split].
  - intros px py Hpx Hpy. rewrite E0.
    rewrite (hline_loop_pixel_at W H Hgeo HW32) by (auto; lia).
    repeat case_decide; auto; lia.
  - rewrite E0.
    destruct (hline_loop_stored W H Hgeo HW32 (Z.to_nat W) 0 y color st)
      as (new & E & L & F); try lia.
    exists new. repeat split; auto.
    eapply List.Forall_impl; [|exact F]. intros a (q & Hq & ->).
    exists q. split; [lia | reflexivity].
  - intros x Hx. unfold ssd1306_drawFastHLine.
    destruct (Z.geb_spec x W); [lia|]. destruct (Z.geb_spec y H); [lia|].
    cbn [orb]. replace (x + 0 - 1) with (x - 1) by lia.
    rewrite (u32_id (x - 1)) by lia.
    destruct (Z.geb_spec (x - 1) W); [lia|]. reflexivity.
Qed.

(** ** Circle loops *)

Lemma circle_inv_init r :
  0 <= r <= 2^29 -> circle_inv r (s32 (- r)) 0 (s32 (2 - s32 (2 * r))).
Proof.
  intros Hr. rewrite (s32_id (- r)) by lia. rewrite (s32_id (2 * r)) by lia.
  rewrite (s32_id (2 - 2 * r)) by lia. unfold circle_inv. nia.
Qed.

(** One pass either moves [x_pos] or [y_pos] forward, never overflows,
    and re-establishes the invariant when the loop goes on. *)
Lemma circle_step_progress r x_pos y_pos err :
  0 <= r <= 2^29 -> circle_inv r x_pos y_pos err ->
  exists x' y' err',
    circle_step x_pos y_pos err = (x', y', err') /\
    x_pos <= x' <= x_pos + 1 /\ y_pos <= y' <= r /\
    x_pos + y_pos < x' + y' /\
    (x' <= 0 -> circle_inv r x' y' err').
Proof.
  intros Hr (Hx & Hy & He & Hb).
  assert (Hyr : err <= y_pos -> y_pos < r).
  { intros Hle. destruct (Z.lt_ge_cases y_pos r) as [|Hge]; [assumption|].
    exfalso. assert (y_pos = r) by lia. subst y_pos.
    pose proof (Z.square_nonneg (x_pos + 1)). nia. }
  unfold circle_step.
  rewrite (s32_id (y_pos + 1)), (s32_id ((y_pos + 1) * 2)),
    (s32_id ((y_pos + 1) * 2 + 1)), (s32_id (- x_pos)), (s32_id (x_pos + 1)),
    (s32_id ((x_pos + 1) * 2)), (s32_id ((x_pos + 1) * 2 + 1)) by lia.
  destruct (Z.leb_spec err y_pos) as [Hle|Hgt].
  - specialize (Hyr Hle).
    rewrite (s32_id (err + ((y_pos + 1) * 2 + 1))) by lia.
    destruct (Z.eqb_spec (- x_pos) (y_pos + 1)) as [Heq|Hne];
      destruct (Z.leb_spec err x_pos) as [Hlx|Hgx]; cbn [andb].
    + destruct (Z.gtb_spec 0 x_pos).
      * rewrite s32_id by lia. do 3 eexists. split; [reflexivity|].
        unfold circle_inv. repeat split; try lia; nia.
      * do 3 eexists. split; [reflexivity|].
        unfold circle_inv. repeat split; try lia; nia.
    + destruct (Z.gtb_spec err x_pos); [|lia].
      rewrite s32_id by lia. do 3 eexists. split; [reflexivity|].
      unfold circle_inv. repeat split; try lia; nia.
    + destruct (Z.gtb_spec err x_pos); [lia|].
      do 3 eexists. split; [reflexivity|].
      unfold circle_inv. repeat split; try lia; nia.
    + destruct (Z.gtb_spec err x_pos); [|lia].
      rewrite s32_id by lia. do 3 eexists. split; [reflexivity|].
      unfold circle_inv. repeat split; try lia; nia.
  - destruct (Z.gtb_spec err x_pos); [|lia].
    rewrite s32_id by lia. do 3 eexists. split; [reflexivity|].
    unfold circle_inv. repeat split; try lia; nia.
Qed.

Section Circles.

Variables W H : Z.

Lemma drawCircle_loop_terminates r fuel : forall x y c x_pos y_pos err st,
  0 <= r <= 2^29 -> circle_inv r x_pos y_pos err ->
  (Z.to_nat (r - y_pos + (1 - x_pos)) <= fuel)%nat ->
  exists st', drawCircle_loop W H fuel x y c x_pos y_pos err st = Some st'.
Proof.
  induction fuel as [|fuel IH]; intros x y c x_pos y_pos err st Hr Hinv Hf.
  - destruct Hinv as (? & ? & _). lia.
  - cbn [drawCircle_loop]. cbv zeta.
    destruct (circle_step_progress r x_pos y_pos err Hr Hinv)
      as (x' & y' & err' & -> & Hx & Hy & Hprog & Hnext).
    destruct (Z.leb_spec x' 0) as [Hle|Hgt]; [|eauto].
    apply IH; auto. lia.
Qed.

Lemma fillCircle_loop_terminates r fuel : forall x y c x_pos y_pos err st,
  0 <= r <= 2^29 -> circle_inv r x_pos y_pos err ->
  (Z.to_nat (r - y_pos + (1 - x_pos)) <= fuel)%nat ->
  exists st', fillCircle_loop W H fuel x y c x_pos y_pos err st = Some st'.
Proof.
  induction fuel as [|fuel IH]; intros x y c x_pos y_pos err st Hr Hinv Hf.
  - destruct Hinv as (? & ? & _). lia.
  - cbn [fillCircle_loop]. cbv zeta.
    destruct (circle_step_progress r x_pos y_pos err Hr Hinv)
      as (x' & y' & err' & -> & Hx & Hy & Hprog & Hnext).
    destruct (Z.leb_spec x' 0) as [Hle|Hgt]; [|eauto].
    apply IH; auto. lia.
Qed.





End Circles.

Section RepeatedPixel.

Variables W H : Z.
Hypothesis Hgeo : geometry_ok W H.


End RepeatedPixel.

(** *** Passes without overflow *)





Lemma circle_inv_exact r x_pos y_pos err :
  circle_inv r x_pos y_pos err -> circle_exact r x_pos y_pos err.
Proof. intros (Hx & Hy & He & _). repeat split; tauto || lia. Qed.





Section CirclesDefined.

Variables W H : Z.



End CirclesDefined.





(** ** Strings *)

Lemma drawstr_as_specified H fontdata str : forall x y color st,
  0 <= x <= 247 ->
  ssd1306_drawstr 128 H fontdata x y str color st
  = drawString_spec 128 H fontdata x y str color st.
Proof.
  induction str as [|c str IH]; intros x y color st Hx; [reflexivity|].
  cbn [ssd1306_drawstr drawString_spec]. cbv zeta.
  destruct (u8 c =? 0); [reflexivity|].
  rewrite (u8_id (x + 8)) by lia.
  destruct (Z.gtb_spec (x + 8) 120); destruct (Z.gtb_spec (x + 8 + 8) 128);
    try lia; [reflexivity|].
  apply IH. lia.
Qed.

(** On a display of width 128 and for a start column [x <= 247],
    [ssd1306_drawstr] is the string drawing of the specification: the
    first character at [x], the cursor advanced by 8 columns per
    character, no further character once the next glyph would exceed the
    display width.  [drawString(120, 0, "HELLO", 1)] draws the glyph of
    "H" at column 120 and stops. *)
Lemma drawstr_clips_at_width (W H : Z) (fontdata : Z -> Z) (x y : Z)
    (str : list Z) (color : Z) (st : fb_state) :
  W = 128 -> 0 <= x <= 247 ->
  ssd1306_drawstr W H fontdata x y str color st
  = drawString_spec W H fontdata x y str color st /\
  ssd1306_drawstr W H fontdata 120 0 [72; 69; 76; 76; 79] 1 st
  = ssd1306_drawchar W H fontdata 120 0 72 1 st.
Proof.
  intros -> Hx. split; [apply drawstr_as_specified; exact Hx | reflexivity].
Qed.

(** C7. The claim asks that no further character is emitted once the
    next glyph would exceed the display width.  The loop compares the
    cursor with the constant 120, which is [SSD1306_W - 8] on the 128
    wide displays only: on the 72 by 40 display
    [ssd1306_drawstr(60, 0, "AB", 1)] draws "B" at column 68, although
    [68 + 8 > 72], and lights pixel [(70, 0)]; string drawing as the
    specification words it leaves that pixel alone.  On the 128 wide
    display the [uint8_t] cursor wraps: started at column 248, the second
    character is drawn from column 0. *)
Theorem drawstr_ignores_display_width :
  ssd1306_drawstr 72 40 solid_font 60 0 [65; 66] 1 (blank_fb 72 40)
  = ssd1306_drawchar 72 40 solid_font 68 0 66 1
      (ssd1306_drawchar 72 40 solid_font 60 0 65 1 (blank_fb 72 40)) /\
  pixel_at 72
    (ssd1306_drawstr 72 40 solid_font 60 0 [65; 66] 1 (blank_fb 72 40)) 70 0
  = true /\
  pixel_at 72
    (drawString_spec 72 40 solid_font 60 0 [65; 66] 1 (blank_fb 72 40)) 70 0
  = false /\
  pixel_at 128
    (ssd1306_drawstr 128 64 solid_font 248 0 [65; 66] 1 (blank_fb 128 64)) 0 0
  = true /\
  pixel_at 128
    (drawString_spec 128 64 solid_font 248 0 [65; 66] 1 (blank_fb 128 64)) 0 0
  = false.
Proof. repeat split; vm_compute; reflexivity. Qed.

(** ** Transfer engine *)

Lemma map_seq_offset {A} (f : nat -> A) (a : nat) n : forall s,
  map (fun k => f (a + k)%nat) (seq s n) = map f (seq (a + s) n).
Proof.
  induction n as [|n IH]; intros s; [reflexivity|].
  cbn [seq map]. rewrite IH. rewrite Nat.add_succ_r. reflexivity.
Qed.

(** Reading [n] bytes from index [i] inside the array yields that slice. *)
Lemma lookup_run (buf : list Z) n : forall i,
  (i + n <= length buf)%nat ->
  map (fun k => buf !! k) (seq i n) = map Some (firstn n (skipn i buf)).
Proof.
  induction n as [|n IH]; intros i Hlen; [reflexivity|].
  cbn [seq map].
  destruct (lookup_lt_is_Some_2 buf i ltac:(lia)) as [v Hv].
  rewrite (drop_S _ _ _ Hv). cbn [firstn map]. rewrite Hv.
  f_equal. apply IH. lia.
Qed.

Lemma ssd1306_data_inside (buf : list Z) i :
  0 <= i -> (Z.to_nat i + 32 <= length buf)%nat ->
  ssd1306_data buf i SSD1306_PSZ
  = Some 0x40 :: map Some (firstn 32 (skipn (Z.to_nat i) buf)).
Proof.
  intros Hi Hlen. unfold ssd1306_data, SSD1306_PSZ.
  change (32 >? 32) with false. cbv iota zeta.
  change (Z.to_nat 32) with 32%nat.
  rewrite (map_seq_offset (fun k => buf !! k)). rewrite Nat.add_0_r.
  rewrite lookup_run by lia. reflexivity.
Qed.

Section Refresh.

Variables W H : Z.
Variable buf : list Z.
Hypothesis Hsize : 0 <= buffer_size W H < 2^32.
Hypothesis Hlen : length buf = Z.to_nat (buffer_size W H).

Lemma refresh_loop_run k : forall fuel i,
  (k < fuel)%nat -> 0 <= i -> i + 32 * Z.of_nat k = buffer_size W H ->
  exists datas,
    refresh_loop W H fuel i buf = Some datas /\
    length datas = k /\
    Forall (fun p => exists bytes, p = Some 0x40 :: bytes /\
                       length bytes = 32%nat) datas /\
    concat (map payload datas) = map Some (skipn (Z.to_nat i) buf).
Proof.
  induction k as [|k IH]; intros fuel i Hf Hi Hk;
    (destruct fuel as [|fuel]; [lia|]); cbn [refresh_loop].
  - destruct (Z.ltb_spec i (buffer_size W H)); [lia|].
    exists []. repeat split; auto.
    rewrite skipn_all2 by lia. reflexivity.
  - destruct (Z.ltb_spec i (buffer_size W H)); [|lia].
    change SSD1306_PSZ with 32 at 1. rewrite (u32_id (i + 32)) by lia.
    destruct (IH fuel (i + 32)) as (datas & E & L & F & C); try lia.
    rewrite E. eexists. split; [reflexivity|].
    rewrite ssd1306_data_inside by lia.
    split; [|split].
    + simpl. lia.
    + constructor; [|exact F]. eexists. split; [reflexivity|].
      rewrite length_map, length_firstn, length_skipn. lia.
    + cbn [map concat payload tail]. rewrite C.
      rewrite <- map_app. f_equal.
      rewrite Z2Nat.inj_add by lia. change (Z.to_nat 32) with 32%nat.
      rewrite Nat.add_comm, <- skipn_skipn. apply firstn_skipn.
Qed.

End Refresh.

Lemma lookup_beyond (buf : list Z) p : forall i,
  (length buf <= i)%nat -> map (fun k => buf !! k) (seq i p) = repeat None p.
Proof.
  induction p as [|p IH]; intros i Hi; [reflexivity|].
  cbn [seq map repeat]. rewrite lookup_ge_None_2 by lia.
  f_equal. apply IH. lia.
Qed.

Lemma lookup_all (buf : list Z) p :
  map (fun k => buf !! k) (seq 0 (length buf + p))
  = map Some buf ++ repeat None p.
Proof.
  rewrite seq_app, map_app. f_equal.
  - rewrite lookup_run by lia. rewrite firstn_all. reflexivity.
  - apply lookup_beyond. lia.
Qed.

Section RefreshAny.

Variables W H : Z.
Variable buf : list Z.

Lemma refresh_loop_any k : forall fuel i,
  (k < fuel)%nat -> 0 <= i -> i + 32 * Z.of_nat k < 2^32 ->
  buffer_size W H <= i + 32 * Z.of_nat k ->
  (k <> 0%nat -> i + 32 * (Z.of_nat k - 1) < buffer_size W H) ->
  exists datas,
    refresh_loop W H fuel i buf = Some datas /\
    length datas = k /\
    Forall (fun p => is_data p /\ length (payload p) = 32%nat) datas /\
    concat (map payload datas)
    = map (fun j => buf !! j) (seq (Z.to_nat i) (32 * k)).
Proof.
  induction k as [|k IH]; intros fuel i Hf Hi Hnw Hle Hgt;
    (destruct fuel as [|fuel]; [lia|]); cbn [refresh_loop].
  - destruct (Z.ltb_spec i (buffer_size W H)); [lia|].
    exists []. repeat split; auto.
  - destruct (Z.ltb_spec i (buffer_size W H)); [|lia].
    change SSD1306_PSZ with 32 at 1.
    destruct (Nat.eq_dec k 0%nat) as [->|Hk0].
    + destruct fuel as [|fuel]; [lia|]. cbn [refresh_loop].
      assert (Hge : buffer_size W H <= u32 (i + 32))
        by (rewrite u32_id by lia; lia).
      destruct (Z.ltb_spec (u32 (i + 32)) (buffer_size W H)); [lia|].
      eexists. split; [reflexivity|]. split; [reflexivity|]. split.
      * constructor; [|constructor]. split; [eexists; reflexivity|].
        cbn [payload tail ssd1306_data]. unfold SSD1306_PSZ.
        change (32 >? 32) with false. cbv iota.
        rewrite length_map, length_seq. reflexivity.
      * cbn [map concat payload tail]. rewrite app_nil_r.
        unfold ssd1306_data, SSD1306_PSZ. change (32 >? 32) with false.
        cbv iota zeta. cbn [tail]. change (Z.to_nat 32) with 32%nat.
        rewrite (map_seq_offset (fun j => buf !! j)). rewrite Nat.add_0_r.
        reflexivity.
    + rewrite (u32_id (i + 32)) by lia.
      destruct (IH fuel (i + 32)) as (datas & E & L & F & C); try lia.
      rewrite E. eexists. split; [reflexivity|]. split; [|split].
      * cbn [length]. lia.
      * constructor; [|exact F]. split; [eexists; reflexivity|].
        cbn [payload tail ssd1306_data]. unfold SSD1306_PSZ.
        change (32 >? 32) with false. cbv iota.
        rewrite length_map, length_seq. reflexivity.
      * cbn [map concat payload tail]. rewrite C.
        unfold ssd1306_data, SSD1306_PSZ. change (32 >? 32) with false.
        cbv iota zeta. cbn [tail]. change (Z.to_nat 32) with 32%nat.
        rewrite (map_seq_offset (fun j => buf !! j)). rewrite Nat.add_0_r.
        cbn [payload tail]. rewrite <- map_app. f_equal.
        replace (32 * S k)%nat with (32 + 32 * k)%nat by lia.
        rewrite seq_app. f_equal. f_equal. lia.
Qed.

End RefreshAny.

(** C1, as amended. For every framebuffer contents and every geometry
    (the buffer size leaving room for the last step of the [uint32_t]
    loop index), [ssd1306_refresh] sends six command transactions (the
    column-address command with its start and end, the page-address
    command with start 0 and end 7), then [ceil (size / SSD1306_PSZ)] data
    packets.  When [SSD1306_PSZ] divides the buffer size, every packet
    carries [SSD1306_PSZ] bytes of the framebuffer and the payloads,
    concatenated, are the framebuffer in its original byte order. *)
Theorem refresh_sends_whole_buffer (W H OFFSET : Z) (fuel : nat) (buf : list Z) :
  0 <= buffer_size W H <= 2^32 - SSD1306_PSZ ->
  length buf = Z.to_nat (buffer_size W H) ->
  (Z.to_nat ((buffer_size W H + SSD1306_PSZ - 1) / SSD1306_PSZ) < fuel)%nat ->
  exists datas,
    ssd1306_refresh W H OFFSET fuel buf
    = Some ([ ssd1306_cmd SSD1306_COLUMNADDR; ssd1306_cmd OFFSET;
              ssd1306_cmd (OFFSET + W - 1); ssd1306_cmd SSD1306_PAGEADDR;
              ssd1306_cmd 0; ssd1306_cmd 7 ] ++ datas) /\
    Z.of_nat (length datas)
    = (buffer_size W H + SSD1306_PSZ - 1) / SSD1306_PSZ /\
    Forall is_data datas /\
    (buffer_size W H mod SSD1306_PSZ = 0 ->
     Forall (fun p => is_data p /\ Z.of_nat (length (payload p)) = SSD1306_PSZ)
       datas /\
     concat (map payload datas) = map Some buf).
Proof.
  intros Hsize Hlen Hfuel. unfold SSD1306_PSZ in *.
  set (sz := buffer_size W H) in *.
  pose proof (Z.div_mod (sz + 32 - 1) 32 ltac:(lia)) as Ed.
  pose proof (Z.mod_pos_bound (sz + 32 - 1) 32 ltac:(lia)) as Hm.
  set (n := (sz + 32 - 1) / 32) in *.
  assert (Hn : 0 <= n) by (subst n; apply Z.div_pos; lia).
  destruct (refresh_loop_any W H buf (Z.to_nat n) fuel 0)
    as (datas & E & L & F & C); try (fold sz; lia).
  exists datas. unfold ssd1306_refresh. rewrite E.
  split; [reflexivity|]. split; [lia|]. split.
  { eapply List.Forall_impl; [|exact F]. intros p [Hd _]. exact Hd. }
  intros Hmod. split.
  - eapply List.Forall_impl; [|exact F].
    intros p [Hd Lp]. split; [exact Hd|]. rewrite Lp. reflexivity.
  - rewrite C. change (Z.to_nat 0) with 0%nat.
    pose proof (Z.div_mod sz 32 ltac:(lia)) as Ed'. rewrite Hmod in Ed'.
    replace (32 * Z.to_nat n)%nat with (length buf + 0)%nat by lia.
    rewrite lookup_all. apply app_nil_r.
Qed.

(** C1, as stated, fails: the transfer opens with six command
    transactions, not four. *)
Lemma refresh_sends_six_commands :
  ~ refresh_as_specified 128 64 0 40 (repeat 0 1024).
Proof.
  intros (cmds & datas & E & L & _ & Fd & _).
  destruct cmds as [|c1 [|c2 [|c3 [|c4 [|c5 cmds]]]]]; try discriminate.
  assert (E' : option_map (fun l => nth_error l 4)
                 (ssd1306_refresh 128 64 0 40 (repeat 0 1024))
               = Some (nth_error datas 0)).
  { rewrite E. reflexivity. }
  vm_compute in E'. destruct datas as [|d datas]; [discriminate|].
  cbn [nth_error] in E'. injection E' as <-.
  inversion Fd as [|? ? (bytes & Hb) _]. discriminate.
Qed.

(** On the 72 by 40 geometry, whose 360-byte buffer is not a multiple of
    [SSD1306_PSZ], the last packet still carries 32 bytes, 24 of them
    fetched from beyond the end of [ssd1306_buffer]. *)
Lemma refresh_72x40_last_packet :
  option_map (fun l => List.last l [])
    (ssd1306_refresh 72 40 28 40 (repeat 7 360))
  = Some (Some 0x40 :: repeat (Some 7) 8 ++ repeat None 24).
Proof. vm_compute. reflexivity. Qed.

(** ** Lines *)

Section Lines.

Variables W H : Z.
Hypothesis HW : W <= 2^31.
Hypothesis HH : H <= 2^31.

(** Plotting an [int] point through the [uint32_t] parameters of
    [ssd1306_drawPixel] clips the negative coordinates. *)
Lemma drawPixel_int px py c st :
  - 2^31 <= px < 2^31 -> - 2^31 <= py < 2^31 ->
  ssd1306_drawPixel W H (u32 px) (u32 py) c st =
  if (0 <=? px) && (0 <=? py) then ssd1306_drawPixel W H px py c st else st.
Proof.
  intros Hpx Hpy.
  destruct (Z.leb_spec 0 px) as [Hx|Hx]; cbn [andb].
  - rewrite (u32_id px) by lia.
    destruct (Z.leb_spec 0 py) as [Hy|Hy].
    + rewrite (u32_id py) by lia. reflexivity.
    + apply drawPixel_clip. right. unfold u32.
      pose proof (Z.mod_unique (py) (2^32) (-1) (py + 2^32) ltac:(lia) ltac:(lia)).
      lia.
  - apply drawPixel_clip. left. unfold u32.
    pose proof (Z.mod_unique (px) (2^32) (-1) (px + 2^32) ltac:(lia) ltac:(lia)).
    lia.
Qed.

Variables deltax deltay ystep c : Z.
Hypothesis Hdelta : 0 <= deltay <= deltax /\ deltax <= 2^20.
Hypothesis Hystep : ystep = 1 \/ ystep = -1.

(** While no wrap-around occurs, the loop of [ssd1306_drawLine] plots the
    points of the classic loop. *)
Lemma line_loop_classic n : forall steep x y error st,
  0 <= x -> x + Z.of_nat n <= 2^20 -> Z.abs y + Z.of_nat n <= 2^20 ->
  0 <= error <= deltax ->
  line_loop W H n steep x y error deltax deltay ystep c st =
  plot_points W H c (bresenham_loop n steep x y error deltax deltay ystep) st.
Proof.
  induction n as [|n IH]; intros steep x y error st Hx Hxn Hyn He;
    [reflexivity|].
  cbn [line_loop bresenham_loop]. cbv zeta.
  rewrite (s32_id (error - deltay)), (s32_id (x + 1)), (s32_id (y + ystep)),
    (s32_id (error - deltay + deltax)) by lia.
  assert (Hplot :
    (if steep then ssd1306_drawPixel W H (u32 y) (u32 x) c st
     else ssd1306_drawPixel W H (u32 x) (u32 y) c st)
    = plot_points W H c [if steep then (y, x) else (x, y)] st).
  { destruct steep; cbn [plot_points fold_left];
      rewrite drawPixel_int by lia; reflexivity. }
  rewrite Hplot.
  destruct (Z.ltb_spec (error - deltay) 0); rewrite IH by lia; reflexivity.
Qed.

End Lines.

Lemma gfx_abs_diff a b :
  0 <= a <= 65535 -> 0 <= b <= 65535 -> gfx_abs (s32 (a - b)) = Z.abs (a - b).
Proof.
  intros Ha Hb. rewrite (s32_id (a - b)) by lia. unfold gfx_abs.
  destruct (Z.ltb_spec (a - b) 0); [rewrite s32_id by lia|]; lia.
Qed.

Lemma half_range a : 0 <= a -> 0 <= a / 2 <= a.
Proof.
  intros Ha. pose proof (Z.div_mod a 2 ltac:(lia)).
  pose proof (Z.mod_pos_bound a 2 ltac:(lia)). lia.
Qed.

Lemma gfx_swap_exact z0 z1 : 0 <= z0 <= 65535 -> gfx_swap z0 z1 = (z1, z0).
Proof. intros Hz. unfold gfx_swap. rewrite u16_id by lia. reflexivity. Qed.

(** With all four coordinates in [0 .. 65535], where [gfx_swap] does not
    truncate, [ssd1306_drawLine] plots the points of the classic
    algorithm. *)
Lemma drawLine_classic_in_range W H x0 y0 x1 y1 c st :
  W <= 2^31 -> H <= 2^31 ->
  0 <= x0 <= 65535 -> 0 <= y0 <= 65535 -> 0 <= x1 <= 65535 -> 0 <= y1 <= 65535 ->
  ssd1306_drawLine W H x0 y0 x1 y1 c st
  = plot_points W H c (bresenham_points x0 y0 x1 y1) st.
Proof.
  intros HW HH Hx0 Hy0 Hx1 Hy1. unfold ssd1306_drawLine, bresenham_points.
  rewrite !gfx_abs_diff by lia.
  destruct (Z.gtb_spec (Z.abs (y1 - y0)) (Z.abs (x1 - x0))) as [Hs|Hs];
    cbv beta iota zeta.
  - rewrite !gfx_swap_exact by lia. cbv beta iota zeta.
    destruct (Z.gtb_spec y0 y1) as [Hg|Hg]; cbv beta iota zeta.
    + rewrite ?gfx_abs_diff by lia. rewrite (s32_id (y0 - y1)) by lia.
      rewrite !Z.quot_div_nonneg by lia.
      match goal with
      | |- context [?a / 2] => pose proof (half_range a ltac:(lia))
      end.
      apply line_loop_classic; auto; try lia.
      destruct (x1 <? x0); auto.
    + rewrite ?gfx_abs_diff by lia. rewrite (s32_id (y1 - y0)) by lia.
      rewrite !Z.quot_div_nonneg by lia.
      match goal with
      | |- context [?a / 2] => pose proof (half_range a ltac:(lia))
      end.
      apply line_loop_classic; auto; try lia.
      destruct (x0 <? x1); auto.
  - destruct (Z.gtb_spec x0 x1) as [Hg|Hg]; cbv beta iota zeta.
    + rewrite !gfx_swap_exact by lia. cbv beta iota zeta.
      rewrite gfx_abs_diff by lia. rewrite (s32_id (x0 - x1)) by lia.
      rewrite !Z.quot_div_nonneg by lia.
      match goal with
      | |- context [?a / 2] => pose proof (half_range a ltac:(lia))
      end.
      apply line_loop_classic; auto; try lia.
      destruct (y1 <? y0); auto.
    + rewrite ?gfx_abs_diff by lia. rewrite (s32_id (x1 - x0)) by lia.
      rewrite !Z.quot_div_nonneg by lia.
      match goal with
      | |- context [?a / 2] => pose proof (half_range a ltac:(lia))
      end.
      apply line_loop_classic; auto; try lia.
      destruct (y0 <? y1); auto.
Qed.

(** C5. The claim asks for the pixel set of the classic midpoint algorithm
    for all integer endpoints.  At [(-2, 0) - (3, 10)] the code plots
    nothing at all: the steep swap stores the negative [x0] through the
    [uint16_t] temporary of [gfx_swap] and the line starts at row 65534;
    the classic algorithm lights, among others, pixel [(0, 4)]. *)
Theorem drawLine_negative_start :
  ssd1306_drawLine 128 64 (-2) 0 3 10 1 (blank_fb 128 64) = blank_fb 128 64 /\
  gfx_swap (-2) 0 = (0, 65534) /\
  bresenham_points (-2) 0 3 10
  = [(-2, 0); (-2, 1); (-1, 2); (-1, 3); (0, 4); (0, 5); (1, 6); (1, 7);
     (2, 8); (2, 9); (3, 10)] /\
  pixel_at 128
    (plot_points 128 64 1 (bresenham_points (-2) 0 3 10) (blank_fb 128 64)) 0 4
  = true /\
  pixel_at 128 (ssd1306_drawLine 128 64 (-2) 0 3 10 1 (blank_fb 128 64)) 0 4
  = false.
Proof. repeat split; vm_compute; reflexivity. Qed.

(** * The claims at a concrete display

    The theorems above are instantiated on the stock 128 by 64 geometry
    with an empty framebuffer, their hypotheses being checked by
    computation. *)

Lemma refresh_sends_whole_buffer_witness :
  0 <= buffer_size 128 64 <= 2^32 - SSD1306_PSZ /\
  length (repeat 0 1024) = Z.to_nat (buffer_size 128 64) /\
  (Z.to_nat ((buffer_size 128 64 + SSD1306_PSZ - 1) / SSD1306_PSZ) < 40)%nat /\
  buffer_size 128 64 mod SSD1306_PSZ = 0 /\
  exists datas,
    ssd1306_refresh 128 64 0 40 (repeat 0 1024)
    = Some ([ ssd1306_cmd SSD1306_COLUMNADDR; ssd1306_cmd 0;
              ssd1306_cmd (0 + 128 - 1); ssd1306_cmd SSD1306_PAGEADDR;
              ssd1306_cmd 0; ssd1306_cmd 7 ] ++ datas) /\
    Z.of_nat (length datas)
    = (buffer_size 128 64 + SSD1306_PSZ - 1) / SSD1306_PSZ /\
    Forall (fun p => is_data p /\ Z.of_nat (length (payload p)) = SSD1306_PSZ)
      datas /\
    concat (map payload datas) = map Some (repeat 0 1024).
Proof.
  assert (H1 : 0 <= buffer_size 128 64 <= 2^32 - SSD1306_PSZ)
    by (vm_compute; split; discriminate).
  assert (H2 : length (repeat 0 1024) = Z.to_nat (buffer_size 128 64))
    by reflexivity.
  assert (H3 : (Z.to_nat ((buffer_size 128 64 + SSD1306_PSZ - 1) / SSD1306_PSZ)
                < 40)%nat) by (vm_compute; lia).
  assert (H4 : buffer_size 128 64 mod SSD1306_PSZ = 0) by reflexivity.
  refine (conj H1 (conj H2 (conj H3 (conj H4 _)))).
  destruct (refresh_sends_whole_buffer 128 64 0 40 (repeat 0 1024) H1 H2 H3)
    as (datas & E & L & _ & P).
  exists datas. exact (conj E (conj L (P H4))).
Defined.

Lemma geometry_128x64 : geometry_ok 128 64.
Proof. unfold geometry_ok. vm_compute. repeat split; discriminate. Defined.

Lemma blank_128x64_wf : fb_wf 128 64 (blank_fb 128 64).
Proof. reflexivity. Defined.

Lemma drawImage_mode_table_witness :
  geometry_ok 128 64 /\ fb_wf 128 64 (blank_fb 128 64) /\
  0 <= 32 < 2^32 /\ 0 <= 32 < 2^32 /\
  pixel_at 128
    (ssd1306_drawImage 128 64 0 0 solid_font 32 32 0 (blank_fb 128 64)) 8 0
  = Z.testbit (u8 (solid_font (u32 (3 + 0 * (32 / 8))))) 0.
Proof.
  assert (Hw : 0 <= 32 < 2^32) by lia.
  refine (conj geometry_128x64 (conj blank_128x64_wf (conj Hw (conj Hw _)))).
  destruct (drawImage_mode_table 128 64 (blank_fb 128 64) 0 0 solid_font 32 32 0
              geometry_128x64 blank_128x64_wf Hw Hw 8 0 ltac:(lia) ltac:(lia))
    as [T _].
  assert (R : forall l, 0 <= l <= 0 -> u32 (0 + l) < 64).
  { intros l Hl. replace l with 0 by lia. reflexivity. }
  assert (G : forall p', 0 <= p' <= 0 -> x_abs 0 (32 / 8) 3 p' < 128).
  { intros p' Hp. replace p' with 0 by lia. reflexivity. }
  pose proof (T 0 3 0 ltac:(lia) R ltac:(vm_compute; split; discriminate || reflexivity)
                ltac:(lia) G eq_refl eq_refl) as T0.
  cbv zeta in T0. destruct T0 as [T0 _]. exact (T0 eq_refl).
Defined.

Lemma drawImage_column_order_witness :
  geometry_ok 128 64 /\ fb_wf 128 64 (blank_fb 128 64) /\
  0 <= 32 < 2^32 /\ 0 <= 32 < 2^32 /\
  x_abs 0 (32 / 8) (32 / 8 - 1) 0 = 0 + 8 + 0.
Proof.
  assert (Hw : 0 <= 32 < 2^32) by lia.
  refine (conj geometry_128x64 (conj blank_128x64_wf (conj Hw (conj Hw _)))).
  pose proof (drawImage_column_order 128 64 (blank_fb 128 64) 0 0 solid_font
                32 32 0 geometry_128x64 blank_128x64_wf Hw Hw) as T.
  cbv zeta in T. destruct T as (_ & _ & T & _).
  apply T; lia.
Defined.

Lemma pixel_accessors_spec_witness :
  geometry_ok 128 64 /\ fb_wf 128 64 (blank_fb 128 64) /\ 0 <= 5 /\ 0 <= 10 /\
  (Z.testbit (buf_get (ssd1306_drawPixel 128 64 5 10 1 (blank_fb 128 64))
                (5 + 128 * (10 / 8))) (Z.land 10 7)
   = negb (1 =? 0)) /\
  ssd1306_drawPixel 128 64 128 10 1 (blank_fb 128 64) = blank_fb 128 64.
Proof.
  assert (H5 : 0 <= 5) by lia. assert (H10 : 0 <= 10) by lia.
  refine (conj geometry_128x64 (conj blank_128x64_wf (conj H5 (conj H10 _)))).
  split.
  - destruct (pixel_accessors_spec 128 64 (blank_fb 128 64) 5 10 1
                geometry_128x64 blank_128x64_wf H5 H10) as [T _].
    destruct (T ltac:(lia) ltac:(lia)) as [T1 _].
    rewrite (T1 (5 + 128 * (10 / 8)) (Z.land 10 7)
               ltac:(vm_compute; discriminate)
               ltac:(vm_compute; split; discriminate || reflexivity)).
    reflexivity.
  - destruct (pixel_accessors_spec 128 64 (blank_fb 128 64) 128 10 1
                geometry_128x64 blank_128x64_wf ltac:(lia) H10) as [_ T].
    destruct (T ltac:(lia)) as [T1 _]. exact T1.
Defined.


Lemma drawImage_skips_first_columns_witness :
  geometry_ok 128 64 /\ 0 <= 32 < 2^32 /\ 0 <= 32 < 2^32 /\
  exists new,
    stored (ssd1306_drawImage 128 64 0 0 solid_font 32 32 0 (blank_fb 128 64))
    = new ++ stored (blank_fb 128 64) /\
    (forall a, In a new ->
       forall k, 0 <= k <= 7 -> addr_column 128 a <> u32 (0 + k)) /\
    (exists a, In a new /\ addr_column 128 a = 0 + 8).
Proof.
  assert (Hw : 0 <= 32 < 2^32) by lia.
  refine (conj geometry_128x64 (conj Hw (conj Hw _))).
  destruct (drawImage_skips_first_columns 128 64 (blank_fb 128 64) 0 0 solid_font
              32 32 0 geometry_128x64 Hw Hw) as (new & E & N & _ & A).
  exists new. split; [exact E|]. split; [exact N|].
  apply A; lia.
Defined.

Lemma drawFastHLine_zero_width_witness :
  geometry_ok 128 64 /\ 128 < 2^32 /\ fb_wf 128 64 (blank_fb 128 64) /\
  0 <= 3 < 64 /\
  ssd1306_drawFastHLine 128 64 0 3 0 1 (blank_fb 128 64)
  = hline_loop 128 64 (Z.to_nat 128) 0 3 1 (blank_fb 128 64) /\
  (forall x, 1 <= x < 128 ->
     ssd1306_drawFastHLine 128 64 x 3 0 1 (blank_fb 128 64) = blank_fb 128 64).
Proof.
  assert (HW : 128 < 2^32) by lia. assert (Hy : 0 <= 3 < 64) by lia.
  refine (conj geometry_128x64 (conj HW (conj blank_128x64_wf (conj Hy _)))).
  destruct (drawFastHLine_zero_width 128 64 (blank_fb 128 64) 3 1
              geometry_128x64 HW blank_128x64_wf Hy) as (_ & E & _ & _ & N).
  exact (conj E N).
Defined.

Lemma stores_in_bounds_witness :
  geometry_ok 128 64 /\
  (forall x y, 0 <= x < 128 -> 0 <= y < 64 ->
     0 <= u32 (x + 128 * (y / 8)) < 128 * 64 / 8) /\
  stores_ext (fun a => 0 <= a < 128 * 64 / 8) (blank_fb 128 64)
    (ssd1306_drawImage 128 64 0 0 solid_font 32 32 0 (blank_fb 128 64)).
Proof.
  refine (conj geometry_128x64 _).
  pose proof (stores_in_bounds 128 64 solid_font (blank_fb 128 64)
                geometry_128x64) as T.
  cbv zeta in T. destruct T as (T1 & _ & _ & T4 & _).
  split; [exact T1|]. apply T4; lia.
Defined.

(** * Further properties of the driver *)

(** ** Pictures and their composition *)

Section Remaps.

Variables W H : Z.

Lemma remaps_id st : remaps W H (fun _ _ b => b) st st.
Proof. intros Hwf. split; auto. Qed.

Lemma remaps_seq (t1 t2 : pixmap) st st1 st2 :
  remaps W H t1 st st1 -> remaps W H t2 st1 st2 ->
  remaps W H (fun px py b => t2 px py (t1 px py b)) st st2.
Proof.
  intros R1 R2 Hwf. destruct (R1 Hwf) as [Hwf1 P1].
  destruct (R2 Hwf1) as [Hwf2 P2]. split; [exact Hwf2|].
  intros px py Hx Hy. rewrite P2, P1 by auto. reflexivity.
Qed.

Lemma remaps_ext (t t' : pixmap) st st' :
  (forall px py b, 0 <= px < W -> 0 <= py < H -> t px py b = t' px py b) ->
  remaps W H t st st' -> remaps W H t' st st'.
Proof.
  intros E R Hwf. destruct (R Hwf) as [Hwf' P]. split; [exact Hwf'|].
  intros px py Hx Hy. rewrite P, E by auto. reflexivity.
Qed.

(** Composition in the order the code runs, the later step first to fix
    the middle state. *)
Lemma remaps_then (t1 t2 t : pixmap) st st1 st2 :
  remaps W H t2 st1 st2 -> remaps W H t1 st st1 ->
  (forall px py b, 0 <= px < W -> 0 <= py < H ->
     t2 px py (t1 px py b) = t px py b) ->
  remaps W H t st st2.
Proof.
  intros R2 R1 E. eapply remaps_ext; [|eapply remaps_seq; eauto].
  exact E.
Qed.

End Remaps.

(** Case analysis on every comparison of the goal, then arithmetic. *)
Ltac region_cases :=
  repeat (match goal with
          | |- context [Z.eqb ?a ?b] => destruct (Z.eqb_spec a b)
          | |- context [Z.leb ?a ?b] => destruct (Z.leb_spec a b)
          | |- context [Z.ltb ?a ?b] => destruct (Z.ltb_spec a b)
          end; try lia);
  cbn [andb orb negb xorb]; try reflexivity; try lia.

Section PixelPictures.

Variables W H : Z.
Hypothesis Hgeo : geometry_ok W H.

Lemma xorPixel_pixel_at qx qy st px py :
  fb_wf W H st ->
  0 <= qx < W -> 0 <= qy < H -> 0 <= px < W -> 0 <= py < H ->
  pixel_at W (ssd1306_xorPixel W H qx qy st) px py =
  if decide (px = qx /\ py = qy)
  then negb (pixel_at W st px py) else pixel_at W st px py.
Proof.
  intros Hwf Hqx Hqy Hpx Hpy. rewrite (xorPixel_in W H Hgeo) by lia.
  pose proof (land7_range qy).
  rewrite (pixel_at_store W H Hgeo qx qy _ (negb (pixel_at W st qx qy))); auto.
  - case_decide as Hd; [|reflexivity]. destruct Hd as [-> ->]. reflexivity.
  - unfold pixel_at. rewrite xorPixel_byte_bits by lia. rewrite Z.eqb_refl.
    reflexivity.
  - intros k Hk Hne. rewrite xorPixel_byte_bits by lia.
    destruct (Z.eqb_spec (Z.land qy 7) k); [congruence | reflexivity].
Qed.

(** [ssd1306_drawPixel] as a picture, for any [uint32_t] coordinates. *)
Lemma drawPixel_remaps qx qy c st :
  0 <= qx -> 0 <= qy ->
  remaps W H (paint_pixel qx qy c) st (ssd1306_drawPixel W H qx qy c st).
Proof.
  intros Hqx Hqy Hwf. split; [apply (drawPixel_wf W H Hgeo); auto|].
  intros px py Hpx Hpy. unfold paint_pixel.
  destruct (Z.lt_ge_cases qx W) as [HxW|HxW];
    [destruct (Z.lt_ge_cases qy H) as [HyH|HyH]|].
  - rewrite (drawPixel_pixel_at W H Hgeo) by (auto; lia).
    case_decide; region_cases.
  - rewrite drawPixel_clip by lia. region_cases.
  - rewrite drawPixel_clip by lia. region_cases.
Qed.

(** [ssd1306_xorPixel] as a picture. *)
Lemma xorPixel_remaps qx qy st :
  0 <= qx -> 0 <= qy ->
  remaps W H (fun px py b => if (px =? qx) && (py =? qy) then negb b else b)
    st (ssd1306_xorPixel W H qx qy st).
Proof.
  intros Hqx Hqy Hwf. split; [apply (xorPixel_wf W H Hgeo); auto|].
  intros px py Hpx Hpy.
  destruct (Z.lt_ge_cases qx W) as [HxW|HxW];
    [destruct (Z.lt_ge_cases qy H) as [HyH|HyH]|].
  - rewrite xorPixel_pixel_at by (auto; lia).
    case_decide; region_cases.
  - rewrite xorPixel_clip by lia. region_cases.
  - rewrite xorPixel_clip by lia. region_cases.
Qed.

End PixelPictures.

(** ** Runs of pixels *)

Lemma u32_eqb_int p z :
  0 <= p < 2^31 -> - 2^31 <= z < 2^31 -> (p =? u32 z) = (p =? z).
Proof.
  intros Hp Hz. destruct (Z.le_gt_cases 0 z).
  - rewrite u32_id by lia. reflexivity.
  - assert (E : u32 z = z + 2^32).
    { unfold u32. symmetry. apply (Z.mod_unique z (2^32) (-1)); lia. }
    rewrite E. region_cases.
Qed.

Section Runs.

Variables W H : Z.
Hypothesis Hgeo : geometry_ok W H.

(** Plotting an [int] point: the negative coordinates are clipped like
    the large ones. *)
Lemma drawPixel_int_remaps x y c st :
  W <= 2^31 -> H <= 2^31 -> - 2^31 <= x < 2^31 -> - 2^31 <= y < 2^31 ->
  remaps W H (paint_pixel x y c) st
    (ssd1306_drawPixel W H (u32 x) (u32 y) c st).
Proof.
  intros HW HH Hx Hy.
  eapply remaps_ext;
    [|apply (drawPixel_remaps W H Hgeo); [apply (u32_range x) | apply (u32_range y)]].
  intros px py b Hpx Hpy. unfold paint_pixel.
  rewrite (u32_eqb_int px x), (u32_eqb_int py y) by lia. reflexivity.
Qed.

Lemma hline_loop_remaps n : forall x y c st,
  0 <= x -> x + Z.of_nat n <= 2^32 -> 0 <= y ->
  remaps W H
    (fun px py b =>
       if (py =? y) && (x <=? px) && (px <? x + Z.of_nat n)
       then negb (c =? 0) else b)
    st (hline_loop W H n x y c st).
Proof.
  induction n as [|n IH]; intros x y c st Hx Hn Hy.
  - eapply remaps_ext; [|apply remaps_id]. intros; region_cases.
  - cbn [hline_loop]. destruct (Nat.eq_dec n 0%nat) as [->|Hn0].
    + cbn [hline_loop].
      eapply remaps_ext; [|apply (drawPixel_remaps W H Hgeo x y c st); lia].
      intros px py b Hpx Hpy. unfold paint_pixel. region_cases.
    + rewrite (u32_id (x + 1)) by lia.
      eapply remaps_then;
        [apply IH; lia | apply (drawPixel_remaps W H Hgeo x y c st); lia|].
      intros px py b Hpx Hpy. unfold paint_pixel. region_cases.
Qed.

Lemma vline_loop_remaps n : forall x y c st,
  W <= 2^31 -> H <= 2^31 ->
  - 2^31 <= x < 2^31 -> - 2^31 <= y -> y + Z.of_nat n <= 2^31 ->
  remaps W H
    (fun px py b =>
       if (px =? x) && (y <=? py) && (py <? y + Z.of_nat n)
       then negb (c =? 0) else b)
    st (vline_loop W H n x y c st).
Proof.
  induction n as [|n IH]; intros x y c st HW HH Hx Hy Hn.
  - eapply remaps_ext; [|apply remaps_id]. intros; region_cases.
  - cbn [vline_loop]. destruct (Nat.eq_dec n 0%nat) as [->|Hn0].
    + cbn [vline_loop].
      eapply remaps_ext; [|apply (drawPixel_int_remaps x y c st); lia].
      intros px py b Hpx Hpy. unfold paint_pixel. region_cases.
    + rewrite (s32_id (y + 1)) by lia.
      eapply remaps_then;
        [apply IH; lia | apply (drawPixel_int_remaps x y c st); lia|].
      intros px py b Hpx Hpy. unfold paint_pixel. region_cases.
Qed.

(** [ssd1306_drawFastHLine] with at least one pixel asked for: the run
    [x .. x + w - 1] of row [y], cut at the right edge. *)
Lemma drawFastHLine_remaps x y w c st :
  0 <= x < W -> 0 <= y < H -> 1 <= w -> x + w <= 2^32 ->
  remaps W H
    (fun px py b =>
       if (py =? y) && (x <=? px) && (px <? x + w) then negb (c =? 0) else b)
    st (ssd1306_drawFastHLine W H x y w c st).
Proof.
  intros Hx Hy Hw Hnw. unfold ssd1306_drawFastHLine.
  destruct (Z.geb_spec x W); [lia|]. destruct (Z.geb_spec y H); [lia|].
  cbn [orb]. rewrite (u32_id (x + w - 1)) by lia.
  destruct (Z.geb_spec (x + w - 1) W).
  - rewrite (u32_id (W - x)) by lia.
    eapply remaps_ext; [|apply hline_loop_remaps; lia].
    intros px py b Hpx Hpy. rewrite Z2Nat.id by lia. region_cases.
  - eapply remaps_ext; [|apply hline_loop_remaps; lia].
    intros px py b Hpx Hpy. rewrite Z2Nat.id by lia. region_cases.
Qed.

(** [ssd1306_drawFastVLine]: the run [y .. y + h - 1] of column [x], cut
    at the bottom edge; the rows above the display are clipped. *)
Lemma drawFastVLine_remaps x y h c st :
  W <= 2^31 -> H <= 2^31 ->
  - 2^31 <= x < W -> - 2^31 < y < H -> 0 <= h < 2^31 -> y + h <= 2^31 ->
  remaps W H
    (fun px py b =>
       if (px =? x) && (y <=? py) && (py <? y + h) then negb (c =? 0) else b)
    st (ssd1306_drawFastVLine W H x y h c st).
Proof.
  intros HW HH Hx Hy Hh Hnw. unfold ssd1306_drawFastVLine.
  destruct (Z.geb_spec x W); [lia|]. destruct (Z.geb_spec y H); [lia|].
  cbn [orb]. rewrite (s32_id (y + h - 1)) by lia.
  destruct (Z.geb_spec (y + h - 1) H).
  - rewrite (s32_id (H - y)) by lia. rewrite (u32_id (H - y)) by lia.
    eapply remaps_ext; [|apply vline_loop_remaps; lia].
    intros px py b Hpx Hpy. rewrite Z2Nat.id by lia. region_cases.
  - rewrite (u32_id h) by lia.
    eapply remaps_ext; [|apply vline_loop_remaps; lia].
    intros px py b Hpx Hpy. rewrite Z2Nat.id by lia. region_cases.
Qed.

End Runs.

(** ** Rectangles *)

Section Rectangles.

Variables W H : Z.
Hypothesis Hgeo : geometry_ok W H.

Lemma fillRect_row_hline n : forall m y c st,
  fillRect_row W H n m y c st = hline_loop W H n m y c st.
Proof. induction n as [|n IH]; intros; cbn; [reflexivity | apply IH]. Qed.

Lemma fillRect_rows_remaps n : forall x y iw c st,
  0 <= x -> 0 <= iw -> x + iw <= 2^32 -> 0 <= y -> y + Z.of_nat n <= 2^32 ->
  remaps W H
    (fun px py b =>
       if in_rect x (x + iw) y (y + Z.of_nat n) px py then negb (c =? 0) else b)
    st (fillRect_rows W H n x y iw c st).
Proof.
  induction n as [|n IH]; intros x y iw c st Hx Hiw Hxw Hy Hn.
  - eapply remaps_ext; [|apply remaps_id].
    intros; unfold in_rect; region_cases.
  - cbn [fillRect_rows]. rewrite fillRect_row_hline.
    destruct (Nat.eq_dec n 0%nat) as [->|Hn0].
    + cbn [fillRect_rows].
      eapply remaps_ext; [|apply (hline_loop_remaps W H Hgeo); lia].
      intros px py b Hpx Hpy. rewrite Z2Nat.id by lia.
      unfold in_rect. region_cases.
    + rewrite (u32_id (y + 1)) by lia.
      eapply remaps_then;
        [apply IH; lia | apply (hline_loop_remaps W H Hgeo); lia|].
      intros px py b Hpx Hpy. rewrite Z2Nat.id by lia.
      unfold in_rect. region_cases.
Qed.

Lemma fillRect_rows_empty n : forall x y c st,
  fillRect_rows W H n x y 0 c st = st.
Proof. induction n as [|n IH]; intros; cbn; [reflexivity | apply IH]. Qed.

Lemma xorrect_row_remaps n : forall m y st,
  0 <= m -> m + Z.of_nat n <= 256 -> 0 <= y ->
  remaps W H
    (fun px py b =>
       if (py =? y) && (m <=? px) && (px <? m + Z.of_nat n) then negb b else b)
    st (xorrect_row W H n m y st).
Proof.
  induction n as [|n IH]; intros m y st Hm Hn Hy.
  - eapply remaps_ext; [|apply remaps_id]. intros; region_cases.
  - cbn [xorrect_row]. destruct (Nat.eq_dec n 0%nat) as [->|Hn0].
    + cbn [xorrect_row].
      eapply remaps_ext; [|apply (xorPixel_remaps W H Hgeo m y st); lia].
      intros px py b Hpx Hpy. region_cases.
    + rewrite (u8_id (m + 1)) by lia.
      eapply remaps_then;
        [apply IH; lia | apply (xorPixel_remaps W H Hgeo m y st); lia|].
      intros px py b Hpx Hpy. region_cases.
Qed.

Lemma xorrect_rows_remaps n : forall x y iw st,
  0 <= x -> 0 <= iw -> x + iw <= 256 -> 0 <= y -> y + Z.of_nat n <= 256 ->
  remaps W H
    (fun px py b =>
       if in_rect x (x + iw) y (y + Z.of_nat n) px py then negb b else b)
    st (xorrect_rows W H n x y iw st).
Proof.
  induction n as [|n IH]; intros x y iw st Hx Hiw Hxw Hy Hn.
  - eapply remaps_ext; [|apply remaps_id].
    intros; unfold in_rect; region_cases.
  - cbn [xorrect_rows]. destruct (Nat.eq_dec n 0%nat) as [->|Hn0].
    + cbn [xorrect_rows].
      eapply remaps_ext; [|apply xorrect_row_remaps; lia].
      intros px py b Hpx Hpy. rewrite Z2Nat.id by lia.
      unfold in_rect. region_cases.
    + rewrite (u8_id (y + 1)) by lia.
      eapply remaps_then; [apply IH; lia | apply xorrect_row_remaps; lia|].
      intros px py b Hpx Hpy. rewrite Z2Nat.id by lia.
      unfold in_rect. region_cases.
Qed.

(** The outline of a rectangle that lies on the display. *)
Lemma drawRect_remaps x y w h c st :
  W < 2^31 -> H < 2^31 ->
  0 <= x -> 0 <= y -> 1 <= w -> 1 <= h -> x + w <= W -> y + h <= H ->
  remaps W H
    (fun px py b =>
       if in_rect x (x + w) y (y + h) px py
          && ((px =? x) || (px =? x + w - 1) || (py =? y) || (py =? y + h - 1))
       then negb (c =? 0) else b)
    st (ssd1306_drawRect W H x y w h c st).
Proof.
  intros HW HH Hx Hy Hw Hh Hxw Hyh. unfold ssd1306_drawRect.
  rewrite (s32_id h), (s32_id (x + w - 1)), (u32_id x), (u32_id y),
    (u32_id (y + h - 1)) by lia.
  eapply remaps_then;
    [apply (drawFastHLine_remaps W H Hgeo); lia
    |eapply remaps_seq;
      [eapply remaps_seq;
        [apply (drawFastVLine_remaps W H Hgeo x y h c st); lia
        |apply (drawFastVLine_remaps W H Hgeo (x + w - 1) y h c); lia]
      |apply (drawFastHLine_remaps W H Hgeo x y w c); lia]
    |].
  intros px py b Hpx Hpy. cbv beta. unfold in_rect.
  destruct (c =? 0); cbn [negb]; region_cases.
Qed.

End Rectangles.

(** X1. [ssd1306_drawFastHLine] started off the display does nothing;
    started on it with [w >= 1] it paints the pixels [x .. x + w - 1] of
    row [y] that lie on the display, and no other pixel changes. *)
Theorem drawFastHLine_run (W H : Z) (st : fb_state) (x y w c : Z) :
  geometry_ok W H -> fb_wf W H st -> 0 <= x -> 0 <= y ->
  (W <= x \/ H <= y -> ssd1306_drawFastHLine W H x y w c st = st) /\
  (x < W -> y < H -> 1 <= w -> x + w <= 2^32 ->
   forall px py, 0 <= px < W -> 0 <= py < H ->
     pixel_at W (ssd1306_drawFastHLine W H x y w c st) px py =
     if (py =? y) && (x <=? px) && (px <? x + w)
     then negb (c =? 0) else pixel_at W st px py).
Proof.
  intros Hgeo Hwf Hx Hy. split.
  - intros Hc. unfold ssd1306_drawFastHLine.
    destruct (Z.geb_spec x W); [reflexivity|].
    destruct (Z.geb_spec y H); [reflexivity | lia].
  - intros HxW HyH Hw Hnw.
    destruct (drawFastHLine_remaps W H Hgeo x y w c st
                ltac:(lia) ltac:(lia) Hw Hnw Hwf) as [_ P].
    exact P.
Qed.

(** X2. [ssd1306_drawFastVLine] started right of or below the display
    does nothing, and so does a height of 0; otherwise it paints the
    pixels [y .. y + h - 1] of column [x] that lie on the display, a start
    above the display (negative [y]) being clipped pixel by pixel. *)
Theorem drawFastVLine_run (W H : Z) (st : fb_state) (x y h c : Z) :
  geometry_ok W H -> fb_wf W H st -> W <= 2^31 -> H <= 2^31 ->
  - 2^31 <= x < 2^31 -> - 2^31 < y < 2^31 ->
  (W <= x \/ H <= y -> ssd1306_drawFastVLine W H x y h c st = st) /\
  (x < W -> y < H -> ssd1306_drawFastVLine W H x y 0 c st = st) /\
  (x < W -> y < H -> 0 <= h < 2^31 -> y + h <= 2^31 ->
   forall px py, 0 <= px < W -> 0 <= py < H ->
     pixel_at W (ssd1306_drawFastVLine W H x y h c st) px py =
     if (px =? x) && (y <=? py) && (py <? y + h)
     then negb (c =? 0) else pixel_at W st px py).
Proof.
  intros Hgeo Hwf HW HH Hx Hy. split; [|split].
  - intros Hc. unfold ssd1306_drawFastVLine.
    destruct (Z.geb_spec x W); [reflexivity|].
    destruct (Z.geb_spec y H); [reflexivity | lia].
  - intros HxW HyH. unfold ssd1306_drawFastVLine.
    destruct (Z.geb_spec x W); [lia|]. destruct (Z.geb_spec y H); [lia|].
    cbn [orb]. rewrite (s32_id (y + 0 - 1)) by lia.
    destruct (Z.geb_spec (y + 0 - 1) H); [lia|]. reflexivity.
  - intros HxW HyH Hh Hnw.
    destruct (drawFastVLine_remaps W H Hgeo x y h c st HW HH
                ltac:(lia) ltac:(lia) Hh Hnw Hwf) as [_ P].
    exact P.
Qed.

(** X3. [ssd1306_fillRect] paints exactly the pixels of the rectangle
    [[x, x + w) x [y, y + h)] that lie on the display; with a width or a
    height of 0 it does nothing at all. *)
Theorem fillRect_paints_rectangle (W H : Z) (st : fb_state) (x y w h c : Z) :
  geometry_ok W H -> fb_wf W H st ->
  0 <= x -> 0 <= y -> 0 <= w <= 255 -> 0 <= h ->
  x + w <= 2^32 -> y + h <= 2^32 ->
  (forall px py, 0 <= px < W -> 0 <= py < H ->
     pixel_at W (ssd1306_fillRect W H x y w h c st) px py =
     if in_rect x (x + w) y (y + h) px py
     then negb (c =? 0) else pixel_at W st px py) /\
  (w = 0 \/ h = 0 -> ssd1306_fillRect W H x y w h c st = st).
Proof.
  intros Hgeo Hwf Hx Hy Hw Hh Hxw Hyh. split.
  - destruct (fillRect_rows_remaps W H Hgeo (Z.to_nat h) x y w c st
                Hx ltac:(lia) Hxw Hy ltac:(lia) Hwf) as [_ P].
    rewrite Z2Nat.id in P by lia. exact P.
  - intros [-> | ->]; unfold ssd1306_fillRect.
    + apply fillRect_rows_empty.
    + reflexivity.
Qed.

(** X5. For a rectangle of at least one pixel in each direction that lies
    on the display, [ssd1306_drawRect] paints exactly its four edges. *)
Theorem drawRect_paints_outline (W H : Z) (st : fb_state) (x y w h c : Z) :
  geometry_ok W H -> fb_wf W H st -> W < 2^31 -> H < 2^31 ->
  0 <= x -> 0 <= y -> 1 <= w -> 1 <= h -> x + w <= W -> y + h <= H ->
  forall px py, 0 <= px < W -> 0 <= py < H ->
    pixel_at W (ssd1306_drawRect W H x y w h c st) px py =
    if in_rect x (x + w) y (y + h) px py
       && ((px =? x) || (px =? x + w - 1) || (py =? y) || (py =? y + h - 1))
    then negb (c =? 0) else pixel_at W st px py.
Proof.
  intros Hgeo Hwf HW HH Hx Hy Hw Hh Hxw Hyh.
  destruct (drawRect_remaps W H Hgeo x y w h c st HW HH Hx Hy Hw Hh Hxw Hyh Hwf)
    as [_ P].
  exact P.
Qed.

(** ** From pictures back to bytes *)

Section Stable.

Variables W H : Z.
Variable I : fb_state -> Prop.
Hypothesis I_set : forall a v st, I st -> I (buf_set a v st).

Lemma drawPixel_keeps x y c st : I st -> I (ssd1306_drawPixel W H x y c st).
Proof.
  intros HI. unfold ssd1306_drawPixel.
  destruct (x >=? W); auto. destruct (y >=? H); auto.
  cbv zeta. destruct (negb (c =? 0)); auto.
Qed.

Lemma xorPixel_keeps x y st : I st -> I (ssd1306_xorPixel W H x y st).
Proof.
  intros HI. unfold ssd1306_xorPixel.
  destruct (x >=? W); auto. destruct (y >=? H); auto.
Qed.

Lemma xorrect_row_keeps n : forall m y st, I st -> I (xorrect_row W H n m y st).
Proof.
  induction n as [|n IH]; intros; cbn [xorrect_row]; auto using xorPixel_keeps.
Qed.

Lemma xorrect_rows_keeps n : forall x y iw st,
  I st -> I (xorrect_rows W H n x y iw st).
Proof.
  induction n as [|n IH]; intros; cbn [xorrect_rows]; auto using xorrect_row_keeps.
Qed.

Lemma image_store_keeps mode vm ipx a st :
  I st -> I (image_store mode vm ipx a st).
Proof.
  intros HI. unfold image_store.
  destruct mode as [|[[p|[p|p|]|]|[p|[p|p|]|]|]|p]; auto.
Qed.

Lemma image_pixels_keeps n : forall pixel x ya btd byte ib vm mode st,
  I st -> I (image_pixels W n pixel x ya btd byte ib vm mode st).
Proof.
  induction n as [|n IH]; intros; cbn [image_pixels]; auto.
  cbv zeta. destruct (_ >=? _); auto using image_store_keeps.
Qed.

Lemma image_bytes_keeps n : forall byte input x ya btd line vm mode st,
  I st -> I (image_bytes W n byte input x ya btd line vm mode st).
Proof.
  induction n as [|n IH]; intros; cbn [image_bytes]; auto using image_pixels_keeps.
Qed.

Lemma image_lines_keeps n : forall line input x y btd mode st,
  I st -> I (image_lines W H n line input x y btd mode st).
Proof.
  induction n as [|n IH]; intros; cbn [image_lines]; auto.
  cbv zeta. destruct (_ >=? _); auto using image_bytes_keeps.
Qed.

Lemma memset_buf_keeps n : forall i v st, I st -> I (memset_buf n i v st).
Proof. induction n as [|n IH]; intros; cbn [memset_buf]; auto. Qed.

End Stable.

Lemma buf_set_bytes a v st : fb_bytes st -> fb_bytes (buf_set a v st).
Proof.
  unfold fb_bytes, buf_set. cbn [ssd1306_buffer]. intros Hb.
  apply Forall_insert; [exact Hb|]. pose proof (u8_range v). lia.
Qed.

Lemma blank_fb_bytes W H : fb_bytes (blank_fb W H).
Proof.
  unfold fb_bytes, blank_fb. cbn [ssd1306_buffer].
  apply List.Forall_forall. intros b Hb. apply repeat_spec in Hb. lia.
Qed.

Section Bytes.

Variables W H : Z.
Hypothesis Hgeo : geometry_ok W H.

(** Two framebuffers of bytes that show the same picture are equal. *)
Lemma buffer_ext st1 st2 :
  fb_wf W H st1 -> fb_wf W H st2 -> fb_bytes st1 -> fb_bytes st2 ->
  (forall px py, 0 <= px < W -> 0 <= py < H ->
     pixel_at W st1 px py = pixel_at W st2 px py) ->
  ssd1306_buffer st1 = ssd1306_buffer st2.
Proof.
  intros Hw1 Hw2 Hb1 Hb2 HP. apply list_eq. intros i.
  destruct (Nat.lt_ge_cases i (length (ssd1306_buffer st1))) as [Hi|Hi].
  2: { rewrite !lookup_ge_None_2; auto. rewrite Hw2, <- Hw1. exact Hi. }
  destruct (lookup_lt_is_Some_2 _ _ Hi) as [b1 E1].
  assert (Hi2 : (i < length (ssd1306_buffer st2))%nat) by (rewrite Hw2, <- Hw1; exact Hi).
  destruct (lookup_lt_is_Some_2 _ _ Hi2) as [b2 E2].
  rewrite E1, E2. f_equal.
  pose proof (proj1 (List.Forall_forall _ _) Hb1 b1
                (proj1 (list_elem_of_In _ _) (list_elem_of_lookup_2 _ _ _ E1))) as R1.
  pose proof (proj1 (List.Forall_forall _ _) Hb2 b2
                (proj1 (list_elem_of_In _ _) (list_elem_of_lookup_2 _ _ _ E2))) as R2.
  cbv beta in R1, R2.
  apply Z.bits_inj'. intros k Hk.
  destruct (Z.lt_ge_cases k 8) as [Hk8|Hk8].
  2: { rewrite <- (u8_id b1), <- (u8_id b2) by lia.
       rewrite !testbit_u8_high by lia. reflexivity. }
  destruct Hgeo as (HW & HH & Hm & Hsz).
  pose proof (buffer_size_pages W H Hgeo) as Ep.
  unfold fb_wf in Hw1. rewrite Ep in Hw1.
  set (a := Z.of_nat i).
  assert (Ha : 0 <= a < W * (H / 8)).
  { assert (0 <= H / 8) by (apply Z.div_pos; lia). subst a. nia. }
  pose proof (Z.div_mod a W ltac:(lia)) as Ea.
  pose proof (Z.mod_pos_bound a W ltac:(lia)) as Hr.
  pose proof (Z.div_mod H 8 ltac:(lia)) as EH. rewrite Hm in EH.
  assert (Hq : 0 <= a / W < H / 8).
  { split; [apply Z.div_pos; lia|]. apply Z.div_lt_upper_bound; lia. }
  set (px := a mod W) in *. set (py := 8 * (a / W) + k).
  assert (Hpy8 : py / 8 = a / W).
  { subst py. symmetry. apply (Z.div_unique _ 8 _ k); lia. }
  assert (Hpym : Z.land py 7 = k).
  { rewrite land7_mod8. subst py. symmetry.
    apply (Z.mod_unique _ 8 (a / W) k); lia. }
  specialize (HP px py ltac:(lia) ltac:(subst py; lia)).
  unfold pixel_at, pixel_addr in HP. rewrite Hpy8, Hpym in HP.
  replace (px + W * (a / W)) with a in HP by lia.
  unfold buf_get in HP. subst a. rewrite Nat2Z.id in HP.
  rewrite E1, E2 in HP. exact HP.
Qed.

End Bytes.

(** X4. [ssd1306_xorrect] inverts exactly the pixels of the rectangle
    [[x, x + w) x [y, y + h)] that lie on the display, and a second call
    with the same arguments restores the framebuffer byte for byte. *)
Theorem xorrect_inverts_rectangle (W H : Z) (st : fb_state) (x y w h : Z) :
  geometry_ok W H -> fb_wf W H st -> fb_bytes st ->
  0 <= x -> 0 <= y -> 0 <= w -> 0 <= h -> x + w <= 256 -> y + h <= 256 ->
  (forall px py, 0 <= px < W -> 0 <= py < H ->
     pixel_at W (ssd1306_xorrect W H x y w h st) px py
     = if in_rect x (x + w) y (y + h) px py
       then negb (pixel_at W st px py) else pixel_at W st px py) /\
  ssd1306_buffer (ssd1306_xorrect W H x y w h (ssd1306_xorrect W H x y w h st))
  = ssd1306_buffer st.
Proof.
  intros Hgeo Hwf Hby Hx Hy Hw Hh Hxw Hyh.
  assert (R : forall s, remaps W H
                (fun px py b =>
                   if in_rect x (x + w) y (y + h) px py then negb b else b)
                s (ssd1306_xorrect W H x y w h s)).
  { intros s. unfold ssd1306_xorrect.
    eapply remaps_ext; [|apply (xorrect_rows_remaps W H Hgeo); lia].
    intros qx qy b _ _. rewrite Z2Nat.id by lia. reflexivity. }
  destruct (R st Hwf) as [Hwf1 P1]. destruct (R _ Hwf1) as [Hwf2 P2].
  split; [exact P1|].
  apply (buffer_ext W H Hgeo); auto.
  - unfold ssd1306_xorrect.
    do 2 apply (xorrect_rows_keeps W H fb_bytes buf_set_bytes). exact Hby.
  - intros px py Hpx Hpy. rewrite P2, P1 by auto.
    destruct (in_rect x (x + w) y (y + h) px py);
      [apply negb_involutive | reflexivity].
Qed.

(** ** Blits compared *)

Lemma mode_bit_idem mode s d :
  mode_bit mode s (mode_bit mode s d) = mode_bit mode s d.
Proof.
  unfold mode_bit.
  destruct mode as [|[[p|[p|p|]|]|[p|[p|p|]|]|]|p]; destruct s, d; reflexivity.
Qed.

Lemma invert_bitmap_bit input i p :
  0 <= p < 8 ->
  Z.testbit (u8 (invert_bitmap input i)) p = negb (Z.testbit (u8 (input i)) p).
Proof.
  intros Hp. unfold invert_bitmap. rewrite !testbit_u8 by lia.
  apply Z.lnot_spec. lia.
Qed.

Lemma lines_hit_invert W H x y btd height input px py s :
  lines_hit W H x y btd height (invert_bitmap input) 0 px py s <->
  lines_hit W H x y btd height input 0 px py (negb s).
Proof.
  unfold lines_hit, bytes_hit, pixels_hit. split.
  - intros (l & Hl & Hr & b & Hb & p & Hp & Hg & Ex & Ey & Es).
    exists l. split; [exact Hl|]. split; [exact Hr|].
    exists b. split; [exact Hb|]. exists p. repeat split; auto; try lia.
    rewrite Es, invert_bitmap_bit by lia. apply negb_involutive.
  - intros (l & Hl & Hr & b & Hb & p & Hp & Hg & Ex & Ey & Es).
    exists l. split; [exact Hl|]. split; [exact Hr|].
    exists b. split; [exact Hb|]. exists p. repeat split; auto; try lia.
    rewrite invert_bitmap_bit by lia. rewrite <- Es.
    symmetry. apply negb_involutive.
Qed.

(** X6. Blitting the same bitmap twice with [ssd1306_drawImage], under
    any mode, leaves the framebuffer as the first blit left it. *)
Theorem drawImage_idempotent (W H : Z) (st : fb_state) (x y : Z)
    (input : Z -> Z) (width height mode : Z) :
  geometry_ok W H -> fb_wf W H st -> fb_bytes st ->
  0 <= width < 2^32 -> 0 <= height < 2^32 ->
  let blit := ssd1306_drawImage W H x y input width height mode in
  ssd1306_buffer (blit (blit st)) = ssd1306_buffer (blit st).
Proof.
  intros Hgeo Hwf Hby Hw Hh blit. subst blit.
  assert (Hwf1 : fb_wf W H (ssd1306_drawImage W H x y input width height mode st)).
  { unfold ssd1306_drawImage. apply (image_lines_wf W H). exact Hwf. }
  assert (Hby1 : fb_bytes (ssd1306_drawImage W H x y input width height mode st)).
  { unfold ssd1306_drawImage.
    apply (image_lines_keeps W H fb_bytes buf_set_bytes). exact Hby. }
  apply (buffer_ext W H Hgeo); auto.
  - unfold ssd1306_drawImage at 1. apply (image_lines_wf W H). exact Hwf1.
  - unfold ssd1306_drawImage at 1.
    apply (image_lines_keeps W H fb_bytes buf_set_bytes). exact Hby1.
  - intros px py Hpx Hpy.
    destruct (drawImage_blit W H st x y input width height mode Hgeo Hwf Hw Hh
                px py Hpx Hpy) as [Bh1 Bn1].
    destruct (drawImage_blit W H _ x y input width height mode Hgeo Hwf1 Hw Hh
                px py Hpx Hpy) as [Bh2 Bn2].
    match goal with |- ?a = ?b => destruct (bool_dec a b) as [E|N] end;
      [exact E | exfalso].
    apply N. apply Bn2. intros s Hs. apply N.
    rewrite (Bh2 s Hs), (Bh1 s Hs). apply mode_bit_idem.
Qed.

(** X7. The inverted modes of [ssd1306_drawImage] are the plain modes on
    the bitmap with every bit flipped: mode 1 is mode 0, mode 4 is mode 3
    and mode 5 is mode 2 of the inverted bitmap. *)
Theorem drawImage_inverted_modes (W H : Z) (st : fb_state) (x y : Z)
    (input : Z -> Z) (width height : Z) :
  geometry_ok W H -> fb_wf W H st -> fb_bytes st ->
  0 <= width < 2^32 -> 0 <= height < 2^32 ->
  forall m m', (m, m') = (1, 0) \/ (m, m') = (4, 3) \/ (m, m') = (5, 2) ->
    ssd1306_buffer (ssd1306_drawImage W H x y input width height m st)
    = ssd1306_buffer
        (ssd1306_drawImage W H x y (invert_bitmap input) width height m' st).
Proof.
  intros Hgeo Hwf Hby Hw Hh m m' Hm.
  assert (Hmode : forall s d, mode_bit m s d = mode_bit m' (negb s) d).
  { intros s d.
    destruct Hm as [E|[E|E]]; injection E as -> ->; destruct s, d; reflexivity. }
  apply (buffer_ext W H Hgeo);
    try (unfold ssd1306_drawImage; apply (image_lines_wf W H); exact Hwf);
    try (unfold ssd1306_drawImage;
         apply (image_lines_keeps W H fb_bytes buf_set_bytes); exact Hby).
  intros px py Hpx Hpy.
  destruct (drawImage_blit W H st x y input width height m Hgeo Hwf Hw Hh
              px py Hpx Hpy) as [Bh1 Bn1].
  destruct (drawImage_blit W H st x y (invert_bitmap input) width height m'
              Hgeo Hwf Hw Hh px py Hpx Hpy) as [Bh2 Bn2].
  match goal with |- ?a = ?b => destruct (bool_dec a b) as [E|N] end;
    [exact E | exfalso].
  assert (Hno : forall s, ~ lines_hit W H x y (width / 8) height input 0 px py s).
  { intros s Hs. apply N. rewrite (Bh1 s Hs).
    rewrite (Bh2 (negb s)).
    - apply Hmode.
    - apply lines_hit_invert. rewrite negb_involutive. exact Hs. }
  apply N. rewrite (Bn1 Hno). symmetry. apply Bn2.
  intros s Hs. apply lines_hit_invert in Hs. exact (Hno _ Hs).
Qed.

Section ImageNoOps.

Variables W H : Z.

Lemma image_pixels_other_mode n : forall pixel x ya btd byte ib vm mode st,
  ~ (0 <= mode <= 5) ->
  image_pixels W n pixel x ya btd byte ib vm mode st = st.
Proof.
  induction n as [|n IH]; intros; cbn [image_pixels]; [reflexivity|].
  cbv zeta. destruct (_ >=? _); [reflexivity|].
  rewrite image_store_other by assumption. apply IH. assumption.
Qed.

Lemma image_bytes_other_mode n : forall byte input x ya btd line vm mode st,
  ~ (0 <= mode <= 5) ->
  image_bytes W n byte input x ya btd line vm mode st = st.
Proof.
  induction n as [|n IH]; intros; cbn [image_bytes]; [reflexivity|].
  cbv zeta. rewrite image_pixels_other_mode by assumption. apply IH. assumption.
Qed.

Lemma image_lines_other_mode n : forall line input x y btd mode st,
  ~ (0 <= mode <= 5) ->
  image_lines W H n line input x y btd mode st = st.
Proof.
  induction n as [|n IH]; intros; cbn [image_lines]; [reflexivity|].
  cbv zeta. destruct (_ >=? _); [reflexivity|].
  rewrite image_bytes_other_mode by assumption. apply IH. assumption.
Qed.

Lemma image_lines_no_bytes n : forall line input x y mode st,
  image_lines W H n line input x y 0 mode st = st.
Proof.
  induction n as [|n IH]; intros; cbn [image_lines]; [reflexivity|].
  cbv zeta. destruct (_ >=? _); [reflexivity|]. cbn [Z.to_nat image_bytes].
  apply IH.
Qed.

End ImageNoOps.

(** X8. [ssd1306_drawImage] does nothing at all, not even a store, when
    the width is below 8 (no whole byte-group), when the height is 0, when
    the first row is already at or below the bottom edge, or when the mode
    is none of 0 .. 5. *)
Theorem drawImage_no_ops (W H : Z) (st : fb_state) (x y : Z)
    (input : Z -> Z) (width height mode : Z) :
  (0 <= width < 8 -> ssd1306_drawImage W H x y input width height mode st = st) /\
  (height = 0 -> ssd1306_drawImage W H x y input width height mode st = st) /\
  (H <= u32 y -> ssd1306_drawImage W H x y input width height mode st = st) /\
  (~ (0 <= mode <= 5) ->
   ssd1306_drawImage W H x y input width height mode st = st).
Proof.
  unfold ssd1306_drawImage. repeat split.
  - intros Hw. rewrite (Z.div_small width 8) by lia. apply image_lines_no_bytes.
  - intros ->. reflexivity.
  - intros Hy. destruct (Z.to_nat height) as [|n]; [reflexivity|].
    cbn [image_lines]. cbv zeta. rewrite Z.add_0_r.
    destruct (Z.geb_spec (u32 y) H); [reflexivity | lia].
  - intros Hm. apply image_lines_other_mode. exact Hm.
Qed.

(** ** The pixel accessors composed *)

Section PixelAlgebra.

Variables W H : Z.
Hypothesis Hgeo : geometry_ok W H.

Lemma drawPixel_bytes x y c st :
  fb_bytes st -> fb_bytes (ssd1306_drawPixel W H x y c st).
Proof. apply (drawPixel_keeps W H fb_bytes buf_set_bytes). Qed.

Lemma xorPixel_bytes x y st :
  fb_bytes st -> fb_bytes (ssd1306_xorPixel W H x y st).
Proof. apply (xorPixel_keeps W H fb_bytes buf_set_bytes). Qed.

End PixelAlgebra.

(** X9. On one pixel the later [ssd1306_drawPixel] wins; two
    [ssd1306_drawPixel] calls on different pixels can be swapped; and
    [ssd1306_xorPixel] applied twice restores the framebuffer. *)
Theorem pixel_accessors_compose (W H : Z) (st : fb_state)
    (x1 y1 x2 y2 c1 c2 : Z) :
  geometry_ok W H -> fb_wf W H st -> fb_bytes st ->
  0 <= x1 -> 0 <= y1 -> 0 <= x2 -> 0 <= y2 ->
  let dp := ssd1306_drawPixel W H in
  let xp := ssd1306_xorPixel W H in
  ssd1306_buffer (dp x1 y1 c2 (dp x1 y1 c1 st)) = ssd1306_buffer (dp x1 y1 c2 st) /\
  (x1 <> x2 \/ y1 <> y2 ->
   ssd1306_buffer (dp x1 y1 c1 (dp x2 y2 c2 st))
   = ssd1306_buffer (dp x2 y2 c2 (dp x1 y1 c1 st))) /\
  ssd1306_buffer (xp x1 y1 (xp x1 y1 st)) = ssd1306_buffer st.
Proof.
  intros Hgeo Hwf Hby Hx1 Hy1 Hx2 Hy2 dp xp. subst dp xp.
  pose proof (fun x y c s Hx Hy => drawPixel_remaps W H Hgeo x y c s Hx Hy) as D.
  pose proof (fun x y s Hx Hy => xorPixel_remaps W H Hgeo x y s Hx Hy) as X.
  destruct (D x1 y1 c1 st Hx1 Hy1 Hwf) as [Wa Pa].
  destruct (D x1 y1 c2 st Hx1 Hy1 Hwf) as [Wb Pb].
  destruct (D x2 y2 c2 st Hx2 Hy2 Hwf) as [Wc Pc].
  destruct (D x1 y1 c2 _ Hx1 Hy1 Wa) as [Wd Pd].
  destruct (D x1 y1 c1 _ Hx1 Hy1 Wc) as [We Pe].
  destruct (D x2 y2 c2 _ Hx2 Hy2 Wa) as [Wf Pf].
  destruct (X x1 y1 st Hx1 Hy1 Hwf) as [Wg Pg].
  destruct (X x1 y1 _ Hx1 Hy1 Wg) as [Wh Ph].
  split; [|split].
  - apply (buffer_ext W H Hgeo); auto using drawPixel_bytes.
    intros px py Hpx Hpy. rewrite Pd, Pa, Pb by auto.
    unfold paint_pixel. region_cases.
  - intros Hne. apply (buffer_ext W H Hgeo); auto using drawPixel_bytes.
    intros px py Hpx Hpy. rewrite Pe, Pc, Pf, Pa by auto.
    unfold paint_pixel. region_cases.
  - apply (buffer_ext W H Hgeo); auto using xorPixel_bytes.
    intros px py Hpx Hpy. rewrite Ph, Pg by auto.
    destruct ((px =? x1) && (py =? y1)); [apply negb_involutive | reflexivity].
Qed.

(** ** Buffer fill *)

Lemma lookup_repeat {A} (x : A) n i : (i < n)%nat -> repeat x n !! i = Some x.
Proof.
  revert i. induction n as [|n IH]; intros i Hi; [lia|].
  destruct i as [|i]; [reflexivity|]. cbn. apply IH. lia.
Qed.

Lemma memset_buf_spec n : forall l1 l2 log v,
  (n <= length l2)%nat ->
  ssd1306_buffer
    (memset_buf n (Z.of_nat (length l1)) v
       {| ssd1306_buffer := l1 ++ l2; stored := log |})
  = l1 ++ repeat (u8 v) n ++ skipn n l2.
Proof.
  induction n as [|n IH]; intros l1 l2 log v Hn; [reflexivity|].
  destruct l2 as [|b l2]; [cbn in Hn; lia|].
  cbn [memset_buf]. unfold buf_set at 1. cbn [ssd1306_buffer stored].
  rewrite Nat2Z.id.
  rewrite insert_app_r_alt by lia. rewrite Nat.sub_diag. cbn [insert list_insert].
  replace (l1 ++ u8 v :: l2) with ((l1 ++ [u8 v]) ++ l2)
    by (rewrite <- app_assoc; reflexivity).
  replace (Z.of_nat (length l1) + 1) with (Z.of_nat (length (l1 ++ [u8 v])))
    by (rewrite length_app; cbn; lia).
  rewrite IH by (cbn in Hn; lia).
  rewrite <- app_assoc. reflexivity.
Qed.

(** X10. [ssd1306_setbuf] overwrites the whole framebuffer, whatever was
    in it: every byte becomes [0xFF] for a nonzero colour and [0x00] for
    colour 0, so every pixel of the display shows the colour. *)
Theorem setbuf_fills (W H : Z) (st : fb_state) (color : Z) :
  geometry_ok W H -> fb_wf W H st ->
  ssd1306_buffer (ssd1306_setbuf W H color st)
  = repeat (if color =? 0 then 0x00 else 0xFF) (Z.to_nat (buffer_size W H)) /\
  forall px py, 0 <= px < W -> 0 <= py < H ->
    pixel_at W (ssd1306_setbuf W H color st) px py = negb (color =? 0).
Proof.
  intros Hgeo Hwf.
  assert (E : ssd1306_buffer (ssd1306_setbuf W H color st)
              = repeat (if color =? 0 then 0x00 else 0xFF)
                  (Z.to_nat (buffer_size W H))).
  { unfold ssd1306_setbuf. destruct st as [buf log].
    unfold fb_wf in Hwf. cbn [ssd1306_buffer] in Hwf.
    pose proof (memset_buf_spec (Z.to_nat (buffer_size W H)) [] buf log
                  (if negb (color =? 0) then 0xFF else 0x00) ltac:(lia)) as M.
    cbn [length app] in M. change (Z.of_nat 0) with 0 in M. rewrite M.
    rewrite skipn_all2 by lia. rewrite app_nil_r.
    destruct (color =? 0); reflexivity. }
  split; [exact E|].
  intros px py Hpx Hpy. unfold pixel_at, buf_get. rewrite E.
  pose proof (pixel_addr_bound W H Hgeo px py Hpx Hpy) as Ha.
  rewrite lookup_repeat by lia. cbn [default from_option].
  pose proof (land7_range py).
  destruct (color =? 0); cbn [negb].
  - apply Z.bits_0.
  - apply testbit_255. lia.
Qed.

(** ** Axis-aligned lines *)

Section FlatLines.

Variables W H : Z.
Hypothesis Hgeo : geometry_ok W H.

(** With [deltay = 0] the error term never goes negative and the loop
    runs straight. *)
Lemma line_loop_flat n : forall (steep : bool) x y error deltax ystep c st,
  0 <= x -> x + Z.of_nat n <= 2^31 -> 0 <= y < 2^31 -> 0 <= error < 2^31 ->
  remaps W H
    (fun px py b =>
       if (if steep then (px =? y) && (x <=? py) && (py <? x + Z.of_nat n)
           else (py =? y) && (x <=? px) && (px <? x + Z.of_nat n))
       then negb (c =? 0) else b)
    st (line_loop W H n steep x y error deltax 0 ystep c st).
Proof.
  induction n as [|n IH]; intros steep x y error deltax ystep c st Hx Hn Hy He.
  - eapply remaps_ext; [|apply remaps_id].
    intros; destruct steep; region_cases.
  - cbn [line_loop]. cbv zeta. rewrite Z.sub_0_r, (s32_id error) by lia.
    destruct (Z.ltb_spec error 0); [lia|].
    rewrite (u32_id x), (u32_id y) by lia.
    destruct (Nat.eq_dec n 0%nat) as [->|Hn0].
    + cbn [line_loop]. destruct steep.
      * eapply remaps_ext; [|apply (drawPixel_remaps W H Hgeo y x c st); lia].
        intros px py b Hpx Hpy. unfold paint_pixel. region_cases.
      * eapply remaps_ext; [|apply (drawPixel_remaps W H Hgeo x y c st); lia].
        intros px py b Hpx Hpy. unfold paint_pixel. region_cases.
    + rewrite (s32_id (x + 1)) by lia. destruct steep.
      * eapply remaps_then;
          [apply IH; lia | apply (drawPixel_remaps W H Hgeo y x c st); lia|].
        intros px py b Hpx Hpy. unfold paint_pixel. region_cases.
      * eapply remaps_then;
          [apply IH; lia | apply (drawPixel_remaps W H Hgeo x y c st); lia|].
        intros px py b Hpx Hpy. unfold paint_pixel. region_cases.
Qed.

Lemma drawLine_horizontal x0 x1 y c st :
  0 <= x0 <= 65535 -> 0 <= x1 <= 65535 -> 0 <= y <= 65535 ->
  remaps W H
    (fun px py b =>
       if (py =? y) && (Z.min x0 x1 <=? px) && (px <=? Z.max x0 x1)
       then negb (c =? 0) else b)
    st (ssd1306_drawLine W H x0 y x1 y c st).
Proof.
  intros Hx0 Hx1 Hy. unfold ssd1306_drawLine.
  rewrite !gfx_abs_diff by lia. rewrite Z.sub_diag.
  destruct (Z.gtb_spec (Z.abs 0) (Z.abs (x1 - x0))) as [Hs|Hs]; [lia|].
  cbv beta iota zeta.
  destruct (Z.gtb_spec x0 x1) as [Hg|Hg]; cbv beta iota zeta.
  - rewrite !gfx_swap_exact by lia. cbv beta iota zeta.
    rewrite Z.sub_diag. change (gfx_abs (s32 0)) with 0.
    rewrite (s32_id (x0 - x1)) by lia.
    rewrite Z.quot_div_nonneg by lia.
    pose proof (half_range (x0 - x1) ltac:(lia)).
    eapply remaps_ext; [|apply line_loop_flat; lia].
    intros px py b Hpx Hpy. cbv beta iota. rewrite Z2Nat.id by lia. region_cases.
  - rewrite Z.sub_diag. change (gfx_abs (s32 0)) with 0.
    rewrite (s32_id (x1 - x0)) by lia.
    rewrite Z.quot_div_nonneg by lia.
    pose proof (half_range (x1 - x0) ltac:(lia)).
    eapply remaps_ext; [|apply line_loop_flat; lia].
    intros px py b Hpx Hpy. cbv beta iota. rewrite Z2Nat.id by lia. region_cases.
Qed.

Lemma drawLine_vertical x y0 y1 c st :
  0 <= x <= 65535 -> 0 <= y0 <= 65535 -> 0 <= y1 <= 65535 -> y0 <> y1 ->
  remaps W H
    (fun px py b =>
       if (px =? x) && (Z.min y0 y1 <=? py) && (py <=? Z.max y0 y1)
       then negb (c =? 0) else b)
    st (ssd1306_drawLine W H x y0 x y1 c st).
Proof.
  intros Hx Hy0 Hy1 Hne. unfold ssd1306_drawLine.
  rewrite !gfx_abs_diff by lia. rewrite Z.sub_diag.
  destruct (Z.gtb_spec (Z.abs (y1 - y0)) (Z.abs 0)) as [Hs|Hs]; [|lia].
  cbv beta iota zeta. rewrite !gfx_swap_exact by lia. cbv beta iota zeta.
  destruct (Z.gtb_spec y0 y1) as [Hg|Hg]; cbv beta iota zeta.
  - rewrite Z.sub_diag. change (gfx_abs (s32 0)) with 0.
    rewrite (s32_id (y0 - y1)) by lia.
    rewrite Z.quot_div_nonneg by lia.
    pose proof (half_range (y0 - y1) ltac:(lia)).
    eapply remaps_ext; [|apply line_loop_flat; lia].
    intros px py b Hpx Hpy. cbv beta iota. rewrite Z2Nat.id by lia. region_cases.
  - rewrite Z.sub_diag. change (gfx_abs (s32 0)) with 0.
    rewrite (s32_id (y1 - y0)) by lia.
    rewrite Z.quot_div_nonneg by lia.
    pose proof (half_range (y1 - y0) ltac:(lia)).
    eapply remaps_ext; [|apply line_loop_flat; lia].
    intros px py b Hpx Hpy. cbv beta iota. rewrite Z2Nat.id by lia. region_cases.
Qed.

End FlatLines.

(** X11. With coordinates in [0 .. 65535], a horizontal
    [ssd1306_drawLine] paints exactly the pixels of its row between the
    two ends, in either direction, and a vertical one exactly the pixels
    of its column; a line from a point to itself paints that one pixel. *)
Theorem drawLine_axis_aligned (W H : Z) (st : fb_state) (a0 a1 k c : Z) :
  geometry_ok W H -> fb_wf W H st ->
  0 <= a0 <= 65535 -> 0 <= a1 <= 65535 -> 0 <= k <= 65535 ->
  forall px py, 0 <= px < W -> 0 <= py < H ->
    pixel_at W (ssd1306_drawLine W H a0 k a1 k c st) px py
    = (if (py =? k) && (Z.min a0 a1 <=? px) && (px <=? Z.max a0 a1)
       then negb (c =? 0) else pixel_at W st px py) /\
    pixel_at W (ssd1306_drawLine W H k a0 k a1 c st) px py
    = (if (px =? k) && (Z.min a0 a1 <=? py) && (py <=? Z.max a0 a1)
       then negb (c =? 0) else pixel_at W st px py) /\
    pixel_at W (ssd1306_drawLine W H a0 k a0 k c st) px py
    = (if (px =? a0) && (py =? k)
       then negb (c =? 0) else pixel_at W st px py).
Proof.
  intros Hgeo Hwf Ha0 Ha1 Hk px py Hpx Hpy.
  destruct (drawLine_horizontal W H Hgeo a0 a1 k c st Ha0 Ha1 Hk Hwf) as [_ Ph].
  destruct (drawLine_horizontal W H Hgeo a0 a0 k c st Ha0 Ha0 Hk Hwf) as [_ Pp].
  split; [apply Ph; auto|]. split.
  - destruct (Z.eq_dec a0 a1) as [<-|Hne].
    + destruct (drawLine_horizontal W H Hgeo k k a0 c st Hk Hk Ha0 Hwf) as [_ Pq].
      rewrite Pq by auto. region_cases.
    + destruct (drawLine_vertical W H Hgeo k a0 a1 c st Hk Ha0 Ha1 Hne Hwf)
        as [_ Pv].
      apply Pv; auto.
  - rewrite Pp by auto. region_cases.
Qed.

(** X12. With all four coordinates in [0 .. 65535] (and a display no
    larger than [2^31] in either direction), [ssd1306_drawLine] plots
    exactly the points of the classic Bresenham algorithm, in the same
    order, each through [ssd1306_drawPixel]. *)
Theorem drawLine_refines_classic (W H : Z) (st : fb_state)
    (x0 y0 x1 y1 c : Z) :
  W <= 2^31 -> H <= 2^31 ->
  0 <= x0 <= 65535 -> 0 <= y0 <= 65535 -> 0 <= x1 <= 65535 -> 0 <= y1 <= 65535 ->
  ssd1306_drawLine W H x0 y0 x1 y1 c st
  = plot_points W H c (bresenham_points x0 y0 x1 y1) st.
Proof. apply drawLine_classic_in_range. Qed.

(** ** Glyphs *)

Lemma glyph_col_pixel d color :
  negb (glyph_col d color =? 0) = glyph_pixel (Z.testbit d 7) color.
Proof.
  unfold glyph_col, glyph_pixel.
  assert (E : negb (Z.land d 128 =? 0) = Z.testbit d 7).
  { destruct (Z.testbit d 7) eqn:Hb.
    - apply negb_true_iff, Z.eqb_neq. intros E0.
      assert (Hc : Z.testbit (Z.land d 128) 7 = true).
      { rewrite Z.land_spec, Hb. reflexivity. }
      rewrite E0, Z.bits_0 in Hc. discriminate.
    - apply negb_false_iff, Z.eqb_eq. apply Z.bits_inj'. intros k Hk.
      rewrite Z.bits_0, Z.land_spec.
      change 128 with (2^7). rewrite (Z.pow2_bits_eqb 7) by lia.
      destruct (Z.eqb_spec 7 k); [subst; rewrite Hb|]; auto using andb_false_r. }
  rewrite E. reflexivity.
Qed.

Lemma shifted_font_bit d k :
  1 <= k < 8 -> Z.testbit (u8 (Z.shiftl d 1)) k = Z.testbit d (k - 1).
Proof.
  intros Hk. rewrite testbit_u8 by lia. apply Z.shiftl_spec. lia.
Qed.

Section Glyphs.

Variables W H : Z.
Hypothesis Hgeo : geometry_ok W H.
Variable fontdata : Z -> Z.

(** One row of a glyph: the font byte is shown most significant bit
    first. *)
Lemma drawchar_cols_remaps n : forall j x y i d c st,
  0 <= x <= 255 -> 0 <= y <= 255 -> 0 <= i < 8 -> 0 <= j -> j + Z.of_nat n <= 8 ->
  remaps W H
    (fun px py b =>
       if (py =? y + i) && (x + j <=? px) && (px <? x + j + Z.of_nat n)
       then glyph_pixel (Z.testbit d (7 - (px - (x + j)))) c else b)
    st (drawchar_cols W H n j x y i d c st).
Proof.
  induction n as [|n IH]; intros j x y i d c st Hx Hy Hi Hj Hn.
  - eapply remaps_ext; [|apply remaps_id]. intros; region_cases.
  - cbn [drawchar_cols]. cbv zeta.
    rewrite (u32_id (x + j)), (u32_id (y + i)) by lia.
    eapply remaps_then;
      [apply (IH (j + 1)); lia
      |apply (drawPixel_remaps W H Hgeo (x + j) (y + i)); lia|].
    intros px py b Hpx Hpy. unfold paint_pixel. rewrite glyph_col_pixel.
    destruct (Z.eqb_spec py (y + i)); cbn [andb]; [|region_cases].
    destruct (Z.eqb_spec px (x + j)) as [->|Hne]; cbn [andb].
    + destruct (Z.leb_spec (x + (j + 1)) (x + j)); [lia|]. cbn [andb].
      destruct (Z.leb_spec (x + j) (x + j)); [|lia].
      destruct (Z.ltb_spec (x + j) (x + j + Z.of_nat (S n))); [|lia].
      cbn [andb]. do 2 f_equal. lia.
    + destruct (Z.leb_spec (x + (j + 1)) px);
        destruct (Z.ltb_spec px (x + (j + 1) + Z.of_nat n));
        destruct (Z.leb_spec (x + j) px);
        destruct (Z.ltb_spec px (x + j + Z.of_nat (S n)));
        cbn [andb]; try reflexivity; try lia.
      f_equal. rewrite shifted_font_bit by lia. f_equal. lia.
Qed.

Lemma drawchar_rows_remaps n : forall i x y chr c st,
  0 <= x <= 255 -> 0 <= y <= 255 -> 0 <= i -> i + Z.of_nat n <= 8 ->
  remaps W H
    (fun px py b =>
       if in_rect x (x + 8) (y + i) (y + i + Z.of_nat n) px py
       then glyph_pixel
              (Z.testbit (u8 (fontdata (Z.shiftl chr 3 + (py - y))))
                 (7 - (px - x))) c
       else b)
    st (drawchar_rows W H fontdata n i x y chr c st).
Proof.
  induction n as [|n IH]; intros i x y chr c st Hx Hy Hi Hn.
  - eapply remaps_ext; [|apply remaps_id].
    intros; unfold in_rect; region_cases.
  - cbn [drawchar_rows]. cbv zeta.
    eapply remaps_then;
      [apply (IH (i + 1)); lia
      |apply (drawchar_cols_remaps 8 0 x y i); lia|].
    intros px py b Hpx Hpy. unfold in_rect. cbv beta.
    change (Z.of_nat 8) with 8. rewrite !Z.add_0_r.
    destruct (Z.eqb_spec py (y + i)) as [->|Hne]; cbn [andb].
    + replace (y + i - y) with i by lia. region_cases.
    + region_cases.
Qed.

Lemma drawchar_remaps x y chr c st :
  0 <= x <= 255 -> 0 <= y <= 255 ->
  remaps W H
    (fun px py b =>
       if in_rect x (x + 8) y (y + 8) px py
       then glyph_pixel
              (Z.testbit (u8 (fontdata (Z.shiftl chr 3 + (py - y))))
                 (7 - (px - x))) c
       else b)
    st (ssd1306_drawchar W H fontdata x y chr c st).
Proof.
  intros Hx Hy. unfold ssd1306_drawchar.
  eapply remaps_ext; [|apply (drawchar_rows_remaps 8 0); lia].
  intros px py b _ _. cbv beta. change (Z.of_nat 8) with 8.
  rewrite !Z.add_0_r. reflexivity.
Qed.

(** A string only ever touches the eight rows of its text line. *)
Lemma drawstr_band str : forall x y c st,
  0 <= x <= 255 -> 0 <= y <= 255 -> fb_wf W H st ->
  fb_wf W H (ssd1306_drawstr W H fontdata x y str c st) /\
  forall px py, 0 <= px < W -> 0 <= py < H -> ~ (y <= py < y + 8) ->
    pixel_at W (ssd1306_drawstr W H fontdata x y str c st) px py
    = pixel_at W st px py.
Proof.
  induction str as [|ch str IH]; intros x y c st Hx Hy Hwf; [split; auto|].
  cbn [ssd1306_drawstr]. cbv zeta.
  destruct (u8 ch =? 0); [split; auto|].
  destruct (drawchar_remaps x y (u8 ch) c st Hx Hy Hwf) as [Hwf1 P1].
  assert (F1 : forall px py, 0 <= px < W -> 0 <= py < H -> ~ (y <= py < y + 8) ->
            pixel_at W (ssd1306_drawchar W H fontdata x y (u8 ch) c st) px py
            = pixel_at W st px py).
  { intros px py Hpx Hpy Hout. rewrite P1 by auto. unfold in_rect. region_cases. }
  destruct (_ >? 120); [split; auto|].
  pose proof (u8_range (x + 8)) as Hr.
  destruct (IH (u8 (x + 8)) y c _ ltac:(lia) Hy Hwf1) as [Hwf2 P2].
  split; [exact Hwf2|].
  intros px py Hpx Hpy Hout. rewrite P2, F1 by auto. reflexivity.
Qed.

End Glyphs.

(** X13. [ssd1306_drawchar] fills the 8 by 8 cell at [(x, y)] and nothing
    else: row [i] of the cell shows byte [fontdata[(chr << 3) + i]] most
    significant bit first, a set bit in the colour and a clear bit in the
    inverse of the colour's low bit, so the background of the cell is
    always painted. *)
Theorem drawchar_cell (W H : Z) (fontdata : Z -> Z) (st : fb_state)
    (x y chr c : Z) :
  geometry_ok W H -> fb_wf W H st -> 0 <= x <= 255 -> 0 <= y <= 255 ->
  (forall px py, 0 <= px < W -> 0 <= py < H ->
     pixel_at W (ssd1306_drawchar W H fontdata x y chr c st) px py =
     if in_rect x (x + 8) y (y + 8) px py
     then glyph_pixel
            (Z.testbit (u8 (fontdata (Z.shiftl chr 3 + (py - y)))) (7 - (px - x)))
            c
     else pixel_at W st px py) /\
  (forall bit, glyph_pixel bit 1 = bit /\ glyph_pixel bit 0 = negb bit).
Proof.
  intros Hgeo Hwf Hx Hy. split.
  - destruct (drawchar_remaps W H Hgeo fontdata x y chr c st Hx Hy Hwf) as [_ P].
    exact P.
  - intros []; split; reflexivity.
Qed.

(** X14. An [ssd1306_drawstr] call changes no pixel outside the eight
    rows [y .. y + 7] of its text line, whatever the string and the start
    column; and the bytes after the first NUL of the string are never
    looked at. *)
Theorem drawstr_stays_on_its_line (W H : Z) (fontdata : Z -> Z)
    (st : fb_state) (x y c : Z) (str rest : list Z) :
  geometry_ok W H -> fb_wf W H st -> 0 <= x <= 255 -> 0 <= y <= 255 ->
  (forall px py, 0 <= px < W -> 0 <= py < H -> ~ (y <= py < y + 8) ->
     pixel_at W (ssd1306_drawstr W H fontdata x y str c st) px py
     = pixel_at W st px py) /\
  ssd1306_drawstr W H fontdata x y (str ++ 0 :: rest) c st
  = ssd1306_drawstr W H fontdata x y str c st.
Proof.
  intros Hgeo Hwf Hx Hy. split.
  - apply (drawstr_band W H Hgeo fontdata str x y c st Hx Hy Hwf).
  - clear Hwf Hx. revert x st.
    induction str as [|ch str IH]; intros x st; [reflexivity|].
    cbn [app ssd1306_drawstr]. cbv zeta.
    destruct (u8 ch =? 0); [reflexivity|].
    destruct (_ >? 120); [reflexivity|]. apply IH.
Qed.

Section ScaleOne.

Variables W H : Z.
Variable fontdata : Z -> Z.

Lemma drawchar_sz_cols_one n : forall j x y i d c st,
  drawchar_sz_cols W H n j x y i d c 1 st = drawchar_cols W H n j x y i d c st.
Proof.
  induction n as [|n IH]; intros; [reflexivity|].
  cbn [drawchar_sz_cols drawchar_cols]. cbv zeta.
  change (Z.to_nat 1) with 1%nat. cbn [scaled_k].
  change (Z.to_nat 1) with 1%nat. cbn [scaled_l].
  rewrite !Z.mul_1_r, !Z.add_0_r. apply IH.
Qed.

Lemma drawchar_sz_rows_one n : forall i x y chr c st,
  drawchar_sz_rows W H fontdata n i x y chr c 1 st
  = drawchar_rows W H fontdata n i x y chr c st.
Proof.
  induction n as [|n IH]; intros; [reflexivity|].
  cbn [drawchar_sz_rows drawchar_rows]. cbv zeta.
  rewrite drawchar_sz_cols_one. apply IH.
Qed.

End ScaleOne.

(** X15. At font size [fontsize_8x8] the scaled routines are the plain
    ones: [ssd1306_drawchar_sz] is [ssd1306_drawchar] and
    [ssd1306_drawstr_sz] is [ssd1306_drawstr], store for store. *)
Theorem scale_one_is_unscaled (W H : Z) (fontdata : Z -> Z) (st : fb_state)
    (x y chr c : Z) (str : list Z) :
  ssd1306_drawchar_sz W H fontdata x y chr c fontsize_8x8 st
  = ssd1306_drawchar W H fontdata x y chr c st /\
  ssd1306_drawstr_sz W H fontdata x y str c fontsize_8x8 st
  = ssd1306_drawstr W H fontdata x y str c st.
Proof.
  assert (E : forall x y chr c st,
            ssd1306_drawchar_sz W H fontdata x y chr c fontsize_8x8 st
            = ssd1306_drawchar W H fontdata x y chr c st).
  { intros. unfold ssd1306_drawchar_sz, ssd1306_drawchar.
    change (u8 (font_size_val fontsize_8x8)) with 1.
    apply drawchar_sz_rows_one. }
  split; [apply E|].
  revert x st. induction str as [|ch str IH]; intros x st; [reflexivity|].
  cbn [ssd1306_drawstr_sz ssd1306_drawstr]. cbv zeta.
  destruct (u8 ch =? 0); [reflexivity|].
  rewrite E. change (8 * font_size_val fontsize_8x8) with 8.
  change (128 - 8) with 120.
  destruct (_ >? 120); [reflexivity|]. apply IH.
Qed.

(** ** Transfers of any size *)

(** X16. Whatever the buffer size, [ssd1306_refresh] sends its six
    commands and then [ceil (size / 32)] data packets of exactly 32 bytes
    each.  Their payloads are the framebuffer in order, followed, when 32
    does not divide the size, by the [32 * ceil (size / 32) - size] bytes
    the last packet fetches from beyond the end of [ssd1306_buffer]. *)
Theorem refresh_reads_whole_packets (W H OFFSET : Z) (fuel : nat)
    (buf : list Z) :
  0 <= buffer_size W H <= 2^32 - 32 ->
  length buf = Z.to_nat (buffer_size W H) ->
  let n := (buffer_size W H + SSD1306_PSZ - 1) / SSD1306_PSZ in
  (Z.to_nat n < fuel)%nat ->
  exists datas,
    ssd1306_refresh W H OFFSET fuel buf
    = Some ([ ssd1306_cmd SSD1306_COLUMNADDR; ssd1306_cmd OFFSET;
              ssd1306_cmd (OFFSET + W - 1); ssd1306_cmd SSD1306_PAGEADDR;
              ssd1306_cmd 0; ssd1306_cmd 7 ] ++ datas) /\
    Z.of_nat (length datas) = n /\
    Forall (fun p => is_data p /\ length (payload p) = 32%nat) datas /\
    concat (map payload datas)
    = map Some buf
      ++ repeat None (Z.to_nat (SSD1306_PSZ * n - buffer_size W H)).
Proof.
  intros Hsize Hlen n Hfuel. subst n. unfold SSD1306_PSZ in *.
  set (sz := buffer_size W H) in *.
  pose proof (Z.div_mod (sz + 32 - 1) 32 ltac:(lia)) as Ed.
  pose proof (Z.mod_pos_bound (sz + 32 - 1) 32 ltac:(lia)) as Hm.
  set (n := (sz + 32 - 1) / 32) in *.
  assert (Hn : 0 <= n) by (subst n; apply Z.div_pos; lia).
  destruct (refresh_loop_any W H buf (Z.to_nat n) fuel 0)
    as (datas & E & L & F & C); try (fold sz; lia).
  exists datas. unfold ssd1306_refresh. rewrite E.
  split; [reflexivity|]. split; [lia|]. split; [exact F|].
  rewrite C. change (Z.to_nat 0) with 0%nat.
  replace (32 * Z.to_nat n)%nat
    with (length buf + Z.to_nat (32 * n - sz))%nat by lia.
  apply lookup_all.
Qed.

(** ** Initialization *)

Lemma refresh_returns (W H OFFSET : Z) (fuel : nat) (buf : list Z) :
  0 <= buffer_size W H <= 2^32 - 32 ->
  (Z.to_nat ((buffer_size W H + 31) / 32) < fuel)%nat ->
  exists pkts, ssd1306_refresh W H OFFSET fuel buf = Some pkts.
Proof.
  intros Hsize Hfuel.
  set (sz := buffer_size W H) in *.
  pose proof (Z.div_mod (sz + 31) 32 ltac:(lia)) as Ed.
  pose proof (Z.mod_pos_bound (sz + 31) 32 ltac:(lia)) as Hm.
  set (n := (sz + 31) / 32) in *.
  assert (Hn : 0 <= n) by (subst n; apply Z.div_pos; lia).
  destruct (refresh_loop_any W H buf (Z.to_nat n) fuel 0)
    as (datas & E & _); try (fold sz; lia).
  unfold ssd1306_refresh. rewrite E. eexists. reflexivity.
Qed.

Section InitWalk.

Variable bus : list packet -> packet -> Z.

Lemma acknowledged_head tr c cmds :
  acknowledged bus tr (c :: cmds) 0 <-> u8 (bus tr (ssd1306_cmd c)) = 0.
Proof.
  unfold acknowledged, sent_after. cbn [firstn map nth].
  rewrite app_nil_r. reflexivity.
Qed.

Lemma acknowledged_tail tr c cmds j :
  acknowledged bus tr (c :: cmds) (S j)
  <-> acknowledged bus (tr ++ [ssd1306_cmd c]) cmds j.
Proof.
  unfold acknowledged, sent_after. cbn [firstn map nth].
  rewrite <- app_assoc. reflexivity.
Qed.

Lemma init_cmds_walk cmds : forall tr tail,
  Forall (fun c => c <> SSD1306_TERMINATE_CMDS) cmds ->
  (forall k, (k < length cmds)%nat ->
     (forall j, (j < k)%nat -> acknowledged bus tr cmds j) ->
     ~ acknowledged bus tr cmds k ->
     init_cmds bus (cmds ++ SSD1306_TERMINATE_CMDS :: tail) tr
     = Some (true, tr ++ sent_after cmds (S k))) /\
  ((forall j, (j < length cmds)%nat -> acknowledged bus tr cmds j) ->
   init_cmds bus (cmds ++ SSD1306_TERMINATE_CMDS :: tail) tr
   = Some (false, tr ++ sent_after cmds (length cmds))).
Proof.
  induction cmds as [|c cmds IH]; intros tr tail HF.
  - split.
    + intros k Hk. cbn in Hk. lia.
    + intros _. cbn. rewrite app_nil_r. reflexivity.
  - inversion HF as [|? ? Hc HF']; subst.
    destruct (IH (tr ++ [ssd1306_cmd c]) tail HF') as [IHa IHb].
    cbn [app init_cmds].
    destruct (Z.eqb_spec c SSD1306_TERMINATE_CMDS) as [|_]; [contradiction|].
    unfold ssd1306_cmd_send.
    split.
    + intros k Hk Hbefore Hk'. destruct k as [|k].
      * rewrite acknowledged_head in Hk'.
        destruct (Z.eqb_spec (u8 (bus tr (ssd1306_cmd c))) 0); [contradiction|].
        cbn [negb]. reflexivity.
      * pose proof (Hbefore 0%nat ltac:(lia)) as H0.
        rewrite acknowledged_head in H0. rewrite H0. cbn [Z.eqb negb].
        rewrite IHa with (k := k).
        -- unfold sent_after. cbn [firstn map].
           rewrite <- app_assoc. reflexivity.
        -- cbn in Hk. lia.
        -- intros j Hj. apply acknowledged_tail. apply Hbefore. lia.
        -- intros A. apply Hk'. apply acknowledged_tail. exact A.
    + intros Hall.
      pose proof (Hall 0%nat ltac:(cbn; lia)) as H0.
      rewrite acknowledged_head in H0. rewrite H0. cbn [Z.eqb negb].
      rewrite IHb.
      * unfold sent_after. cbn [length firstn map].
        rewrite <- app_assoc. reflexivity.
      * intros j Hj. apply acknowledged_tail. apply Hall. cbn. lia.
Qed.

End InitWalk.

(** X17. [ssd1306_init] on an init array whose first terminator follows
    the commands [cmds]: when the bus refuses command [k] after
    acknowledging the ones before, the call returns 1 having made exactly
    [k + 1] transactions, with no refresh and [display_cmdbuffer]
    untouched; when every command is acknowledged, it sends them all,
    copies [cmd_array] over the head of [display_cmdbuffer], refreshes and
    returns 0 whatever the bus answers during the refresh.  In both cases
    the framebuffer is the cleared one. *)
Theorem init_stops_at_first_refusal (W H OFFSET : Z)
    (bus : list packet -> packet -> Z) (cmds tail : list Z) (fuel : nat)
    (tr : list packet) (st : fb_state) (display_cmdbuffer : list Z) :
  Forall (fun c => c <> SSD1306_TERMINATE_CMDS) cmds ->
  0 <= buffer_size W H <= 2^32 - 32 ->
  (Z.to_nat ((buffer_size W H + 31) / 32) < fuel)%nat ->
  let arr := cmds ++ SSD1306_TERMINATE_CMDS :: tail in
  (forall k, (k < length cmds)%nat ->
     (forall j, (j < k)%nat -> acknowledged bus tr cmds j) ->
     ~ acknowledged bus tr cmds k ->
     ssd1306_init W H OFFSET bus arr fuel tr st display_cmdbuffer
     = Some {| init_status := 1;
               init_trace := tr ++ sent_after cmds (S k);
               init_fb := ssd1306_setbuf W H 0 st;
               init_cmdbuffer := display_cmdbuffer |}) /\
  ((forall j, (j < length cmds)%nat -> acknowledged bus tr cmds j) ->
   exists pkts,
     ssd1306_refresh W H OFFSET fuel
       (ssd1306_buffer (ssd1306_setbuf W H 0 st)) = Some pkts /\
     ssd1306_init W H OFFSET bus arr fuel tr st display_cmdbuffer
     = Some {| init_status := 0;
               init_trace := tr ++ sent_after cmds (length cmds) ++ pkts;
               init_fb := ssd1306_setbuf W H 0 st;
               init_cmdbuffer :=
                 cmd_array W OFFSET ++ skipn 13 display_cmdbuffer |}).
Proof.
  intros HF Hsize Hfuel arr. subst arr.
  destruct (init_cmds_walk bus cmds tr tail HF) as [Wa Wb].
  split.
  - intros k Hk Hbefore Hk'. unfold ssd1306_init.
    rewrite (Wa k Hk Hbefore Hk'). reflexivity.
  - intros Hall.
    destruct (refresh_returns W H OFFSET fuel
                (ssd1306_buffer (ssd1306_setbuf W H 0 st)) Hsize Hfuel)
      as [pkts E].
    exists pkts. split; [exact E|].
    unfold ssd1306_init. rewrite (Wb Hall), E.
    rewrite <- app_assoc. reflexivity.
Qed.

(** ** The stock initialization arrays *)

(** X18. Every stock [ssd1306_init_array] (any combination of the build
    switches) ends with its only terminator, after 34 commands for the
    SH1107, 24 for the SSD1327 and 25 otherwise, so the walk of
    [ssd1306_init] stays inside the array and sends them all; for the
    SH1107 this needs the multiplex byte [SSD1306_H - 1] to differ from
    [0xFF].  On a SH1107 build with a height of 256 rows (mod 256) that
    byte is the terminator: the walk stops after 11 commands and the
    display is never switched on. *)
Theorem init_array_terminated (fl : build_flags) (H : Z) :
  ((SH1107 fl = true -> u8 (H - 1) <> SSD1306_TERMINATE_CMDS) ->
   exists cmds,
     ssd1306_init_array fl H = cmds ++ [SSD1306_TERMINATE_CMDS] /\
     Forall (fun c => c <> SSD1306_TERMINATE_CMDS) cmds /\
     length cmds = (if SH1107 fl then 34 else if SSD1327 fl then 24 else 25)%nat /\
     List.last cmds 0 = SSD1306_DISPLAYON) /\
  (SH1107 fl = true -> u8 (H - 1) = SSD1306_TERMINATE_CMDS ->
   exists cmds tail,
     ssd1306_init_array fl H = cmds ++ SSD1306_TERMINATE_CMDS :: tail /\
     Forall (fun c => c <> SSD1306_TERMINATE_CMDS) cmds /\
     length cmds = 11%nat /\
     ~ In SSD1306_DISPLAYON cmds).
Proof.
  destruct fl as [sh a b c d]. cbn [SH1107 SSD1327].
  split.
  - intros Hm. destruct sh.
    + specialize (Hm eq_refl).
      exists (removelast (ssd1306_init_array
                {| SH1107 := true; SSD1306_64X32 := a; SSD1306_72X40 := b;
                   SSD1306_128X32 := c; SSD1327 := d |} H)).
      unfold ssd1306_init_array. cbn [SH1107 map removelast].
      split; [reflexivity|]. split; [|split; reflexivity].
      repeat constructor; try exact Hm; try (vm_compute; discriminate).
    + exists (removelast (ssd1306_init_array
                {| SH1107 := false; SSD1306_64X32 := a; SSD1306_72X40 := b;
                   SSD1306_128X32 := c; SSD1327 := d |} H)).
      destruct a, b, c, d; (split; [reflexivity|]);
        (split; [|split; reflexivity]);
        repeat constructor; vm_compute; discriminate.
  - intros -> Hm.
    exists (firstn 11 (ssd1306_init_array
              {| SH1107 := true; SSD1306_64X32 := a; SSD1306_72X40 := b;
                 SSD1306_128X32 := c; SSD1327 := d |} H)).
    exists (skipn 12 (ssd1306_init_array
              {| SH1107 := true; SSD1306_64X32 := a; SSD1306_72X40 := b;
                 SSD1306_128X32 := c; SSD1327 := d |} H)).
    unfold ssd1306_init_array. cbn [SH1107 map firstn skipn app].
    rewrite Hm. split; [reflexivity|]. split; [|split; [reflexivity|]].
    + repeat constructor; vm_compute; discriminate.
    + cbn [In]. vm_compute. intuition discriminate.
Qed.

(** ** Circles as pictures *)

Section PaintsIn.

Variables W H : Z.

Lemma paints_in_refl R c st : paints_in W H R c st st.
Proof. intros Hwf. split; auto. Qed.

Lemma paints_in_trans R c st st1 st2 :
  paints_in W H R c st st1 -> paints_in W H R c st1 st2 ->
  paints_in W H R c st st2.
Proof.
  intros P1 P2 Hwf. destruct (P1 Hwf) as [Hwf1 Q1].
  destruct (P2 Hwf1) as [Hwf2 Q2]. split; [exact Hwf2|].
  intros px py Hx Hy.
  destruct (Q2 px py Hx Hy) as [E2|[HR E2]]; [|right; auto].
  rewrite E2. apply Q1; auto.
Qed.

Lemma paints_in_weaken (R R' : Z -> Z -> bool) c st st' :
  (forall px py, 0 <= px < W -> 0 <= py < H -> R px py = true -> R' px py = true) ->
  paints_in W H R c st st' -> paints_in W H R' c st st'.
Proof.
  intros HR P Hwf. destruct (P Hwf) as [Hwf' Q]. split; [exact Hwf'|].
  intros px py Hx Hy. destruct (Q px py Hx Hy) as [E|[HRp E]]; auto.
Qed.

Lemma remaps_paints_in (t : pixmap) R c st st' :
  remaps W H t st st' ->
  (forall px py b, 0 <= px < W -> 0 <= py < H ->
     t px py b = b \/ (R px py = true /\ t px py b = negb (c =? 0))) ->
  paints_in W H R c st st'.
Proof.
  intros Rm Ht Hwf. destruct (Rm Hwf) as [Hwf' Q]. split; [exact Hwf'|].
  intros px py Hx Hy. rewrite Q by auto. apply Ht; auto.
Qed.

Lemma paints_in_keeps R c st st' px py :
  paints_in W H R c st st' -> fb_wf W H st ->
  0 <= px < W -> 0 <= py < H ->
  (R px py = false -> pixel_at W st' px py = pixel_at W st px py) /\
  (pixel_at W st px py = negb (c =? 0) ->
   pixel_at W st' px py = negb (c =? 0)).
Proof.
  intros P Hwf Hx Hy. destruct (P Hwf) as [_ Q].
  destruct (Q px py Hx Hy) as [E|[HR E]]; split; intros A; congruence.
Qed.

Lemma paints_in_wf R c st st' :
  paints_in W H R c st st' -> fb_wf W H st -> fb_wf W H st'.
Proof. intros P Hwf. apply (P Hwf). Qed.

End PaintsIn.

Lemma ring_shrinks x y r d d' px py :
  d <= d' -> ring x y r d' px py = true -> ring x y r d px py = true.
Proof.
  unfold ring. intros Hd Hr. apply andb_true_iff in Hr as [Hb Hd'].
  rewrite Hb. cbn [andb]. apply Z.leb_le in Hd'. apply Z.leb_le. lia.
Qed.

Lemma ring_point x y r d qx qy :
  x - r <= qx <= x + r -> y - r <= qy <= y + r -> d <= Z.abs (qy - y) ->
  ring x y r d qx qy = true.
Proof.
  intros Hx Hy Hd. unfold ring, in_box, in_rect.
  repeat (apply andb_true_iff; split);
    first [apply Z.leb_le; lia | apply Z.ltb_lt; lia].
Qed.

(** The first pass of both loops moves [y_pos] from 0 to 1. *)
Lemma circle_step_first r :
  1 <= r <= 2^29 ->
  snd (fst (circle_step (s32 (- r)) 0 (s32 (2 - s32 (2 * r))))) = 1.
Proof.
  intros Hr. rewrite (s32_id (- r)) by lia. rewrite (s32_id (2 * r)) by lia.
  rewrite (s32_id (2 - 2 * r)) by lia. unfold circle_step.
  destruct (Z.leb_spec (2 - 2 * r) 0); [|lia].
  change (s32 (0 + 1)) with 1.
  destruct ((s32 (- - r) =? 1) && (2 - 2 * r <=? - r)).
  - destruct (0 >? - r); reflexivity.
  - destruct (2 - 2 * r >? - r); reflexivity.
Qed.

Section CirclePictures.

Variables W H : Z.
Hypothesis Hgeo : geometry_ok W H.
Hypothesis HW : W <= 2^31.
Hypothesis HH : H <= 2^31.

Variables x y r c : Z.
Hypothesis Hr : 0 <= r <= 2^29.
Hypothesis Hx : - 2^30 <= x <= 2^30.
Hypothesis Hy : - 2^30 <= y <= 2^30.

Lemma drawPixel_paints_in R qx qy st :
  - 2^31 <= qx < 2^31 -> - 2^31 <= qy < 2^31 ->
  (0 <= qx < W -> 0 <= qy < H -> R qx qy = true) ->
  paints_in W H R c st (ssd1306_drawPixel W H (u32 qx) (u32 qy) c st).
Proof.
  intros Hqx Hqy HR.
  apply (remaps_paints_in W H (paint_pixel qx qy c));
    [apply (drawPixel_int_remaps W H Hgeo); auto|].
  intros px py b Hpx Hpy. unfold paint_pixel.
  destruct (Z.eqb_spec px qx) as [->|]; [|left; reflexivity].
  destruct (Z.eqb_spec py qy) as [->|]; [|left; reflexivity].
  right. split; [apply HR; auto | reflexivity].
Qed.

Lemma drawFastHLine_off x0 y0 w st :
  W <= x0 \/ H <= y0 -> ssd1306_drawFastHLine W H x0 y0 w c st = st.
Proof.
  intros Hc. unfold ssd1306_drawFastHLine.
  destruct (Z.geb_spec x0 W); [reflexivity|].
  destruct (Z.geb_spec y0 H); [reflexivity | lia].
Qed.

Lemma u32_negative z : - 2^31 <= z < 0 -> 2^31 <= u32 z.
Proof.
  intros Hz. assert (E : u32 z = z + 2^32).
  { unfold u32. symmetry. apply (Z.mod_unique z (2^32) (-1)); lia. }
  lia.
Qed.

Lemma drawFastHLine_paints_in R x0 y0 w st :
  - 2^31 <= x0 < 2^31 -> - 2^31 <= y0 < 2^31 -> 1 <= w < 2^31 ->
  (forall px, 0 <= px < W -> 0 <= y0 < H -> x0 <= px < x0 + w ->
     R px y0 = true) ->
  paints_in W H R c st
    (ssd1306_drawFastHLine W H (u32 x0) (u32 y0) (u32 w) c st).
Proof.
  intros Hx0 Hy0 Hw HR.
  destruct (Z.lt_ge_cases x0 0) as [Hneg|Hpos].
  { pose proof (u32_negative x0 ltac:(lia)).
    rewrite drawFastHLine_off by lia. apply paints_in_refl. }
  destruct (Z.lt_ge_cases y0 0) as [Hneg|Hpos'].
  { pose proof (u32_negative y0 ltac:(lia)).
    rewrite drawFastHLine_off by lia. apply paints_in_refl. }
  rewrite (u32_id x0), (u32_id y0), (u32_id w) by lia.
  destruct (Z.lt_ge_cases x0 W) as [HxW|HxW];
    [|rewrite drawFastHLine_off by lia; apply paints_in_refl].
  destruct (Z.lt_ge_cases y0 H) as [HyH|HyH];
    [|rewrite drawFastHLine_off by lia; apply paints_in_refl].
  eapply remaps_paints_in;
    [apply (drawFastHLine_remaps W H Hgeo x0 y0 w c st); lia|].
  intros px py b Hpx Hpy. cbv beta.
  destruct (Z.eqb_spec py y0) as [->|]; [|left; reflexivity].
  destruct (Z.leb_spec x0 px); [|left; reflexivity].
  destruct (Z.ltb_spec px (x0 + w)); [|left; reflexivity].
  cbn [andb]. right. split; [apply HR; lia | reflexivity].
Qed.

(** The four symmetric points as a picture. *)
Lemma circle_plot4_remaps xp yp st :
  - r <= xp <= 0 -> 0 <= yp <= r ->
  remaps W H
    (fun px py b =>
       paint_pixel (x - xp) (y - yp) c px py
         (paint_pixel (x + xp) (y - yp) c px py
            (paint_pixel (x + xp) (y + yp) c px py
               (paint_pixel (x - xp) (y + yp) c px py b))))
    st (circle_plot4 W H x y c xp yp st).
Proof.
  intros Hxp Hyp. unfold circle_plot4.
  eapply remaps_then;
    [apply (drawPixel_int_remaps W H Hgeo); lia
    |eapply remaps_then;
       [apply (drawPixel_int_remaps W H Hgeo); lia
       |eapply remaps_then;
          [apply (drawPixel_int_remaps W H Hgeo); lia
          |apply (drawPixel_int_remaps W H Hgeo); lia
          |intros px py b _ _; reflexivity]
       |intros px py b _ _; reflexivity]
    |intros px py b _ _; reflexivity].
Qed.

Lemma circle_plot4_paints_in xp yp st :
  - r <= xp <= 0 -> 0 <= yp <= r ->
  paints_in W H (ring x y r yp) c st (circle_plot4 W H x y c xp yp st).
Proof.
  intros Hxp Hyp. unfold circle_plot4.
  repeat (eapply paints_in_trans;
            [|apply drawPixel_paints_in; try lia;
              intros _ _; apply ring_point; lia]).
  apply paints_in_refl.
Qed.

Local Abbreviation fill_pass := (fillCircle_pass W H x y c).

Lemma fill_pass_paints_in xp yp st :
  - r <= xp <= 0 -> 0 <= yp <= r ->
  paints_in W H (ring x y r yp) c st (fill_pass xp yp st).
Proof.
  intros Hxp Hyp. unfold fillCircle_pass.
  apply (paints_in_trans W H _ c st
           (ssd1306_drawFastHLine W H (u32 (x + xp)) (u32 (y + yp))
              (u32 (2 * (- xp) + 1)) c (circle_plot4 W H x y c xp yp st)));
    [apply (paints_in_trans W H _ c st (circle_plot4 W H x y c xp yp st))|].
  - apply circle_plot4_paints_in; auto.
  - apply drawFastHLine_paints_in; try lia.
    intros px _ _ Hpx. apply ring_point; lia.
  - apply drawFastHLine_paints_in; try lia.
    intros px _ _ Hpx. apply ring_point; lia.
Qed.

Lemma drawCircle_loop_paints fuel : forall x_pos y_pos err st st',
  circle_inv r x_pos y_pos err ->
  drawCircle_loop W H fuel x y c x_pos y_pos err st = Some st' ->
  paints_in W H (ring x y r y_pos) c st st'.
Proof.
  induction fuel as [|fuel IH]; intros x_pos y_pos err st st' Hinv E;
    [discriminate|].
  cbn [drawCircle_loop] in E. cbv zeta in E.
  destruct (circle_step_progress r x_pos y_pos err Hr Hinv)
    as (x' & y' & err' & Es & Hx' & Hy' & _ & Hnext).
  rewrite Es in E. destruct Hinv as (Hxp & Hyp & _).
  destruct (Z.leb_spec x' 0) as [Hle|Hgt].
  - apply (paints_in_trans W H _ c st (circle_plot4 W H x y c x_pos y_pos st));
      [apply circle_plot4_paints_in; lia|].
    eapply paints_in_weaken; [|apply (IH _ _ _ _ _ (Hnext Hle) E)].
    intros px py _ _. apply ring_shrinks. lia.
  - inversion E; subst. apply circle_plot4_paints_in; lia.
Qed.

Lemma fillCircle_loop_paints fuel : forall x_pos y_pos err st st',
  circle_inv r x_pos y_pos err ->
  fillCircle_loop W H fuel x y c x_pos y_pos err st = Some st' ->
  paints_in W H (ring x y r y_pos) c st st'.
Proof.
  induction fuel as [|fuel IH]; intros x_pos y_pos err st st' Hinv E;
    [discriminate|].
  cbn [fillCircle_loop] in E. cbv zeta in E.
  destruct (circle_step_progress r x_pos y_pos err Hr Hinv)
    as (x' & y' & err' & Es & Hx' & Hy' & _ & Hnext).
  rewrite Es in E. destruct Hinv as (Hxp & Hyp & _).
  fold (fillCircle_pass W H x y c x_pos y_pos st) in E.
  destruct (Z.leb_spec x' 0) as [Hle|Hgt].
  - apply (paints_in_trans W H _ c st (fill_pass x_pos y_pos st));
      [apply fill_pass_paints_in; lia|].
    eapply paints_in_weaken; [|apply (IH _ _ _ _ _ (Hnext Hle) E)].
    intros px py _ _. apply ring_shrinks. lia.
  - inversion E; subst. apply fill_pass_paints_in; lia.
Qed.

(** What follows the first pass touches only the rows from the next
    [y_pos] on. *)
Lemma drawCircle_loop_tail fuel x_pos y_pos err st st' :
  circle_inv r x_pos y_pos err ->
  drawCircle_loop W H fuel x y c x_pos y_pos err st = Some st' ->
  paints_in W H (ring x y r (snd (fst (circle_step x_pos y_pos err)))) c
    (circle_plot4 W H x y c x_pos y_pos st) st'.
Proof.
  intros Hinv E. destruct fuel as [|fuel]; [discriminate|].
  cbn [drawCircle_loop] in E. cbv zeta in E.
  destruct (circle_step_progress r x_pos y_pos err Hr Hinv)
    as (x' & y' & err' & Es & Hx' & Hy' & _ & Hnext).
  rewrite Es in E |- *. cbn [fst snd].
  destruct (Z.leb_spec x' 0) as [Hle|Hgt].
  - apply (drawCircle_loop_paints fuel _ _ _ _ _ (Hnext Hle) E).
  - inversion E; subst. apply paints_in_refl.
Qed.

Lemma fillCircle_loop_tail fuel x_pos y_pos err st st' :
  circle_inv r x_pos y_pos err ->
  fillCircle_loop W H fuel x y c x_pos y_pos err st = Some st' ->
  paints_in W H (ring x y r (snd (fst (circle_step x_pos y_pos err)))) c
    (fill_pass x_pos y_pos st) st'.
Proof.
  intros Hinv E. destruct fuel as [|fuel]; [discriminate|].
  cbn [fillCircle_loop] in E. cbv zeta in E.
  destruct (circle_step_progress r x_pos y_pos err Hr Hinv)
    as (x' & y' & err' & Es & Hx' & Hy' & _ & Hnext).
  rewrite Es in E |- *. cbn [fst snd].
  fold (fillCircle_pass W H x y c x_pos y_pos st) in E.
  destruct (Z.leb_spec x' 0) as [Hle|Hgt].
  - apply (fillCircle_loop_paints fuel _ _ _ _ _ (Hnext Hle) E).
  - inversion E; subst. apply paints_in_refl.
Qed.

(** The first pass plots both ends of the horizontal diameter. *)
Lemma circle_ends_plotted st px :
  fb_wf W H st -> 0 <= px < W -> 0 <= y < H -> px = x - r \/ px = x + r ->
  pixel_at W (circle_plot4 W H x y c (s32 (- r)) 0 st) px y = negb (c =? 0).
Proof.
  intros Hwf Hpx Hpy Hend. rewrite (s32_id (- r)) by lia.
  destruct (circle_plot4_remaps (- r) 0 st ltac:(lia) ltac:(lia) Hwf)
    as [_ P].
  rewrite P by auto. unfold paint_pixel. region_cases.
Qed.

Lemma in_box_ring px py :
  in_box x y r px py = false -> ring x y r 0 px py = false.
Proof. intros E. unfold ring. rewrite E. reflexivity. Qed.

Lemma drawCircle_picture fuel st st' :
  fb_wf W H st ->
  ssd1306_drawCircle W H fuel x y r c st = Some st' ->
  fb_wf W H st' /\
  forall px py, 0 <= px < W -> 0 <= py < H ->
    (in_box x y r px py = false ->
     pixel_at W st' px py = pixel_at W st px py) /\
    (pixel_at W st px py = negb (c =? 0) ->
     pixel_at W st' px py = negb (c =? 0)) /\
    (px = x - r \/ px = x + r -> py = y ->
     pixel_at W st' px py = negb (c =? 0)).
Proof.
  intros Hwf E. unfold ssd1306_drawCircle in E.
  pose proof (circle_inv_init r Hr) as Hinv.
  pose proof (drawCircle_loop_paints _ _ _ _ _ _ Hinv E) as P.
  pose proof (drawCircle_loop_tail _ _ _ _ _ _ Hinv E) as T.
  split; [apply (paints_in_wf W H _ _ _ _ P Hwf)|].
  intros px py Hpx Hpy.
  destruct (paints_in_keeps W H _ _ _ _ px py P Hwf Hpx Hpy) as [K1 K2].
  split; [intros B; apply K1, in_box_ring, B|]. split; [exact K2|].
  intros Hend ->.
  assert (Hwf1 : fb_wf W H (circle_plot4 W H x y c (s32 (- r)) 0 st)).
  { rewrite (s32_id (- r)) by lia.
    apply (circle_plot4_remaps (- r) 0 st ltac:(lia) ltac:(lia) Hwf). }
  apply (paints_in_keeps W H _ _ _ _ px y T Hwf1 Hpx Hpy).
  apply circle_ends_plotted; auto.
Qed.

Lemma fillCircle_pass_wf xp yp st :
  - r <= xp <= 0 -> 0 <= yp <= r -> fb_wf W H st ->
  fb_wf W H (fill_pass xp yp st).
Proof.
  intros Hxp Hyp Hwf.
  apply (paints_in_wf W H _ _ _ _ (fill_pass_paints_in xp yp st Hxp Hyp) Hwf).
Qed.

Lemma fillCircle_picture fuel st st' :
  fb_wf W H st ->
  ssd1306_fillCircle W H fuel x y r c st = Some st' ->
  fb_wf W H st' /\
  forall px py, 0 <= px < W -> 0 <= py < H ->
    (in_box x y r px py = false ->
     pixel_at W st' px py = pixel_at W st px py) /\
    (pixel_at W st px py = negb (c =? 0) ->
     pixel_at W st' px py = negb (c =? 0)) /\
    (px = x - r \/ px = x + r -> py = y ->
     pixel_at W st' px py = negb (c =? 0)).
Proof.
  intros Hwf E. unfold ssd1306_fillCircle in E.
  pose proof (circle_inv_init r Hr) as Hinv.
  pose proof (fillCircle_loop_paints _ _ _ _ _ _ Hinv E) as P.
  pose proof (fillCircle_loop_tail _ _ _ _ _ _ Hinv E) as T.
  split; [apply (paints_in_wf W H _ _ _ _ P Hwf)|].
  intros px py Hpx Hpy.
  destruct (paints_in_keeps W H _ _ _ _ px py P Hwf Hpx Hpy) as [K1 K2].
  split; [intros B; apply K1, in_box_ring, B|]. split; [exact K2|].
  intros Hend ->.
  assert (Hwf1 : fb_wf W H (circle_plot4 W H x y c (s32 (- r)) 0 st)).
  { rewrite (s32_id (- r)) by lia.
    apply (circle_plot4_remaps (- r) 0 st ltac:(lia) ltac:(lia) Hwf). }
  assert (Hwf2 : fb_wf W H (fill_pass (s32 (- r)) 0 st)).
  { rewrite (s32_id (- r)) by lia. apply fillCircle_pass_wf; auto; lia. }
  apply (paints_in_keeps W H _ _ _ _ px y T Hwf2 Hpx Hpy).
  unfold fillCircle_pass.
  assert (Hrow : forall x0 y0 w s,
            - 2^31 <= x0 < 2^31 -> - 2^31 <= y0 < 2^31 -> 1 <= w < 2^31 ->
            fb_wf W H s ->
            fb_wf W H (ssd1306_drawFastHLine W H (u32 x0) (u32 y0) (u32 w) c s) /\
            (pixel_at W s px y = negb (c =? 0) ->
             pixel_at W (ssd1306_drawFastHLine W H (u32 x0) (u32 y0) (u32 w) c s)
               px y = negb (c =? 0))).
  { intros x0 y0 w s Hx0 Hy0 Hw Hs.
    pose proof (drawFastHLine_paints_in (fun _ _ => true) x0 y0 w s
                  Hx0 Hy0 Hw ltac:(reflexivity)) as Q.
    split; [apply (paints_in_wf W H _ _ _ _ Q Hs)|].
    apply (paints_in_keeps W H _ _ _ _ px y Q Hs Hpx Hpy). }
  rewrite (s32_id (- r)) in * by lia.
  destruct (Hrow (x + - r) (y + 0) (2 * (- - r) + 1)
              (circle_plot4 W H x y c (- r) 0 st)) as [Hwf3 M3]; try lia;
    [exact Hwf1|].
  destruct (Hrow (x + - r) (y - 0) (2 * (- - r) + 1) _
              ltac:(lia) ltac:(lia) ltac:(lia) Hwf3) as [_ M4].
  apply M4, M3.
  pose proof (circle_ends_plotted st px Hwf Hpx Hpy Hend) as Q.
  rewrite (s32_id (- r)) in Q by lia. exact Q.
Qed.

(** The centre row: filled when the left end of the diameter is on the
    display, left alone (its right end apart) when that end is off the
    left edge, where the [uint32_t] start column wraps to a large value. *)
Lemma fillCircle_row fuel st st' :
  fb_wf W H st -> 0 <= y < H ->
  ssd1306_fillCircle W H fuel x y r c st = Some st' ->
  (0 <= x - r ->
   forall px, 0 <= px < W -> x - r <= px <= x + r ->
     pixel_at W st' px y = negb (c =? 0)) /\
  (1 <= r -> x - r < 0 ->
   forall px, 0 <= px < W -> px <> x + r ->
     pixel_at W st' px y = pixel_at W st px y).
Proof.
  intros Hwf Hy0 E. unfold ssd1306_fillCircle in E.
  pose proof (circle_inv_init r Hr) as Hinv.
  pose proof (fillCircle_loop_tail _ _ _ _ _ _ Hinv E) as T.
  assert (Hwf2 : fb_wf W H (fill_pass (s32 (- r)) 0 st)).
  { rewrite (s32_id (- r)) by lia. apply fillCircle_pass_wf; auto; lia. }
  split.
  - intros Hleft px Hpx Hrun.
    apply (paints_in_keeps W H _ _ _ _ px y T Hwf2 Hpx Hy0).
    unfold fillCircle_pass. rewrite (s32_id (- r)) by lia.
    rewrite (u32_id (x + - r)), (u32_id (y - 0)), (u32_id (2 * (- - r) + 1))
      by lia.
    set (B := ssd1306_drawFastHLine W H (x + - r) (u32 (y + 0))
                (2 * (- - r) + 1) c (circle_plot4 W H x y c (- r) 0 st)).
    assert (HwfB : fb_wf W H B).
    { pose proof (drawFastHLine_paints_in (fun _ _ => true) (x + - r) (y + 0)
                    (2 * (- - r) + 1) (circle_plot4 W H x y c (- r) 0 st)
                    ltac:(lia) ltac:(lia) ltac:(lia) ltac:(reflexivity)) as Q.
      rewrite (u32_id (x + - r)), (u32_id (2 * (- - r) + 1)) in Q by lia.
      apply (paints_in_wf W H _ _ _ _ Q).
      apply (circle_plot4_remaps (- r) 0 st ltac:(lia) ltac:(lia) Hwf). }
    destruct (drawFastHLine_remaps W H Hgeo (x + - r) (y - 0)
                (2 * (- - r) + 1) c B ltac:(lia) ltac:(lia) ltac:(lia)
                ltac:(lia) HwfB) as [_ P].
    rewrite P by auto. region_cases.
  - intros Hr1 Hleft px Hpx Hne.
    destruct (paints_in_keeps W H _ _ _ _ px y T Hwf2 Hpx Hy0) as [K _].
    rewrite K.
    + unfold fillCircle_pass. rewrite (s32_id (- r)) by lia.
      pose proof (u32_negative (x + - r) ltac:(lia)).
      rewrite !drawFastHLine_off by lia.
      destruct (circle_plot4_remaps (- r) 0 st ltac:(lia) ltac:(lia) Hwf)
        as [_ P].
      rewrite P by auto. unfold paint_pixel. region_cases.
    + rewrite circle_step_first by lia. unfold ring.
      rewrite Z.sub_diag. apply andb_false_r.
Qed.

End CirclePictures.

(** X19. [ssd1306_drawCircle] and [ssd1306_fillCircle] return, and
    change no pixel outside the square of side [2 * radius + 1] around the
    centre; a pixel that already showed the colour still shows it; both
    ends of the horizontal diameter that lie on the display show the
    colour. *)
Theorem circles_stay_in_their_box (W H : Z) (st : fb_state) (x y r c : Z) :
  geometry_ok W H -> fb_wf W H st -> W <= 2^31 -> H <= 2^31 ->
  0 <= r <= 2^29 -> - 2^30 <= x <= 2^30 -> - 2^30 <= y <= 2^30 ->
  exists st1 st2,
    ssd1306_drawCircle W H (Z.to_nat (2 * r + 1)) x y r c st = Some st1 /\
    ssd1306_fillCircle W H (Z.to_nat (2 * r + 1)) x y r c st = Some st2 /\
    forall st', st' = st1 \/ st' = st2 ->
      fb_wf W H st' /\
      forall px py, 0 <= px < W -> 0 <= py < H ->
        (in_box x y r px py = false ->
         pixel_at W st' px py = pixel_at W st px py) /\
        (pixel_at W st px py = negb (c =? 0) ->
         pixel_at W st' px py = negb (c =? 0)) /\
        (px = x - r \/ px = x + r -> py = y ->
         pixel_at W st' px py = negb (c =? 0)).
Proof.
  intros Hgeo Hwf HW HH Hr Hx Hy.
  destruct (drawCircle_loop_terminates W H r (Z.to_nat (2 * r + 1)) x y c
              (s32 (- r)) 0 (s32 (2 - s32 (2 * r))) st Hr (circle_inv_init r Hr))
    as [st1 E1]; [rewrite (s32_id (- r)) by lia; lia|].
  destruct (fillCircle_loop_terminates W H r (Z.to_nat (2 * r + 1)) x y c
              (s32 (- r)) 0 (s32 (2 - s32 (2 * r))) st Hr (circle_inv_init r Hr))
    as [st2 E2]; [rewrite (s32_id (- r)) by lia; lia|].
  exists st1, st2. split; [exact E1|]. split; [exact E2|].
  intros st' [->| ->].
  - apply (drawCircle_picture W H Hgeo HW HH x y r c Hr Hx Hy _ st st1 Hwf E1).
  - apply (fillCircle_picture W H Hgeo HW HH x y r c Hr Hx Hy _ st st2 Hwf E2).
Qed.

(** X20. [ssd1306_fillCircle] and the centre row: when the left end
    [x - radius] of the horizontal diameter is on the display, every
    pixel of the diameter that is on the display shows the colour.  When
    it is left of the display (and the radius is at least 1) the
    [uint32_t] start column of the fill run wraps, the run is dropped, and
    the centre row is left as it was, its right end [x + radius] apart. *)
Theorem fillCircle_centre_row (W H : Z) (st : fb_state) (x y r c : Z) :
  geometry_ok W H -> fb_wf W H st -> W <= 2^31 -> H <= 2^31 ->
  0 <= r <= 2^29 -> - 2^30 <= x <= 2^30 -> 0 <= y < H -> y <= 2^30 ->
  exists st',
    ssd1306_fillCircle W H (Z.to_nat (2 * r + 1)) x y r c st = Some st' /\
    (0 <= x - r ->
     forall px, 0 <= px < W -> x - r <= px <= x + r ->
       pixel_at W st' px y = negb (c =? 0)) /\
    (1 <= r -> x - r < 0 ->
     forall px, 0 <= px < W -> px <> x + r ->
       pixel_at W st' px y = pixel_at W st px y).
Proof.
  intros Hgeo Hwf HW HH Hr Hx Hy Hy'.
  destruct (fillCircle_loop_terminates W H r (Z.to_nat (2 * r + 1)) x y c
              (s32 (- r)) 0 (s32 (2 - s32 (2 * r))) st Hr (circle_inv_init r Hr))
    as [st' E]; [rewrite (s32_id (- r)) by lia; lia|].
  exists st'. split; [exact E|].
  apply (fillCircle_row W H Hgeo HW HH x y r c Hr Hx ltac:(lia) _ st st' Hwf Hy E).
Qed.

(** ** Data packets *)

(** X21. [ssd1306_data] never sends more than [SSD1306_PSZ] bytes after
    the [0x40] header: a longer request is cut silently to the first
    [SSD1306_PSZ] bytes, a shorter one is sent whole. *)
Theorem data_packet_clamped (buf : list Z) (i sz : Z) :
  0 <= i -> 0 <= sz ->
  is_data (ssd1306_data buf i sz) /\
  Z.of_nat (length (payload (ssd1306_data buf i sz))) = Z.min sz SSD1306_PSZ /\
  ((Z.to_nat i + Z.to_nat (Z.min sz SSD1306_PSZ) <= length buf)%nat ->
   payload (ssd1306_data buf i sz)
   = map Some (firstn (Z.to_nat (Z.min sz SSD1306_PSZ)) (skipn (Z.to_nat i) buf))).
Proof.
  intros Hi Hsz. unfold ssd1306_data.
  assert (E : (if sz >? SSD1306_PSZ then SSD1306_PSZ else sz)
              = Z.min sz SSD1306_PSZ).
  { destruct (Z.gtb_spec sz SSD1306_PSZ); lia. }
  rewrite E. cbv zeta. cbn [payload tail].
  split; [eexists; reflexivity|]. split.
  - rewrite length_map, length_seq. unfold SSD1306_PSZ. lia.
  - intros Hlen. rewrite (map_seq_offset (fun k => buf !! k)).
    rewrite Nat.add_0_r. apply lookup_run. exact Hlen.
Qed.

(** ** Scaled glyphs *)

Section ScaledGlyphs.

Variables W H : Z.
Hypothesis Hgeo : geometry_ok W H.
Variable fontdata : Z -> Z.

Variable s : Z.
Hypothesis Hs : s = 1 \/ s = 2 \/ s = 4 \/ s = 8.

(** The innermost loop paints a vertical run of the block. *)
Lemma scaled_l_remaps n : forall l x y i j k col st,
  0 <= x + j * s + k < 2^32 -> 0 <= y + i * s ->
  0 <= l -> l + Z.of_nat n <= 8 -> y + i * s + 8 < 2^32 ->
  remaps W H
    (fun px py b =>
       if (px =? x + j * s + k) && (y + i * s + l <=? py)
          && (py <? y + i * s + l + Z.of_nat n)
       then negb (col =? 0) else b)
    st (scaled_l W H n l x y i j k s col st).
Proof.
  induction n as [|n IH]; intros l x y i j k col st HX HY Hl Hn Hnw.
  - eapply remaps_ext; [|apply remaps_id]. intros; region_cases.
  - cbn [scaled_l].
    rewrite (u8_id (l + 1)), (u32_id (x + j * s + k)),
      (u32_id (y + i * s + l)) by lia.
    eapply remaps_then;
      [apply (IH (l + 1)); lia
      |apply (drawPixel_remaps W H Hgeo (x + j * s + k) (y + i * s + l)); lia|].
    intros px py b Hpx Hpy. unfold paint_pixel.
    set (X := x + j * s + k). set (Y := y + i * s). region_cases.
Qed.

(** The loop around it paints the block column by column. *)
Lemma scaled_k_remaps n : forall k x y i j col st,
  0 <= x + j * s -> x + j * s + 8 < 2^32 -> 0 <= y + i * s ->
  y + i * s + 8 < 2^32 -> 0 <= k -> k + Z.of_nat n <= 8 ->
  remaps W H
    (fun px py b =>
       if (x + j * s + k <=? px) && (px <? x + j * s + k + Z.of_nat n)
          && (y + i * s <=? py) && (py <? y + i * s + s)
       then negb (col =? 0) else b)
    st (scaled_k W H n k x y i j s col st).
Proof.
  induction n as [|n IH]; intros k x y i j col st HX HXw HY HYw Hk Hn.
  - eapply remaps_ext; [|apply remaps_id]. intros; region_cases.
  - cbn [scaled_k]. rewrite (u8_id (k + 1)) by lia.
    eapply remaps_then;
      [apply (IH (k + 1)); lia
      |apply (scaled_l_remaps (Z.to_nat s) 0 x y i j k col st); lia|].
    intros px py b Hpx Hpy. cbv beta. rewrite Z2Nat.id by lia.
    set (X := x + j * s). set (Y := y + i * s). region_cases.
Qed.

(** One row of the glyph, each font bit a block of [s] by [s] pixels. *)
Lemma drawchar_sz_cols_remaps n : forall j x y i d c st,
  0 <= x <= 255 -> 0 <= y <= 255 -> 0 <= i < 8 -> 0 <= j ->
  j + Z.of_nat n <= 8 ->
  remaps W H
    (fun px py b =>
       if (y + i * s <=? py) && (py <? y + i * s + s)
          && (x + j * s <=? px) && (px <? x + (j + Z.of_nat n) * s)
       then glyph_pixel (Z.testbit d (7 - (px - (x + j * s)) / s)) c else b)
    st (drawchar_sz_cols W H n j x y i d c s st).
Proof.
  induction n as [|n IH]; intros j x y i d c st Hx Hy Hi Hj Hn.
  - eapply remaps_ext; [|apply remaps_id].
    intros px py b _ _. cbv beta. rewrite Z.add_0_r. region_cases.
  - cbn [drawchar_sz_cols]. cbv zeta.
    eapply remaps_then;
      [apply (IH (j + 1)); lia
      |apply (scaled_k_remaps (Z.to_nat s) 0 x y i j (glyph_col d c) st);
         destruct Hs as [->|[->|[->| ->]]]; lia|].
    intros px py b Hpx Hpy. cbv beta. rewrite glyph_col_pixel.
    rewrite Z2Nat.id by lia. rewrite Z.add_0_r.
    destruct Hs as [->|[->|[->| ->]]]; region_cases;
      first [ do 2 f_equal; Z.div_mod_to_equations; lia
            | f_equal;
              rewrite shifted_font_bit by (Z.div_mod_to_equations; lia);
              f_equal; Z.div_mod_to_equations; lia ].
Qed.

Lemma drawchar_sz_rows_remaps n : forall i x y chr c st,
  0 <= x <= 255 -> 0 <= y <= 255 -> 0 <= i -> i + Z.of_nat n <= 8 ->
  remaps W H
    (fun px py b =>
       if in_rect x (x + 8 * s) (y + i * s) (y + (i + Z.of_nat n) * s) px py
       then glyph_pixel
              (Z.testbit (u8 (fontdata (Z.shiftl chr 3 + (py - y) / s)))
                 (7 - (px - x) / s)) c
       else b)
    st (drawchar_sz_rows W H fontdata n i x y chr c s st).
Proof.
  induction n as [|n IH]; intros i x y chr c st Hx Hy Hi Hn.
  - eapply remaps_ext; [|apply remaps_id].
    intros px py b _ _. unfold in_rect. rewrite Z.add_0_r. region_cases.
  - cbn [drawchar_sz_rows]. cbv zeta.
    eapply remaps_then;
      [apply (IH (i + 1)); lia
      |apply (drawchar_sz_cols_remaps 8 0 x y i); lia|].
    intros px py b Hpx Hpy. unfold in_rect. cbv beta.
    change (Z.of_nat 8) with 8. rewrite !Z.mul_0_l, !Z.add_0_r, !Z.add_0_l.
    destruct Hs as [->|[->|[->| ->]]]; region_cases;
      match goal with
      | |- context [(py - y) / ?k] =>
          replace ((py - y) / k) with i by (Z.div_mod_to_equations; lia)
      end; reflexivity.
Qed.

Lemma drawchar_sz_remaps_scale x y chr c st :
  0 <= x <= 255 -> 0 <= y <= 255 ->
  remaps W H
    (fun px py b =>
       if in_rect x (x + 8 * s) y (y + 8 * s) px py
       then glyph_pixel
              (Z.testbit (u8 (fontdata (Z.shiftl chr 3 + (py - y) / s)))
                 (7 - (px - x) / s)) c
       else b)
    st (drawchar_sz_rows W H fontdata 8 0 x y chr c s st).
Proof.
  intros Hx Hy.
  eapply remaps_ext; [|apply (drawchar_sz_rows_remaps 8 0); lia].
  intros px py b _ _. cbv beta. change (Z.of_nat 8) with 8.
  rewrite Z.mul_0_l, Z.add_0_r, Z.add_0_l. reflexivity.
Qed.

End ScaledGlyphs.

Lemma font_size_val_cases fs :
  font_size_val fs = 1 \/ font_size_val fs = 2 \/ font_size_val fs = 4
  \/ font_size_val fs = 8.
Proof. destruct fs; cbn; auto. Qed.

Lemma drawchar_sz_remaps W H (Hgeo : geometry_ok W H) fontdata fs x y chr c st :
  0 <= x <= 255 -> 0 <= y <= 255 ->
  remaps W H
    (fun px py b =>
       if in_rect x (x + 8 * font_size_val fs) y (y + 8 * font_size_val fs) px py
       then glyph_pixel
              (Z.testbit
                 (u8 (fontdata (Z.shiftl chr 3 + (py - y) / font_size_val fs)))
                 (7 - (px - x) / font_size_val fs)) c
       else b)
    st (ssd1306_drawchar_sz W H fontdata x y chr c fs st).
Proof.
  intros Hx Hy. unfold ssd1306_drawchar_sz. cbv zeta.
  rewrite (u8_id (font_size_val fs))
    by (destruct (font_size_val_cases fs) as [->|[->|[->| ->]]]; lia).
  apply (drawchar_sz_remaps_scale W H Hgeo fontdata (font_size_val fs)
           (font_size_val_cases fs)); auto.
Qed.

(** A scaled string only ever touches the rows of its text line. *)
Lemma drawstr_sz_band W H (Hgeo : geometry_ok W H) fontdata fs str :
  forall x y c st,
  0 <= x <= 255 -> 0 <= y <= 255 -> fb_wf W H st ->
  fb_wf W H (ssd1306_drawstr_sz W H fontdata x y str c fs st) /\
  forall px py, 0 <= px < W -> 0 <= py < H ->
    ~ (y <= py < y + 8 * font_size_val fs) ->
    pixel_at W (ssd1306_drawstr_sz W H fontdata x y str c fs st) px py
    = pixel_at W st px py.
Proof.
  induction str as [|ch str IH]; intros x y c st Hx Hy Hwf; [split; auto|].
  cbn [ssd1306_drawstr_sz]. cbv zeta.
  destruct (u8 ch =? 0); [split; auto|].
  destruct (drawchar_sz_remaps W H Hgeo fontdata fs x y (u8 ch) c st Hx Hy Hwf)
    as [Hwf1 P1].
  assert (F1 : forall px py, 0 <= px < W -> 0 <= py < H ->
            ~ (y <= py < y + 8 * font_size_val fs) ->
            pixel_at W (ssd1306_drawchar_sz W H fontdata x y (u8 ch) c fs st) px py
            = pixel_at W st px py).
  { intros px py Hpx Hpy Hout. rewrite P1 by auto. unfold in_rect. region_cases. }
  destruct (_ >? _); [split; auto|].
  pose proof (u8_range (x + 8 * font_size_val fs)) as Hr.
  destruct (IH (u8 (x + 8 * font_size_val fs)) y c _ ltac:(lia) Hy Hwf1)
    as [Hwf2 P2].
  split; [exact Hwf2|].
  intros px py Hpx Hpy Hout. rewrite P2, F1 by auto. reflexivity.
Qed.

(** X22. [ssd1306_drawchar_sz] at scale [s] (1, 2, 4 or 8) fills the
    cell of [8 * s] by [8 * s] pixels at [(x, y)] and nothing else: every
    font bit becomes a block of [s] by [s] pixels, bit [7 - j] of
    [fontdata[(chr << 3) + i]] covering columns [x + j * s ..] and rows
    [y + i * s ..].  An [ssd1306_drawstr_sz] call changes no pixel outside
    the [8 * s] rows of its text line. *)
Theorem drawchar_sz_cell (W H : Z) (fontdata : Z -> Z) (st : fb_state)
    (x y chr c : Z) (fs : font_size_t) (str : list Z) :
  geometry_ok W H -> fb_wf W H st -> 0 <= x <= 255 -> 0 <= y <= 255 ->
  let s := font_size_val fs in
  (forall px py, 0 <= px < W -> 0 <= py < H ->
     pixel_at W (ssd1306_drawchar_sz W H fontdata x y chr c fs st) px py =
     if in_rect x (x + 8 * s) y (y + 8 * s) px py
     then glyph_pixel
            (Z.testbit (u8 (fontdata (Z.shiftl chr 3 + (py - y) / s)))
               (7 - (px - x) / s)) c
     else pixel_at W st px py) /\
  (forall px py, 0 <= px < W -> 0 <= py < H -> ~ (y <= py < y + 8 * s) ->
     pixel_at W (ssd1306_drawstr_sz W H fontdata x y str c fs st) px py
     = pixel_at W st px py).
Proof.
  intros Hgeo Hwf Hx Hy s. subst s. split.
  - destruct (drawchar_sz_remaps W H Hgeo fontdata fs x y chr c st Hx Hy Hwf)
      as [_ P].
    exact P.
  - apply (drawstr_sz_band W H Hgeo fontdata fs str x y c st Hx Hy Hwf).
Qed.

(** * The further properties at a concrete display

    The hypotheses of the theorems above hold together: each is applied
    here on the 128 by 64 display (72 by 40 for the transfer), its
    hypotheses being checked by computation. *)

Lemma blank_128x64_bytes : fb_bytes (blank_fb 128 64).
Proof. exact (blank_fb_bytes 128 64). Defined.

Lemma drawFastHLine_run_witness :
  geometry_ok 128 64 /\ fb_wf 128 64 (blank_fb 128 64) /\ 0 <= 120 /\ 0 <= 3 /\
  ssd1306_drawFastHLine 128 64 200 3 20 1 (blank_fb 128 64) = blank_fb 128 64 /\
  pixel_at 128 (ssd1306_drawFastHLine 128 64 120 3 20 1 (blank_fb 128 64)) 127 3
  = true.
Proof.
  assert (H1 : 0 <= 120) by lia. assert (H2 : 0 <= 3) by lia.
  assert (H3 : 0 <= 200) by lia.
  refine (conj geometry_128x64 (conj blank_128x64_wf (conj H1 (conj H2 _)))).
  destruct (drawFastHLine_run 128 64 (blank_fb 128 64) 200 3 20 1
              geometry_128x64 blank_128x64_wf H3 H2) as [Off _].
  destruct (drawFastHLine_run 128 64 (blank_fb 128 64) 120 3 20 1
              geometry_128x64 blank_128x64_wf H1 H2) as [_ On].
  split; [apply Off; lia|].
  exact (On ltac:(lia) ltac:(lia) ltac:(lia) ltac:(lia) 127 3
           ltac:(lia) ltac:(lia)).
Defined.

Lemma drawFastVLine_run_witness :
  geometry_ok 128 64 /\ fb_wf 128 64 (blank_fb 128 64) /\
  128 <= 2^31 /\ 64 <= 2^31 /\ - 2^31 <= 5 < 2^31 /\ - 2^31 < - 3 < 2^31 /\
  pixel_at 128 (ssd1306_drawFastVLine 128 64 5 (- 3) 10 1 (blank_fb 128 64)) 5 0
  = true.
Proof.
  assert (H1 : 128 <= 2^31) by lia. assert (H2 : 64 <= 2^31) by lia.
  assert (H3 : - 2^31 <= 5 < 2^31) by lia.
  assert (H4 : - 2^31 < - 3 < 2^31) by lia.
  refine (conj geometry_128x64 (conj blank_128x64_wf
            (conj H1 (conj H2 (conj H3 (conj H4 _)))))).
  destruct (drawFastVLine_run 128 64 (blank_fb 128 64) 5 (- 3) 10 1
              geometry_128x64 blank_128x64_wf H1 H2 H3 H4) as (_ & _ & On).
  exact (On ltac:(lia) ltac:(lia) ltac:(lia) ltac:(lia) 5 0
           ltac:(lia) ltac:(lia)).
Defined.

Lemma fillRect_paints_rectangle_witness :
  geometry_ok 128 64 /\ fb_wf 128 64 (blank_fb 128 64) /\
  0 <= 10 /\ 0 <= 5 <= 255 /\ 10 + 5 <= 2^32 /\
  pixel_at 128 (ssd1306_fillRect 128 64 10 10 5 5 1 (blank_fb 128 64)) 12 12
  = true.
Proof.
  assert (H1 : 0 <= 10) by lia. assert (H2 : 0 <= 5 <= 255) by lia.
  assert (H3 : 0 <= 5) by lia. assert (H4 : 10 + 5 <= 2^32) by lia.
  refine (conj geometry_128x64 (conj blank_128x64_wf
            (conj H1 (conj H2 (conj H4 _))))).
  destruct (fillRect_paints_rectangle 128 64 (blank_fb 128 64) 10 10 5 5 1
              geometry_128x64 blank_128x64_wf H1 H1 H2 H3 H4 H4) as [P _].
  exact (P 12 12 ltac:(lia) ltac:(lia)).
Defined.

Lemma xorrect_inverts_rectangle_witness :
  geometry_ok 128 64 /\ fb_wf 128 64 (blank_fb 128 64) /\
  fb_bytes (blank_fb 128 64) /\ 0 <= 10 /\ 0 <= 5 /\ 10 + 5 <= 256 /\
  ssd1306_buffer
    (ssd1306_xorrect 128 64 10 10 5 5
       (ssd1306_xorrect 128 64 10 10 5 5 (blank_fb 128 64)))
  = ssd1306_buffer (blank_fb 128 64).
Proof.
  assert (H1 : 0 <= 10) by lia. assert (H2 : 0 <= 5) by lia.
  assert (H3 : 10 + 5 <= 256) by lia.
  refine (conj geometry_128x64 (conj blank_128x64_wf (conj blank_128x64_bytes
            (conj H1 (conj H2 (conj H3 _)))))).
  destruct (xorrect_inverts_rectangle 128 64 (blank_fb 128 64) 10 10 5 5
              geometry_128x64 blank_128x64_wf blank_128x64_bytes
              H1 H1 H2 H2 H3 H3) as [_ E].
  exact E.
Defined.

Lemma drawRect_paints_outline_witness :
  geometry_ok 128 64 /\ fb_wf 128 64 (blank_fb 128 64) /\
  128 < 2^31 /\ 64 < 2^31 /\ 0 <= 10 /\ 1 <= 5 /\ 10 + 5 <= 128 /\
  10 + 5 <= 64 /\
  pixel_at 128 (ssd1306_drawRect 128 64 10 10 5 5 1 (blank_fb 128 64)) 10 12
  = true /\
  pixel_at 128 (ssd1306_drawRect 128 64 10 10 5 5 1 (blank_fb 128 64)) 12 12
  = pixel_at 128 (blank_fb 128 64) 12 12.
Proof.
  assert (H1 : 128 < 2^31) by lia. assert (H2 : 64 < 2^31) by lia.
  assert (H3 : 0 <= 10) by lia. assert (H4 : 1 <= 5) by lia.
  assert (H5 : 10 + 5 <= 128) by lia. assert (H6 : 10 + 5 <= 64) by lia.
  refine (conj geometry_128x64 (conj blank_128x64_wf (conj H1 (conj H2
            (conj H3 (conj H4 (conj H5 (conj H6 _)))))))).
  pose proof (drawRect_paints_outline 128 64 (blank_fb 128 64) 10 10 5 5 1
                geometry_128x64 blank_128x64_wf H1 H2 H3 H3 H4 H4 H5 H6) as P.
  exact (conj (P 10 12 ltac:(lia) ltac:(lia)) (P 12 12 ltac:(lia) ltac:(lia))).
Defined.

Lemma drawImage_idempotent_witness :
  geometry_ok 128 64 /\ fb_wf 128 64 (blank_fb 128 64) /\
  fb_bytes (blank_fb 128 64) /\ 0 <= 16 < 2^32 /\ 0 <= 8 < 2^32 /\
  ssd1306_buffer
    (ssd1306_drawImage 128 64 0 0 solid_font 16 8 2
       (ssd1306_drawImage 128 64 0 0 solid_font 16 8 2 (blank_fb 128 64)))
  = ssd1306_buffer
      (ssd1306_drawImage 128 64 0 0 solid_font 16 8 2 (blank_fb 128 64)).
Proof.
  assert (H1 : 0 <= 16 < 2^32) by lia. assert (H2 : 0 <= 8 < 2^32) by lia.
  refine (conj geometry_128x64 (conj blank_128x64_wf (conj blank_128x64_bytes
            (conj H1 (conj H2 _))))).
  exact (drawImage_idempotent 128 64 (blank_fb 128 64) 0 0 solid_font 16 8 2
           geometry_128x64 blank_128x64_wf blank_128x64_bytes H1 H2).
Defined.

Lemma drawImage_inverted_modes_witness :
  geometry_ok 128 64 /\ fb_wf 128 64 (blank_fb 128 64) /\
  fb_bytes (blank_fb 128 64) /\ 0 <= 16 < 2^32 /\ 0 <= 8 < 2^32 /\
  ssd1306_buffer
    (ssd1306_drawImage 128 64 0 0 solid_font 16 8 1 (blank_fb 128 64))
  = ssd1306_buffer
      (ssd1306_drawImage 128 64 0 0 (invert_bitmap solid_font) 16 8 0
         (blank_fb 128 64)).
Proof.
  assert (H1 : 0 <= 16 < 2^32) by lia. assert (H2 : 0 <= 8 < 2^32) by lia.
  refine (conj geometry_128x64 (conj blank_128x64_wf (conj blank_128x64_bytes
            (conj H1 (conj H2 _))))).
  exact (drawImage_inverted_modes 128 64 (blank_fb 128 64) 0 0 solid_font 16 8
           geometry_128x64 blank_128x64_wf blank_128x64_bytes H1 H2
           1 0 (or_introl eq_refl)).
Defined.

Lemma pixel_accessors_compose_witness :
  geometry_ok 128 64 /\ fb_wf 128 64 (blank_fb 128 64) /\
  fb_bytes (blank_fb 128 64) /\ 0 <= 1 /\ 0 <= 2 /\
  ssd1306_buffer
    (ssd1306_drawPixel 128 64 1 1 1
       (ssd1306_drawPixel 128 64 2 2 0 (blank_fb 128 64)))
  = ssd1306_buffer
      (ssd1306_drawPixel 128 64 2 2 0
         (ssd1306_drawPixel 128 64 1 1 1 (blank_fb 128 64))) /\
  ssd1306_buffer
    (ssd1306_xorPixel 128 64 1 1 (ssd1306_xorPixel 128 64 1 1 (blank_fb 128 64)))
  = ssd1306_buffer (blank_fb 128 64).
Proof.
  assert (H1 : 0 <= 1) by lia. assert (H2 : 0 <= 2) by lia.
  refine (conj geometry_128x64 (conj blank_128x64_wf (conj blank_128x64_bytes
            (conj H1 (conj H2 _))))).
  destruct (pixel_accessors_compose 128 64 (blank_fb 128 64) 1 1 2 2 1 0
              geometry_128x64 blank_128x64_wf blank_128x64_bytes
              H1 H1 H2 H2) as (_ & C & X).
  split; [apply C; left; lia | exact X].
Defined.

Lemma setbuf_fills_witness :
  geometry_ok 128 64 /\ fb_wf 128 64 (blank_fb 128 64) /\
  ssd1306_buffer (ssd1306_setbuf 128 64 1 (blank_fb 128 64))
  = repeat (if 1 =? 0 then 0x00 else 0xFF) (Z.to_nat (buffer_size 128 64)) /\
  pixel_at 128 (ssd1306_setbuf 128 64 1 (blank_fb 128 64)) 127 63
  = negb (1 =? 0).
Proof.
  refine (conj geometry_128x64 (conj blank_128x64_wf _)).
  destruct (setbuf_fills 128 64 (blank_fb 128 64) 1
              geometry_128x64 blank_128x64_wf) as [E P].
  exact (conj E (P 127 63 ltac:(lia) ltac:(lia))).
Defined.

Lemma drawLine_axis_aligned_witness :
  geometry_ok 128 64 /\ fb_wf 128 64 (blank_fb 128 64) /\
  0 <= 10 <= 65535 /\ 0 <= 3 <= 65535 /\ 0 <= 5 <= 65535 /\
  pixel_at 128 (ssd1306_drawLine 128 64 10 5 3 5 1 (blank_fb 128 64)) 4 5
  = true /\
  pixel_at 128 (ssd1306_drawLine 128 64 5 10 5 3 1 (blank_fb 128 64)) 5 4
  = true.
Proof.
  assert (H1 : 0 <= 10 <= 65535) by lia. assert (H2 : 0 <= 3 <= 65535) by lia.
  assert (H3 : 0 <= 5 <= 65535) by lia.
  refine (conj geometry_128x64 (conj blank_128x64_wf
            (conj H1 (conj H2 (conj H3 _))))).
  pose proof (drawLine_axis_aligned 128 64 (blank_fb 128 64) 10 3 5 1
                geometry_128x64 blank_128x64_wf H1 H2 H3) as P.
  destruct (P 4 5 ltac:(lia) ltac:(lia)) as (Ph & _ & _).
  destruct (P 5 4 ltac:(lia) ltac:(lia)) as (_ & Pv & _).
  exact (conj Ph Pv).
Defined.

Lemma drawLine_refines_classic_witness :
  128 <= 2^31 /\ 64 <= 2^31 /\ 0 <= 0 <= 65535 /\ 0 <= 10 <= 65535 /\
  0 <= 5 <= 65535 /\
  ssd1306_drawLine 128 64 0 0 10 5 1 (blank_fb 128 64)
  = plot_points 128 64 1 (bresenham_points 0 0 10 5) (blank_fb 128 64).
Proof.
  assert (H1 : 128 <= 2^31) by lia. assert (H2 : 64 <= 2^31) by lia.
  assert (H3 : 0 <= 0 <= 65535) by lia. assert (H4 : 0 <= 10 <= 65535) by lia.
  assert (H5 : 0 <= 5 <= 65535) by lia.
  refine (conj H1 (conj H2 (conj H3 (conj H4 (conj H5 _))))).
  exact (drawLine_refines_classic 128 64 (blank_fb 128 64) 0 0 10 5 1
           H1 H2 H3 H3 H4 H5).
Defined.

Lemma drawchar_cell_witness :
  geometry_ok 128 64 /\ fb_wf 128 64 (blank_fb 128 64) /\ 0 <= 16 <= 255 /\
  pixel_at 128 (ssd1306_drawchar 128 64 solid_font 16 16 65 1 (blank_fb 128 64))
    19 20
  = glyph_pixel
      (Z.testbit (u8 (solid_font (Z.shiftl 65 3 + (20 - 16)))) (7 - (19 - 16))) 1 /\
  pixel_at 128 (ssd1306_drawchar 128 64 solid_font 16 16 65 1 (blank_fb 128 64))
    24 20
  = pixel_at 128 (blank_fb 128 64) 24 20.
Proof.
  assert (H1 : 0 <= 16 <= 255) by lia.
  refine (conj geometry_128x64 (conj blank_128x64_wf (conj H1 _))).
  destruct (drawchar_cell 128 64 solid_font (blank_fb 128 64) 16 16 65 1
              geometry_128x64 blank_128x64_wf H1 H1) as [P _].
  exact (conj (P 19 20 ltac:(lia) ltac:(lia)) (P 24 20 ltac:(lia) ltac:(lia))).
Defined.

Lemma drawstr_stays_on_its_line_witness :
  geometry_ok 128 64 /\ fb_wf 128 64 (blank_fb 128 64) /\ 0 <= 16 <= 255 /\
  pixel_at 128
    (ssd1306_drawstr 128 64 solid_font 16 16 [72; 73] 1 (blank_fb 128 64)) 20 24
  = pixel_at 128 (blank_fb 128 64) 20 24 /\
  ssd1306_drawstr 128 64 solid_font 16 16 ([72; 73] ++ 0 :: [74]) 1
    (blank_fb 128 64)
  = ssd1306_drawstr 128 64 solid_font 16 16 [72; 73] 1 (blank_fb 128 64).
Proof.
  assert (H1 : 0 <= 16 <= 255) by lia.
  refine (conj geometry_128x64 (conj blank_128x64_wf (conj H1 _))).
  destruct (drawstr_stays_on_its_line 128 64 solid_font (blank_fb 128 64)
              16 16 1 [72; 73] [74] geometry_128x64 blank_128x64_wf H1 H1)
    as [P E].
  exact (conj (P 20 24 ltac:(lia) ltac:(lia) ltac:(lia)) E).
Defined.

Lemma refresh_reads_whole_packets_witness :
  0 <= buffer_size 72 40 <= 2^32 - 32 /\
  length (repeat 0 360) = Z.to_nat (buffer_size 72 40) /\
  (Z.to_nat ((buffer_size 72 40 + SSD1306_PSZ - 1) / SSD1306_PSZ) < 20)%nat /\
  exists datas,
    ssd1306_refresh 72 40 28 20 (repeat 0 360)
    = Some ([ ssd1306_cmd SSD1306_COLUMNADDR; ssd1306_cmd 28;
              ssd1306_cmd (28 + 72 - 1); ssd1306_cmd SSD1306_PAGEADDR;
              ssd1306_cmd 0; ssd1306_cmd 7 ] ++ datas) /\
    Z.of_nat (length datas)
    = (buffer_size 72 40 + SSD1306_PSZ - 1) / SSD1306_PSZ /\
    Forall (fun p => is_data p /\ length (payload p) = 32%nat) datas /\
    concat (map payload datas)
    = map Some (repeat 0 360)
      ++ repeat None
           (Z.to_nat (SSD1306_PSZ
                      * ((buffer_size 72 40 + SSD1306_PSZ - 1) / SSD1306_PSZ)
                      - buffer_size 72 40)).
Proof.
  assert (H1 : 0 <= buffer_size 72 40 <= 2^32 - 32)
    by (vm_compute; split; discriminate).
  assert (H2 : length (repeat 0 360) = Z.to_nat (buffer_size 72 40))
    by reflexivity.
  assert (H3 : (Z.to_nat ((buffer_size 72 40 + SSD1306_PSZ - 1) / SSD1306_PSZ)
                < 20)%nat) by (vm_compute; lia).
  exact (conj H1 (conj H2 (conj H3
           (refresh_reads_whole_packets 72 40 28 20 (repeat 0 360) H1 H2 H3)))).
Defined.

Lemma init_stops_at_first_refusal_witness :
  Forall (fun c => c <> SSD1306_TERMINATE_CMDS) [0xAE; 0xD5; 0x80; 0xA8; 0x3F] /\
  0 <= buffer_size 128 64 <= 2^32 - 32 /\
  (Z.to_nat ((buffer_size 128 64 + 31) / 32) < 40)%nat /\
  (forall j, (j < 3)%nat ->
     acknowledged (refusing_bus 3) [] [0xAE; 0xD5; 0x80; 0xA8; 0x3F] j) /\
  ~ acknowledged (refusing_bus 3) [] [0xAE; 0xD5; 0x80; 0xA8; 0x3F] 3 /\
  ssd1306_init 128 64 0 (refusing_bus 3)
    ([0xAE; 0xD5; 0x80; 0xA8; 0x3F] ++ SSD1306_TERMINATE_CMDS :: []) 40 []
    (blank_fb 128 64) []
  = Some {| init_status := 1;
            init_trace := [] ++ sent_after [0xAE; 0xD5; 0x80; 0xA8; 0x3F] 4;
            init_fb := ssd1306_setbuf 128 64 0 (blank_fb 128 64);
            init_cmdbuffer := [] |}.
Proof.
  assert (H1 : Forall (fun c => c <> SSD1306_TERMINATE_CMDS)
                 [0xAE; 0xD5; 0x80; 0xA8; 0x3F])
    by (repeat constructor; discriminate).
  assert (H2 : 0 <= buffer_size 128 64 <= 2^32 - 32)
    by (vm_compute; split; discriminate).
  assert (H3 : (Z.to_nat ((buffer_size 128 64 + 31) / 32) < 40)%nat)
    by (vm_compute; lia).
  assert (H4 : forall j, (j < 3)%nat ->
                 acknowledged (refusing_bus 3) []
                   [0xAE; 0xD5; 0x80; 0xA8; 0x3F] j)
    by (intros [|[|[|j]]] Hj; [reflexivity | reflexivity | reflexivity | lia]).
  assert (H5 : ~ acknowledged (refusing_bus 3) []
                 [0xAE; 0xD5; 0x80; 0xA8; 0x3F] 3) by discriminate.
  refine (conj H1 (conj H2 (conj H3 (conj H4 (conj H5 _))))).
  destruct (init_stops_at_first_refusal 128 64 0 (refusing_bus 3)
              [0xAE; 0xD5; 0x80; 0xA8; 0x3F] [] 40 []
              (blank_fb 128 64) [] H1 H2 H3) as [R _].
  exact (R 3%nat ltac:(cbn; lia) H4 H5).
Defined.

Lemma circles_stay_in_their_box_witness :
  geometry_ok 128 64 /\ fb_wf 128 64 (blank_fb 128 64) /\
  128 <= 2^31 /\ 64 <= 2^31 /\ 0 <= 5 <= 2^29 /\ - 2^30 <= 20 <= 2^30 /\
  exists st1 st2,
    ssd1306_drawCircle 128 64 (Z.to_nat (2 * 5 + 1)) 20 20 5 1 (blank_fb 128 64)
    = Some st1 /\
    ssd1306_fillCircle 128 64 (Z.to_nat (2 * 5 + 1)) 20 20 5 1 (blank_fb 128 64)
    = Some st2 /\
    pixel_at 128 st1 25 20 = negb (1 =? 0) /\
    pixel_at 128 st2 15 20 = negb (1 =? 0) /\
    (in_box 20 20 5 26 20 = false ->
     pixel_at 128 st1 26 20 = pixel_at 128 (blank_fb 128 64) 26 20).
Proof.
  assert (H1 : 128 <= 2^31) by lia. assert (H2 : 64 <= 2^31) by lia.
  assert (H3 : 0 <= 5 <= 2^29) by lia.
  assert (H4 : - 2^30 <= 20 <= 2^30) by lia.
  refine (conj geometry_128x64 (conj blank_128x64_wf
            (conj H1 (conj H2 (conj H3 (conj H4 _)))))).
  destruct (circles_stay_in_their_box 128 64 (blank_fb 128 64) 20 20 5 1
              geometry_128x64 blank_128x64_wf H1 H2 H3 H4 H4)
    as (st1 & st2 & E1 & E2 & P).
  exists st1, st2. split; [exact E1|]. split; [exact E2|].
  destruct (P st1 (or_introl eq_refl)) as [_ P1].
  destruct (P st2 (or_intror eq_refl)) as [_ P2].
  destruct (P1 25 20 ltac:(lia) ltac:(lia)) as (_ & _ & A).
  destruct (P2 15 20 ltac:(lia) ltac:(lia)) as (_ & _ & B).
  destruct (P1 26 20 ltac:(lia) ltac:(lia)) as (C & _ & _).
  split; [apply A; [right; reflexivity | reflexivity]|].
  split; [apply B; [left; reflexivity | reflexivity]|].
  exact C.
Defined.

Lemma fillCircle_centre_row_witness :
  geometry_ok 128 64 /\ fb_wf 128 64 (blank_fb 128 64) /\
  128 <= 2^31 /\ 64 <= 2^31 /\ 0 <= 5 <= 2^29 /\ - 2^30 <= 2 <= 2^30 /\
  - 2^30 <= 20 <= 2^30 /\ 0 <= 10 < 64 /\ 10 <= 2^30 /\
  (exists st',
     ssd1306_fillCircle 128 64 (Z.to_nat (2 * 5 + 1)) 20 10 5 1 (blank_fb 128 64)
     = Some st' /\
     pixel_at 128 st' 20 10 = negb (1 =? 0)) /\
  (exists st',
     ssd1306_fillCircle 128 64 (Z.to_nat (2 * 5 + 1)) 2 10 5 1 (blank_fb 128 64)
     = Some st' /\
     pixel_at 128 st' 2 10 = pixel_at 128 (blank_fb 128 64) 2 10).
Proof.
  assert (H1 : 128 <= 2^31) by lia. assert (H2 : 64 <= 2^31) by lia.
  assert (H3 : 0 <= 5 <= 2^29) by lia.
  assert (H4 : - 2^30 <= 2 <= 2^30) by lia.
  assert (H5 : - 2^30 <= 20 <= 2^30) by lia.
  assert (H6 : 0 <= 10 < 64) by lia. assert (H7 : 10 <= 2^30) by lia.
  refine (conj geometry_128x64 (conj blank_128x64_wf (conj H1 (conj H2
            (conj H3 (conj H4 (conj H5 (conj H6 (conj H7 _))))))))).
  destruct (fillCircle_centre_row 128 64 (blank_fb 128 64) 20 10 5 1
              geometry_128x64 blank_128x64_wf H1 H2 H3 H5 H6 H7)
    as (sa & Ea & Fa & _).
  destruct (fillCircle_centre_row 128 64 (blank_fb 128 64) 2 10 5 1
              geometry_128x64 blank_128x64_wf H1 H2 H3 H4 H6 H7)
    as (sb & Eb & _ & Nb).
  split.
  - exists sa. split; [exact Ea|].
    exact (Fa ltac:(lia) 20 ltac:(lia) ltac:(lia)).
  - exists sb. split; [exact Eb|].
    exact (Nb ltac:(lia) ltac:(lia) 2 ltac:(lia) ltac:(lia)).
Defined.

Lemma data_packet_clamped_witness :
  0 <= 8 /\ 0 <= 40 /\
  is_data (ssd1306_data (repeat 0 64) 8 40) /\
  Z.of_nat (length (payload (ssd1306_data (repeat 0 64) 8 40)))
  = Z.min 40 SSD1306_PSZ /\
  payload (ssd1306_data (repeat 0 64) 8 40)
  = map Some (firstn (Z.to_nat (Z.min 40 SSD1306_PSZ))
                (skipn (Z.to_nat 8) (repeat 0 64))).
Proof.
  assert (H1 : 0 <= 8) by lia. assert (H2 : 0 <= 40) by lia.
  refine (conj H1 (conj H2 _)).
  destruct (data_packet_clamped (repeat 0 64) 8 40 H1 H2) as (A & B & C).
  refine (conj A (conj B (C _))). vm_compute. lia.
Defined.

Lemma drawchar_sz_cell_witness :
  geometry_ok 128 64 /\ fb_wf 128 64 (blank_fb 128 64) /\ 0 <= 16 <= 255 /\
  pixel_at 128
    (ssd1306_drawchar_sz 128 64 solid_font 16 16 65 1 fontsize_16x16
       (blank_fb 128 64)) 21 30
  = glyph_pixel
      (Z.testbit (u8 (solid_font (Z.shiftl 65 3 + (30 - 16) / 2)))
         (7 - (21 - 16) / 2)) 1 /\
  pixel_at 128
    (ssd1306_drawstr_sz 128 64 solid_font 16 16 [72; 73] 1 fontsize_16x16
       (blank_fb 128 64)) 20 32
  = pixel_at 128 (blank_fb 128 64) 20 32.
Proof.
  assert (H1 : 0 <= 16 <= 255) by lia.
  refine (conj geometry_128x64 (conj blank_128x64_wf (conj H1 _))).
  destruct (drawchar_sz_cell 128 64 solid_font (blank_fb 128 64) 16 16 65 1
              fontsize_16x16 [72; 73] geometry_128x64 blank_128x64_wf H1 H1)
    as [P Q].
  exact (conj (P 21 30 ltac:(lia) ltac:(lia))
              (Q 20 32 ltac:(lia) ltac:(lia) ltac:(cbn; lia))).
Defined.
